(** * LCARS bridge dashboard: cache layer, task store, message store, hub

    A shallow embedding of the parts of [server.js] that the dashboard's
    specification makes testable promises about, followed by the theorems
    that settle those promises.

    Conventions of the embedding:
    - [Date.now()] is an input of every operation ([now]); an operation is
      synchronous, so the clock is read once for its whole body;
    - values that the code tests for truthiness keep that test
      ([Js.truthy], [Js.truthy_str]); [null] and [undefined] fields are
      [option]s;
    - the task and message documents are objects mutated in place, and the
      object [loadTasks] returns is usually the one the read cache holds:
      every mutation is written back to the cache when it is
      ([Tasks.commit]), so that the aliasing shows in the state;
    - what the code hands to a collaborator outside the repository (the
      safe writer, [writeFileSync], [client.send]) is recorded in the
      state, oldest first;
    - [String.prototype.toLowerCase] belongs to the engine and follows
      the Unicode case mappings: the definitions that call it take it as
      the parameter [toLowerCase]. *)

From Stdlib Require Import ZArith Ascii String List Bool Lia.
From stdpp Require Import base option list strings gmap pretty.

Set Default Proof Using "Type".

(* ================================================================== *)
(** ** JavaScript values                                                *)
(* ================================================================== *)

Module Js.

(** The values a compute function can hand to the cache.  An object is
    opaque here: it is carried as its JSON text. *)
Inductive value :=
| JUndefined
| JNull
| JBool (b : bool)
| JNum (n : Z)
| JStr (s : string)
| JObj (json : string).

(** ToBoolean. *)
Definition truthy (v : value) : bool :=
  match v with
  | JUndefined | JNull => false
  | JBool b => b
  | JNum n => negb (n =? 0)%Z
  | JStr s => negb (String.eqb s "")
  | JObj _ => true
  end.

(** Truthiness of a string-valued argument that may be [null] or
    [undefined] ([None]). *)
Definition truthy_str (o : option string) : bool :=
  match o with
  | Some s => negb (String.eqb s "")
  | None => false
  end.

(** How a call ends: with a value, or with a thrown exception. *)
Inductive completion (A : Type) :=
| Return (a : A)
| Throw (message : string).
Arguments Return {A} a.
Arguments Throw {A} message.

(** What [String.prototype.toLowerCase] does to a text of ASCII
    characters only: the letters A to Z become a to z.  The scenarios
    pass it where a definition asks for the engine's [toLowerCase]; their
    texts are ASCII. *)
Definition lower_ascii (c : ascii) : ascii :=
  let n := nat_of_ascii c in
  if (65 <=? n)%nat && (n <=? 90)%nat then ascii_of_nat (n + 32) else c.

Fixpoint asciiLowerCase (s : string) : string :=
  match s with
  | EmptyString => EmptyString
  | String c rest => String (lower_ascii c) (asciiLowerCase rest)
  end.

End Js.

(* ================================================================== *)
(** ** Cache layer ([cache], [getCached], [invalidateCache])            *)
(* ================================================================== *)

Module Cache.
Import Js.

Record entry := Entry { data : value; lastUpdate : Z; ttl : Z }.

(** The [cache] literal.  The [gitStatus] entry has no [data] field (it
    carries [workspace] and [skills], which [getCached] never reads), so
    its [data] reads as [undefined]. *)
Definition initial : gmap string entry :=
  list_to_map
    [ ("systemStats", Entry JNull 0 15000);
      ("gitStatus", Entry JUndefined 0 30000);
      ("sessions", Entry JNull 0 10000);
      ("quarkData", Entry JNull 0 5000);
      ("bridgeData", Entry JNull 0 10000);
      ("gatewayStatus", Entry JNull 0 60000) ].

(** A compute function reads the outside world [W] (files, processes)
    and may change it. *)
Definition fetchFn (W : Type) : Type := W -> completion value * W.

(** The cache together with the world the compute functions act on.
    [fetches] counts the invocations of compute functions; it is
    bookkeeping of the model, the code has no such counter. *)
Record state (W : Type) := State {
  cache : gmap string entry;
  world : W;
  fetches : nat
}.
Arguments State {W} cache world fetches.
Arguments cache {W} s.
Arguments world {W} s.
Arguments fetches {W} s.

(** The entry [getCached] creates for a key it has never seen. *)
Definition fresh_entry : entry := Entry JNull 0 30000.

(** [entry.data && (now - entry.lastUpdate) < entry.ttl] *)
Definition live (now : Z) (e : entry) : bool :=
  truthy (data e) && (now - lastUpdate e <? ttl e)%Z.

Definition getCached {W} (key : string) (fetch : fetchFn W) (now : Z)
    (st : state W) : completion value * state W :=
  let entry0 := default fresh_entry (cache st !! key) in
  let cache0 :=
    match cache st !! key with
    | Some _ => cache st
    | None => <[key := fresh_entry]> (cache st)
    end in
  if live now entry0 then
    (Return (data entry0), State cache0 (world st) (fetches st))
  else
    match fetch (world st) with
    | (Throw msg, w') => (Throw msg, State cache0 w' (S (fetches st)))
    | (Return d, w') =>
        (Return d,
         State (<[key := Entry d now (ttl entry0)]> cache0) w'
               (S (fetches st)))
    end.

Definition invalidate1 (c : gmap string entry) (key : string)
    : gmap string entry :=
  match c !! key with
  | Some e => <[key := Entry JNull (lastUpdate e) (ttl e)]> c
  | None => c
  end.

Definition invalidateCache {W} (keys : list string) (st : state W)
    : state W :=
  State (foldl invalidate1 (cache st) keys) (world st) (fetches st).

(** TTL of a key as a caller sees it once the entry exists. *)
Definition ttl_of {W} (key : string) (st : state W) : Z :=
  ttl (default fresh_entry (cache st !! key)).

(** The cache contract as the specification words it: two calls less
    than the key's TTL apart agree and compute at most once, whatever
    the computed value. *)
Definition ttl_contract {W} (key : string) (fetch : fetchFn W)
    (st : state W) (t1 t2 : Z) : Prop :=
  let r1 := getCached key fetch t1 st in
  let r2 := getCached key fetch t2 (snd r1) in
  (0 <= t2 - t1 < ttl_of key (snd r1))%Z ->
  fst r1 = fst r2 /\ fetches (snd r2) <= S (fetches st).

(** The failure policy as the specification words it: when the entry is
    no longer live and the compute function throws, the caller still gets
    a value (the previous one or a default) and the entry is kept. *)
Definition no_throw_contract {W} (key : string) (fetch : fetchFn W)
    (now : Z) (st : state W) : Prop :=
  forall e msg w',
    cache st !! key = Some e ->
    live now e = false ->
    fetch (world st) = (Throw msg, w') ->
    (exists v, fst (getCached key fetch now st) = Return v) /\
    cache (snd (getCached key fetch now st)) !! key = Some e.

(** Two compute functions of the server, reduced to what the cache sees.
    The weather lookup catches its own failure and returns [null]; the
    world counts the [curl] runs. *)
Definition weather_down : fetchFn nat :=
  fun runs => (Return JNull, S runs).

Definition stats_value : value := JObj "{cpu:3,mem:41}".

Definition stats_ok : fetchFn nat :=
  fun runs => (Return stats_value, S runs).

Definition stats_broken : fetchFn nat :=
  fun runs => (Throw "spawnSync ETIMEDOUT", S runs).

Definition boot : state nat := State initial 0 0.

End Cache.

(* ================================================================== *)
(** ** Snapshot aggregator: the win/loss streak of [getQuarkData]       *)
(* ================================================================== *)

Module Quark.

(** A trade of [portfolio.json]'s [history]; [result] is the outcome
    string the trader writes ("win", "loss") or [null] ([None]), which
    JSON allows and the loop below does not tell from its own "not
    started" marker; [profit] is in cents.  A trade without the key
    reads [undefined], which [===] tells from [null] and from every
    string: for the loop it is one more outcome, not represented
    apart. *)
Record trade := Trade { result : option string; profit : Z }.

(** [{ count: currentStreak, type: streakType }]; [type] is [null]
    ([None]) or a result. *)
Record streak := Streak { count : nat; type : option string }.

(** [result === streakType] for a [streakType] that is not [null]. *)
Definition same_result (r : option string) (ty : string) : bool :=
  match r with
  | Some s => String.eqb s ty
  | None => false
  end.

(** The loop [for (let i = history.length - 1; i >= 0; i--)]; [n] is
    [i + 1].  [streakType] starts as [null] ([None]), and is [null] again
    after a trade whose result is [null] has been taken as the start.
    The index is always in range, so the [None] case of the lookup is
    never taken. *)
Fixpoint streak_loop (history : list trade) (n : nat)
    (streakType : option string) (currentStreak : nat) : streak :=
  match n with
  | O => Streak currentStreak streakType
  | S i =>
      match history !! i with
      | None => Streak currentStreak streakType
      | Some t =>
          match streakType with
          | None => streak_loop history i (result t) 1
          | Some ty =>
              if same_result (result t) ty
              then streak_loop history i streakType (S currentStreak)
              else Streak currentStreak streakType
          end
      end
  end.

Definition computeStreak (history : list trade) : streak :=
  streak_loop history (length history) None 0.

(** The streak in the specification's words: the maximal run of trades
    at the end of the history that share one result, with its length and
    that result; count 0 and [null] for an empty history. *)
Definition trailing_run (history : list trade) (s : streak) : Prop :=
  match history with
  | [] => s = Streak 0 None
  | _ :: _ =>
      exists older run,
        history = older ++ run /\ run <> [] /\ length run = count s /\
        Forall (fun t => result t = type s) run /\
        (forall older' t, older = older' ++ [t] -> result t <> type s)
  end.

(** The trade has no result yet. *)
Definition unsettled (t : trade) : Prop := result t = None.

Definition win : trade := Trade (Some "win") 500.
Definition loss : trade := Trade (Some "loss") (-300).
(** A trade written before its outcome is known. *)
Definition open_trade : trade := Trade None 0.

End Quark.

(* ================================================================== *)
(** ** Task store: document, read cache, safe writer                    *)
(* ================================================================== *)

Module Tasks.
Import Js.

(** Instants ([Date.now()], and the ISO strings made from them) are
    milliseconds. *)
Record Comment := mkComment {
  c_id : string; c_author : string; c_text : string; c_timestamp : Z }.

Record LogEntry := mkLogEntry {
  l_id : string; l_type : string; l_agent : string; l_message : string;
  l_timestamp : Z }.

(** A task.  [comments] and [logs] are absent until first used
    ([if (!task.logs) task.logs = []]); [assignee] may be [null]. *)
Record Task := mkTask {
  id : string;
  title : string;
  description : string;
  status : string;
  assignee : option string;
  category : string;
  priority : string;
  createdAt : Z;
  updatedAt : Z;
  comments : option (list Comment);
  logs : option (list LogEntry) }.

(** An entry of the activity feed; the context fields depend on the kind
    of entry and are absent otherwise. *)
Record Activity := mkActivity {
  a_id : string;
  a_type : string;
  a_action : string;
  a_agent : string;
  a_taskId : string;
  a_taskTitle : option string;
  a_from : option string;
  a_to : option string;
  a_target : option string;
  a_timestamp : Z }.

Record AgentProfile := mkAgent {
  ag_name : string; ag_role : string; ag_department : string;
  ag_badges : list string; ag_color : string; ag_model : string }.

Record TasksDoc := mkDoc {
  version : string;
  lastUpdated : Z;
  columns : list string;
  tasks : list Task;
  activity : list Activity;
  agents : list (string * AgentProfile) }.

(** The partial object of [updateTask] (the request body, or
    [msg.updates]): for each key of a task, the key is absent or carries
    the new value, which for [assignee], [comments] and [logs] may be
    [null].  Nothing restricts the keys a caller sends; a key that is no
    field of a task is copied onto the task object as well, where
    nothing of the code embedded here reads it, and the record has no
    place for it. *)
Record TaskPatch := mkPatch {
  p_id : option string;
  p_title : option string;
  p_description : option string;
  p_status : option string;
  p_assignee : option (option string);
  p_category : option string;
  p_priority : option string;
  p_createdAt : option Z;
  p_updatedAt : option Z;
  p_comments : option (option (list Comment));
  p_logs : option (option (list LogEntry)) }.

Definition no_change : TaskPatch :=
  mkPatch None None None None None None None None None None None.

Definition set_status (s : string) : TaskPatch :=
  mkPatch None None None (Some s) None None None None None None None.

Definition MAX_ACTIVITY_ENTRIES : nat := 500.
Definition MAX_LOGS_PER_TASK : nat := 50.
Definition TASKS_CACHE_TTL : Z := 2000.

Definition getDefaultTasks (now : Z) : TasksDoc :=
  mkDoc "1.0" now
    ["inbox"; "assigned"; "in_progress"; "peer_review"; "review"; "done"]
    [] []
    [ ("seven", mkAgent "Seven of Nine" "Number One" "CMD" ["LEAD"] "#cc99cc" "opus");
      ("geordi", mkAgent "Geordi La Forge" "Chief Engineer" "ENG" ["SPC"] "#9999ff" "opus");
      ("belanna", mkAgent "B'Elanna Torres" "Engineering" "ENG" ["SPC"] "#cc6666" "codex");
      ("icheb", mkAgent "Icheb" "Borg Specialist" "ENG" [] "#66cccc" "minimax");
      ("uhura", mkAgent "Nyota Uhura" "Comms Officer" "COM" ["SPC"] "#cc6699" "opus");
      ("hoshi", mkAgent "Hoshi Sato" "Linguist" "COM" [] "#cc99ff" "codex");
      ("harry", mkAgent "Harry Kim" "Operations" "COM" [] "#99ccff" "minimax");
      ("spock", mkAgent "Spock" "Science Officer" "SCI" ["SPC"] "#99cc99" "opus");
      ("tuvok", mkAgent "Tuvok" "Security/Research" "SCI" [] "#9999cc" "codex");
      ("doctor", mkAgent "The Doctor" "EMH Research" "SCI" [] "#99ff99" "minimax");
      ("quark", mkAgent "Quark" "Trade Advisor" "TRD" ["SPC"] "#ffcc99" "opus");
      ("tom", mkAgent "Tom Paris" "Risk Trader" "TRD" [] "#ff9999" "codex");
      ("neelix", mkAgent "Neelix" "Resource Mgmt" "TRD" [] "#ffcc66" "minimax");
      ("data", mkAgent "Data" "Quality Control" "QC" ["SPC"; "QC"] "#ffd700" "opus");
      ("lal", mkAgent "Lal" "QC Testing" "QC" ["QC"] "#ffdd55" "codex") ].

(** [tasks.json]: absent, present but not parseable, or holding a
    document. *)
Inductive FileState :=
| FileMissing
| FileUnreadable
| FileHolds (doc : TasksDoc).

(** Modelled from the spec: the backup-protected writer
    [tasksBackup.safeWriteTasks] lives outside the repository; its
    contract is [write(doc, reason) -> {success, blocked, error}].  It
    decides from the new document and the current file; when it reports
    success the file holds the document it was given, otherwise the file
    is as it was.  [Threw] is the call raising instead of returning. *)
Inductive WriteResult :=
| Written
| Blocked (error : string)
| Failed (error : string)
| Threw (error : string).

Definition Writer : Type := TasksDoc -> FileState -> WriteResult.

(** [tasksCache = { data, lastLoad }] *)
Record ReadCache := mkCache { data : option TasksDoc; lastLoad : Z }.

(** Everything the task store reads and writes.  [entropy] supplies the
    successive [Math.random()] suffixes; [handed] lists the documents
    given to the safe writer, oldest first; [console] is the log. *)
Record World := mkWorld {
  now : Z;
  entropy : nat -> string;
  drawn : nat;
  tasksFile : FileState;
  tasksCache : ReadCache;
  safeWriter : Writer;
  handed : list (TasksDoc * string);
  console : list (string * string) }.

Definition log (level message : string) (w : World) : World :=
  mkWorld (now w) (entropy w) (drawn w) (tasksFile w) (tasksCache w)
          (safeWriter w) (handed w) (console w ++ [(level, message)]).

Definition with_cache (c : ReadCache) (w : World) : World :=
  mkWorld (now w) (entropy w) (drawn w) (tasksFile w) c
          (safeWriter w) (handed w) (console w).

Definition with_file (f : FileState) (w : World) : World :=
  mkWorld (now w) (entropy w) (drawn w) f (tasksCache w)
          (safeWriter w) (handed w) (console w).

Definition hand_over (d : TasksDoc) (reason : string) (w : World) : World :=
  mkWorld (now w) (entropy w) (drawn w) (tasksFile w) (tasksCache w)
          (safeWriter w) (handed w ++ [(d, reason)]) (console w).

(** The clock moving on between two operations. *)
Definition at_time (t : Z) (w : World) : World :=
  mkWorld t (entropy w) (drawn w) (tasksFile w) (tasksCache w)
          (safeWriter w) (handed w) (console w).

(** [`${prefix}-${Date.now()}-${Math.random().toString(36).substr(2, 9)}`] *)
Definition generateId (prefix : string) (w : World) : string * World :=
  (prefix +:+ "-" +:+ pretty (now w) +:+ "-" +:+ entropy w (drawn w),
   mkWorld (now w) (entropy w) (S (drawn w)) (tasksFile w) (tasksCache w)
           (safeWriter w) (handed w) (console w)).

(** Where the document object returned by [loadTasks] lives: it is the
    very object held in [tasksCache.data], or a fresh default. *)
Inductive Origin := CachedObject | FreshObject.

(** In-place mutation of the loaded object: visible in the read cache
    when the object is the cached one. *)
Definition commit (o : Origin) (d : TasksDoc) (w : World) : World :=
  match o with
  | CachedObject => with_cache (mkCache (Some d) (lastLoad (tasksCache w))) w
  | FreshObject => w
  end.

Definition readTasksFile (w : World) : TasksDoc * Origin * World :=
  match tasksFile w with
  | FileHolds d => (d, CachedObject, with_cache (mkCache (Some d) (now w)) w)
  | FileUnreadable =>
      (getDefaultTasks (now w), FreshObject, log "ERROR" "Error loading tasks:" w)
  | FileMissing => (getDefaultTasks (now w), FreshObject, w)
  end.

Definition loadTasks (w : World) : TasksDoc * Origin * World :=
  match data (tasksCache w) with
  | Some d =>
      if (now w - lastLoad (tasksCache w) <? TASKS_CACHE_TTL)%Z
      then (d, CachedObject, w)
      else readTasksFile w
  | None => readTasksFile w
  end.

(** [list.slice(-n)] *)
Definition slice_last {A} (n : nat) (l : list A) : list A :=
  drop (length l - n) l.

Definition pruneLogs (t : Task) : Task * bool :=
  match logs t with
  | Some ls =>
      if MAX_LOGS_PER_TASK <? length ls
      then (mkTask (id t) (title t) (description t) (status t) (assignee t)
                   (category t) (priority t) (createdAt t) (updatedAt t)
                   (comments t) (Some (slice_last MAX_LOGS_PER_TASK ls)),
            true)
      else (t, false)
  | None => (t, false)
  end.

(** Returns the pruned document and the [pruned] flag. *)
Definition pruneTaskData (d : TasksDoc) : TasksDoc * bool :=
  let act :=
    if MAX_ACTIVITY_ENTRIES <? length (activity d)
    then (slice_last MAX_ACTIVITY_ENTRIES (activity d), true)
    else (activity d, false) in
  let ts := map pruneLogs (tasks d) in
  (mkDoc (version d) (lastUpdated d) (columns d) (map fst ts) (fst act)
         (agents d),
   snd act || existsb snd ts).

(** [saveTasks(tasksData, reason)]: prune in place, hand the document to
    the safe writer, drop the read cache only when the write went
    through. *)
Definition saveTasks (d : TasksDoc) (o : Origin) (reason : string)
    (w : World) : bool * World :=
  let d' := fst (pruneTaskData d) in
  let w1 := hand_over d' reason (commit o d' w) in
  match safeWriter w d' (tasksFile w) with
  | Written =>
      (true,
       log "INFO" "Tasks saved successfully"
         (with_cache (mkCache None (lastLoad (tasksCache w1)))
            (with_file (FileHolds d') w1)))
  | Blocked _ =>
      (false, log "WARN" "Tasks write BLOCKED by backup protection:" w1)
  | Failed _ => (false, log "ERROR" "Tasks write failed:" w1)
  | Threw _ => (false, log "ERROR" "Error saving tasks:" w1)
  end.

(** ** Task store: the mutating operations *)

(** [{ ...oldTask, ...updates, updatedAt: new Date().toISOString() }]:
    every key of the updates replaces the task's, and [updatedAt], set
    last, replaces whatever the updates carried for it. *)
Definition merge (t : Task) (u : TaskPatch) (now : Z) : Task :=
  mkTask (default (id t) (p_id u))
         (default (title t) (p_title u))
         (default (description t) (p_description u))
         (default (status t) (p_status u))
         (default (assignee t) (p_assignee u))
         (default (category t) (p_category u))
         (default (priority t) (p_priority u))
         (default (createdAt t) (p_createdAt u))
         now
         (default (comments t) (p_comments u))
         (default (logs t) (p_logs u)).

(** [tasksData.tasks.findIndex(t => t.id === taskId)], with the task
    found; [None] is the code's [-1]. *)
Definition findTask (taskId : string) (d : TasksDoc) : option (nat * Task) :=
  list_find (fun t => id t = taskId) (tasks d).

(** [updates.status && updates.status !== oldTask.status]: the new status
    when the guard passes. *)
Definition statusChange (updates : TaskPatch) (oldTask : Task)
    : option string :=
  match p_status updates with
  | Some s =>
      if truthy (JStr s) && negb (String.eqb s (status oldTask))
      then Some s else None
  | None => None
  end.

Definition with_tasks_activity (ts : list Task) (act : list Activity)
    (d : TasksDoc) : TasksDoc :=
  mkDoc (version d) (lastUpdated d) (columns d) ts act (agents d).

Definition movedActivity (aid taskId : string) (updatedTask oldTask : Task)
    (to : string) (now : Z) : Activity :=
  mkActivity aid "status" "moved" "system" taskId (Some (title updatedTask))
             (Some (status oldTask)) (Some to) None now.

(** The task object handed back to the caller is the one stored in the
    document, so it has gone through [pruneTaskData] inside [saveTasks]. *)
Definition updateTask (taskId : string) (updates : TaskPatch) (w : World)
    : option Task * World :=
  let '(d, o, w1) := loadTasks w in
  match findTask taskId d with
  | None => (None, log "WARN" "Task not found:" w1)
  | Some (taskIndex, oldTask) =>
      let updatedTask := merge oldTask updates (now w1) in
      let tasks1 := <[taskIndex := updatedTask]> (tasks d) in
      let '(activity1, w2) :=
        match statusChange updates oldTask with
        | Some to =>
            let '(aid, w2) := generateId "act" w1 in
            (activity d ++
               [movedActivity aid taskId updatedTask oldTask to (now w1)], w2)
        | None => (activity d, w1)
        end in
      let d1 := with_tasks_activity tasks1 activity1 d in
      let '(_, w3) := saveTasks d1 o "dashboard-update" (commit o d1 w2) in
      (Some (fst (pruneLogs updatedTask)), w3)
  end.

Definition addTaskComment (taskId author text : string) (w : World)
    : option Comment * World :=
  let '(d, o, w1) := loadTasks w in
  match findTask taskId d with
  | None => (None, log "WARN" "Task not found for comment:" w1)
  | Some (taskIndex, t) =>
      let '(cid, w2) := generateId "c" w1 in
      let comment := mkComment cid author text (now w1) in
      let t1 := mkTask (id t) (title t) (description t) (status t)
                       (assignee t) (category t) (priority t) (createdAt t)
                       (now w1)
                       (Some (default [] (comments t) ++ [comment]))
                       (logs t) in
      let '(aid, w3) := generateId "act" w2 in
      let act := mkActivity aid "comment" "added" author taskId
                            (Some (title t1)) None None None (now w1) in
      let d1 := with_tasks_activity (<[taskIndex := t1]> (tasks d))
                                    (activity d ++ [act]) d in
      let '(_, w4) := saveTasks d1 o "dashboard-update" (commit o d1 w3) in
      (Some comment, w4)
  end.

Definition deleteTask (taskId : string) (w : World) : option Task * World :=
  let '(d, o, w1) := loadTasks w in
  match findTask taskId d with
  | None => (None, w1)
  | Some (taskIndex, deletedTask) =>
      let '(aid, w2) := generateId "act" w1 in
      let act := mkActivity aid "task" "deleted" "system" taskId
                            (Some (title deletedTask)) None None None
                            (now w1) in
      let d1 := with_tasks_activity (delete taskIndex (tasks d))
                                    (activity d ++ [act]) d in
      let '(_, w3) := saveTasks d1 o "dashboard-update" (commit o d1 w2) in
      (Some deletedTask, w3)
  end.

Definition createdActivity (aid : string) (task : Task) (now : Z)
    : Activity :=
  mkActivity aid "task" "created" "system" (id task) (Some (title task))
             None None None now.

Definition assignedActivity (aid : string) (task : Task)
    (assignee : option string) (now : Z) : Activity :=
  mkActivity aid "status" "assigned" "system" (id task) None None None
             assignee now.

(** [createTask(title, description, assignee = null, category, priority)];
    the defaults of [category] and [priority] are applied by the caller
    of this definition. *)
Definition createTask (title description : string)
    (assignee : option string) (category priority : string) (w : World)
    : Task * World :=
  let '(d, o, w1) := loadTasks w in
  let '(tid, w2) := generateId "task" w1 in
  let task := mkTask tid title description
                     (if truthy_str assignee then "assigned" else "inbox")
                     assignee category priority (now w1) (now w1)
                     (Some []) None in
  let '(aid, w3) := generateId "act" w2 in
  let activity1 := activity d ++ [createdActivity aid task (now w1)] in
  let '(activity2, w4) :=
    if truthy_str assignee
    then let '(aid2, w4) := generateId "act" w3 in
         (activity1 ++ [assignedActivity aid2 task assignee (now w1)], w4)
    else (activity1, w3) in
  let d1 := with_tasks_activity (tasks d ++ [task]) activity2 d in
  let '(_, w5) := saveTasks d1 o "dashboard-update" (commit o d1 w4) in
  (fst (pruneLogs task), w5).

(** The document a call to [loadTasks] would return now. *)
Definition view (w : World) : TasksDoc := fst (fst (loadTasks w)).

(** What is durably on disk, as [loadTasks] reads it at time [t]. *)
Definition disk_view (t : Z) (f : FileState) : TasksDoc :=
  match f with
  | FileHolds d => d
  | FileUnreadable | FileMissing => getDefaultTasks t
  end.



(** What [updateTask] does to the activity feed, given the rule [trigger]
    that says when a status move is to be recorded (and to which
    status): the document handed to the safe writer carries the previous
    feed with exactly one "moved" record behind it when the rule fires,
    and the previous feed alone when it does not; in both cases cut to
    the newest [MAX_ACTIVITY_ENTRIES] by the pruning of [saveTasks]. *)
Definition records_move_when (trigger : TaskPatch -> Task -> option string)
    (taskId : string) (updates : TaskPatch) (w : World) : Prop :=
  forall taskIndex oldTask,
    findTask taskId (view w) = Some (taskIndex, oldTask) ->
    exists d',
      handed (snd (updateTask taskId updates w))
        = handed w ++ [(d', "dashboard-update")] /\
      match trigger updates oldTask with
      | Some to =>
          exists aid,
            activity d' =
              slice_last MAX_ACTIVITY_ENTRIES
                (activity (view w) ++
                   [movedActivity aid taskId (merge oldTask updates (now w))
                                  oldTask to (now w)])
      | None =>
          activity d' = slice_last MAX_ACTIVITY_ENTRIES (activity (view w))
      end.

(** The rule in the specification's words: the updates carry a status
    and it differs from the prior one. *)
Definition statusDiffers (updates : TaskPatch) (oldTask : Task)
    : option string :=
  match p_status updates with
  | Some s => if String.eqb s (status oldTask) then None else Some s
  | None => None
  end.

(** The rule the code applies: the status must moreover be a non-empty
    string. *)
Definition nonEmptyStatusDiffers (updates : TaskPatch) (oldTask : Task)
    : option string :=
  match p_status updates with
  | Some s =>
      if String.eqb s "" then None
      else if String.eqb s (status oldTask) then None else Some s
  | None => None
  end.

(** The identifier [generateId] draws in world [w]. *)
Definition drawnId (prefix : string) (w : World) : string :=
  prefix +:+ "-" +:+ pretty (now w) +:+ "-" +:+ entropy w (drawn w).

(** The records [updateTask] pushes on the feed. *)
Definition recorded_move (taskId : string) (updates : TaskPatch) (w : World)
    (oldTask : Task) : list Activity :=
  match statusChange updates oldTask with
  | Some to =>
      [movedActivity (drawnId "act" w) taskId
         (merge oldTask updates (now w)) oldTask to (now w)]
  | None => []
  end.

(** The document [updateTask] passes to [saveTasks]. *)
Definition updated_doc (taskId : string) (updates : TaskPatch) (w : World)
    (taskIndex : nat) (oldTask : Task) : TasksDoc :=
  with_tasks_activity
    (<[taskIndex := merge oldTask updates (now w)]> (tasks (view w)))
    (activity (view w) ++ recorded_move taskId updates w oldTask)
    (view w).

(** An assignee is given: the argument is an agent id, not [null], not
    left out, and not the empty string. *)
Definition given (assignee : option string) : Prop :=
  exists a, assignee = Some a /\ a <> "".

(** A "moved" record of task [taskId] from one status to another. *)
Definition is_moved (taskId from to : string) (a : Activity) : Prop :=
  a_type a = "status" /\ a_action a = "moved" /\ a_agent a = "system" /\
  a_taskId a = taskId /\ a_from a = Some from /\ a_to a = Some to.


(** The persist step of the operation that took the store from [w] to
    [w'] went through: the one document handed over was written. *)
Definition accepted (w w' : World) : Prop :=
  exists d reason,
    handed w' = handed w ++ [(d, reason)] /\
    safeWriter w d (tasksFile w) = Written.



(** The round trip in the specification's words: patching the task's
    status to "done" and then, at time [t2], back to "inbox" leaves
    exactly two "moved" records behind the earlier feed, the first one to
    "done", the second one from "done" to "inbox". *)
Definition round_trip_contract (taskId : string) (t2 : Z) (w : World)
    : Prop :=
  let w1 := at_time t2 (snd (updateTask taskId (set_status "done") w)) in
  let w2 := snd (updateTask taskId (set_status "inbox") w1) in
  exists d2 m1 m2 prior,
    last (handed w2) = Some (d2, "dashboard-update") /\
    activity d2 =
      slice_last MAX_ACTIVITY_ENTRIES (activity (view w) ++ [m1; m2]) /\
    is_moved taskId prior "done" m1 /\
    is_moved taskId "done" "inbox" m2.

(** An operation left the task store as it found it: same file, nothing
    handed to the safe writer, and [loadTasks] returns the same document. *)
Definition untouched (w w' : World) : Prop :=
  tasksFile w' = tasksFile w /\ handed w' = handed w /\ view w' = view w.

(** A feed of [n] records, numbered in the order they were appended. *)
Definition feed (n : nat) : list Activity :=
  map (fun k => mkActivity ("act-" +:+ pretty k) "log" "logged" "seven"
                           "task-1" None None None None (Z.of_nat k))
      (seq 0 n).

(** Scenario data: one task in the inbox, a writer that blocks every
    write, a writer that accepts every write, and a writer that guards
    against data loss: it blocks a document with fewer tasks than the
    file holds and writes any other. *)
Definition blocking : Writer := fun _ _ => Blocked "suspected data loss".
Definition accepting : Writer := fun _ _ => Written.
Definition guarding : Writer :=
  fun d f =>
    match f with
    | FileHolds old =>
        if length (tasks d) <? length (tasks old)
        then Blocked "suspected data loss" else Written
    | FileMissing | FileUnreadable => Written
    end.

Definition task1 : Task :=
  mkTask "task-1" "Calibrate sensors" "" "inbox" None "general" "medium"
         1000 1000 (Some []) None.

Definition doc1 : TasksDoc :=
  mkDoc "1.0" 1000 (columns (getDefaultTasks 0)) [task1] []
        (agents (getDefaultTasks 0)).

Definition world1 (writer : Writer) : World :=
  mkWorld 5000 (fun n => "r" +:+ pretty n) 0 (FileHolds doc1)
          (mkCache None 0) writer [] [].

(** A task that is done already, alone in its document. *)
Definition task0 : Task :=
  mkTask "task-0" "Repair holodeck" "" "done" (Some "belanna") "general"
         "low" 100 200 (Some []) None.

Definition world0 (writer : Writer) : World :=
  mkWorld 5000 (fun n => "r" +:+ pretty n) 0
          (FileHolds (mkDoc "1.0" 1000 (columns (getDefaultTasks 0)) [task0] []
                            (agents (getDefaultTasks 0))))
          (mkCache None 0) writer [] [].

End Tasks.

(* ================================================================== *)
(** ** Message store                                                    *)
(* ================================================================== *)

Module Messages.
Import Js.

Record Reply := mkReply {
  r_from : string; r_text : string; r_timestamp : Z }.

Record Message := mkMessage {
  m_id : string;
  m_from : string;
  m_to : string;
  m_type : string;
  m_subject : string;
  m_content : string;
  m_timestamp : Z;
  m_read : bool;
  m_status : string;
  m_taskId : option string;
  m_replies : option (list Reply);
  m_updatedAt : option Z }.

Record MessagesDoc := mkDoc {
  version : string; lastUpdated : Z; messages : list Message }.

Inductive FileState :=
| FileMissing
| FileUnreadable
| FileHolds (doc : MessagesDoc).

Record ReadCache := mkCache { data : option MessagesDoc; lastLoad : Z }.

(** [writable] says whether [writeFileSync] on [messages.json] goes
    through; [handed] lists the documents given to it. *)
Record World := mkWorld {
  now : Z;
  entropy : nat -> string;
  drawn : nat;
  messagesFile : FileState;
  messagesCache : ReadCache;
  writable : bool;
  handed : list MessagesDoc;
  console : list (string * string) }.

Definition MESSAGES_CACHE_TTL : Z := 2000.

Definition log (level message : string) (w : World) : World :=
  mkWorld (now w) (entropy w) (drawn w) (messagesFile w) (messagesCache w)
          (writable w) (handed w) (console w ++ [(level, message)]).

Definition with_cache (c : ReadCache) (w : World) : World :=
  mkWorld (now w) (entropy w) (drawn w) (messagesFile w) c
          (writable w) (handed w) (console w).

Definition generateId (prefix : string) (w : World) : string * World :=
  (prefix +:+ "-" +:+ pretty (now w) +:+ "-" +:+ entropy w (drawn w),
   mkWorld (now w) (entropy w) (S (drawn w)) (messagesFile w)
           (messagesCache w) (writable w) (handed w) (console w)).

Inductive Origin := CachedObject | FreshObject.

Definition commit (o : Origin) (d : MessagesDoc) (w : World) : World :=
  match o with
  | CachedObject =>
      with_cache (mkCache (Some d) (lastLoad (messagesCache w))) w
  | FreshObject => w
  end.

Definition readMessagesFile (w : World) : MessagesDoc * Origin * World :=
  match messagesFile w with
  | FileHolds d => (d, CachedObject, with_cache (mkCache (Some d) (now w)) w)
  | FileUnreadable =>
      (mkDoc "1.0" (now w) [], FreshObject,
       log "ERROR" "Error loading messages:" w)
  | FileMissing => (mkDoc "1.0" (now w) [], FreshObject, w)
  end.

Definition loadMessages (w : World) : MessagesDoc * Origin * World :=
  match data (messagesCache w) with
  | Some d =>
      if (now w - lastLoad (messagesCache w) <? MESSAGES_CACHE_TTL)%Z
      then (d, CachedObject, w)
      else readMessagesFile w
  | None => readMessagesFile w
  end.

Definition saveMessages (d : MessagesDoc) (o : Origin) (w : World)
    : bool * World :=
  let d' := mkDoc (version d) (now w) (messages d) in
  let w1 := commit o d' w in
  let w2 := mkWorld (now w1) (entropy w1) (drawn w1) (messagesFile w1)
                    (messagesCache w1) (writable w1) (handed w1 ++ [d'])
                    (console w1) in
  if writable w then
    (true,
     log "INFO" "Messages saved successfully"
       (mkWorld (now w2) (entropy w2) (drawn w2) (FileHolds d')
                (mkCache None (lastLoad (messagesCache w2)))
                (writable w2) (handed w2) (console w2)))
  else (false, log "ERROR" "Error saving messages:" w2).

(** [createMessage(from, to, subject, content = '', type = 'request',
    taskId = null)]; the defaults are applied by the caller of this
    definition.  [toLowerCase] is the engine's
    [String.prototype.toLowerCase]. *)
Definition createMessage (toLowerCase : string -> string)
    (from to subject content type : string)
    (taskId : option string) (w : World) : Message * World :=
  let '(d, o, w1) := loadMessages w in
  let '(mid, w2) := generateId "msg" w1 in
  let message :=
    mkMessage mid (toLowerCase from) (toLowerCase to) type subject content
              (now w1) false "pending" taskId None None in
  let d1 := mkDoc (version d) (lastUpdated d) (messages d ++ [message]) in
  let '(_, w3) := saveMessages d1 o (commit o d1 w2) in
  (message, log "INFO" "Message created:" w3).

Definition view (w : World) : MessagesDoc := fst (fst (loadMessages w)).

Definition hail : Message :=
  mkMessage "msg-1000-r0" "seven" "geordi" "request" "Warp core" ""
            1000 true "completed" None None None.

Definition world1 : World :=
  mkWorld 5000 (fun n => "r" +:+ pretty n) 0
          (FileHolds (mkDoc "1.0" 1000 [hail])) (mkCache None 0) true [] [].

End Messages.

(* ================================================================== *)
(** ** Broadcast hub: the debounced [broadcast]                         *)
(* ================================================================== *)

Module Hub.

Inductive ReadyState := CONNECTING | OPEN | CLOSING | CLOSED.

Record Client := mkClient { cid : nat; readyState : ReadyState }.

(** What [broadcast] is called with: always an object literal with a
    [type]; [body] is the JSON text of the rest.  The text put on the
    wire is [JSON.stringify] of the frame, so a send is recorded as the
    frame it serialises. *)
Record Frame := mkFrame { ftype : string; body : string }.

(** [broadcastTimeout] is the pending timer, kept as the instant it is
    due; [clients] is the connection set in iteration order; [outbox]
    lists every [client.send], oldest first. *)
Record State := mkState {
  broadcastQueue : option Frame;
  broadcastTimeout : option Z;
  clients : list Client;
  outbox : list (nat * Frame) }.

Definition DEBOUNCE : Z := 100.

Definition is_open (c : Client) : bool :=
  match readyState c with OPEN => true | _ => false end.

(** [function broadcast(data)] called at time [now]. *)
Definition broadcast (data : Frame) (now : Z) (st : State) : State :=
  mkState (Some data)
          (match broadcastTimeout st with
           | Some due => Some due
           | None => Some (now + DEBOUNCE)%Z
           end)
          (clients st) (outbox st).

(** The callback given to [setTimeout]. *)
Definition flush (st : State) : State :=
  match broadcastQueue st with
  | Some frame =>
      mkState None None (clients st)
              (outbox st ++
                 map (fun c => (cid c, frame))
                     (List.filter is_open (clients st)))
  | None => mkState None None (clients st) (outbox st)
  end.

(** The event loop reaching time [now]: a timer that is due runs. *)
Definition advance (now : Z) (st : State) : State :=
  match broadcastTimeout st with
  | Some due => if (due <=? now)%Z then flush st else st
  | None => st
  end.

(** A series of [broadcast] calls, each with the time it is made at. *)
Definition run (calls : list (Z * Frame)) (st : State) : State :=
  foldl (fun s call => broadcast (snd call) (fst call) (advance (fst call) s))
        st calls.

Definition sends_to (c : nat) (sent : list (nat * Frame)) : list Frame :=
  map snd (List.filter (fun s => Nat.eqb (fst s) c) sent).

(** The instant the timer in force during a burst that starts at [t0]
    is due: the pending one, or else the one the first call sets. *)
Definition deadline (st : State) (t0 : Z) : Z :=
  match broadcastTimeout st with
  | Some due => due
  | None => (t0 + DEBOUNCE)%Z
  end.

(** The debounce in the specification's words: of a burst of calls that
    all come within one window of 100 ms, every client of the connection
    set gets, once all timers have run, exactly one send if it is open,
    carrying the frame of the last call, and none otherwise. *)
Definition collapse_contract (st : State) (calls : list (Z * Frame))
    (tEnd : Z) : Prop :=
  match calls with
  | [] => True
  | (t0, f0) :: rest =>
      Forall (fun call => (t0 <= fst call < t0 + DEBOUNCE)%Z) rest ->
      (t0 + DEBOUNCE + DEBOUNCE <= tEnd)%Z ->
      forall c, In c (clients st) ->
        sends_to (cid c)
          (drop (length (outbox st)) (outbox (advance tEnd (run calls st))))
        = if is_open c then [snd (List.last calls (t0, f0))] else []
  end.

Definition bridge : State :=
  mkState None None
          [mkClient 1 OPEN; mkClient 2 CLOSING; mkClient 3 OPEN] [].

(** The bridge 60 ms after a [broadcast]: its timer is due at 40. *)
Definition busy : State :=
  broadcast (mkFrame "system_update" "{}") (-60) bridge.

Definition burst : list (Z * Frame) :=
  map (fun n => (Z.of_nat (5 * n), mkFrame "tasks_update" (pretty n)))
      (seq 0 10).

End Hub.

(* ================================================================== *)
(** ** Cache layer: what an invalidation leaves of an entry             *)
(* ================================================================== *)

Module CacheAux.
Import Js Cache.

(** [cache[key].data = null]: the value goes, fetch time and TTL stay. *)
Definition blank (e : entry) : entry := Entry JNull (lastUpdate e) (ttl e).

End CacheAux.

(* ================================================================== *)
(** ** Gateway uptime: [updateGatewayStatusAsync], [getGatewayUptime]   *)
(* ================================================================== *)

Module Gateway.
Import Js Cache.

(** What [openclaw gateway status --json] printed, as far as the callback
    reads it: [uptime] (in seconds) and [startedAt] (an instant), each
    possibly missing. *)
Record GwData := mkGw { gw_uptime : option Z; gw_startedAt : option Z }.

(** How the [exec] ends: with an error, with output that does not parse,
    or with a parsed object. *)
Inductive ExecResult :=
| ExecError
| ExecGarbage
| ExecParsed (gw : GwData).

(** [status] is [cache.gatewayStatus]; [inFlight] says whether
    [gatewayStatusPromise] is set; [launched] counts the [exec] calls
    started, which the code does not count itself. *)
Record state := mkState {
  status : entry;
  inFlight : bool;
  launched : nat }.

Definition boot : state := mkState (Entry JNull 0 60000) false 0.

(** The part of [updateGatewayStatusAsync] that runs at the call. *)
Definition updateGatewayStatusAsync (st : state) : state :=
  if inFlight st then st
  else mkState (status st) true (S (launched st)).

(** [if (gwData.uptime) ... else if (gwData.startedAt) ...] *)
Definition uptimeOf (gw : GwData) (now : Z) : value :=
  match gw_uptime gw with
  | Some u =>
      if truthy (JNum u) then JNum u
      else match gw_startedAt gw with
           | Some s => JNum ((now - s) / 1000)
           | None => JNull
           end
  | None =>
      match gw_startedAt gw with
      | Some s => JNum ((now - s) / 1000)
      | None => JNull
      end
  end.

(** The callback of the [exec], run at time [now]. *)
Definition completed (r : ExecResult) (now : Z) (st : state) : state :=
  match r with
  | ExecError | ExecGarbage => mkState (status st) false (launched st)
  | ExecParsed gw =>
      mkState (Entry (uptimeOf gw now) now (ttl (status st))) false
              (launched st)
  end.

(** [data !== null] *)
Definition not_null (v : value) : bool :=
  match v with JNull => false | _ => true end.

Definition getGatewayUptime (now : Z) (st : state) : value * state :=
  if not_null (data (status st))
     && (now - lastUpdate (status st) <? ttl (status st))%Z
  then (data (status st), st)
  else (data (status st), updateGatewayStatusAsync st).

(** [getGatewayUptime] called at each of the given times. *)
Fixpoint poll (times : list Z) (st : state) : list value * state :=
  match times with
  | [] => ([], st)
  | t :: rest =>
      let '(v, st1) := getGatewayUptime t st in
      let '(vs, st2) := poll rest st1 in
      (v :: vs, st2)
  end.

End Gateway.

(* ================================================================== *)
(** ** Task store: reading and deleting log entries                     *)
(* ================================================================== *)

Module TaskLog.
Import Js Tasks.


Definition with_logs (t : Task) (ls : list LogEntry) (now : Z) : Task :=
  mkTask (id t) (title t) (description t) (status t) (assignee t)
         (category t) (priority t) (createdAt t) now (comments t) (Some ls).

(** [deleteTaskLog(taskId, logId)]: the entry is cut out of the task's
    own list ([splice]), the task is stamped, the document saved. *)
Definition deleteTaskLog (taskId logId : string) (w : World)
    : option LogEntry * World :=
  let '(d, o, w1) := loadTasks w in
  match findTask taskId d with
  | None => (None, w1)
  | Some (taskIndex, task) =>
      match logs task with
      | None => (None, w1)
      | Some ls =>
          match list_find (fun l => l_id l = logId) ls with
          | None => (None, w1)
          | Some (logIndex, deleted) =>
              let task1 := with_logs task (delete logIndex ls) (now w1) in
              let d1 := with_tasks_activity (<[taskIndex := task1]> (tasks d))
                                            (activity d) d in
              let '(_, w2) :=
                saveTasks d1 o "dashboard-update" (commit o d1 w1) in
              (Some deleted, w2)
          end
      end
  end.

(** The record [deleteTask] pushes on the feed. *)
Definition deletedActivity (taskId : string) (deletedTask : Task)
    (w : World) : Activity :=
  mkActivity (drawnId "act" w) "task" "deleted" "system" taskId
             (Some (title deletedTask)) None None None (now w).

(** The task as [addTaskComment] leaves it. *)
Definition commented (t : Task) (c : Comment) (now : Z) : Task :=
  mkTask (id t) (title t) (description t) (status t) (assignee t)
         (category t) (priority t) (createdAt t) now
         (Some (default [] (comments t) ++ [c])) (logs t).

(** A document within the bounds [saveTasks] enforces. *)
Definition bounded (d : TasksDoc) : Prop :=
  length (activity d) <= MAX_ACTIVITY_ENTRIES /\
  Forall (fun t => forall ls, logs t = Some ls ->
                     length ls <= MAX_LOGS_PER_TASK) (tasks d).

Definition entry (k : nat) : LogEntry :=
  mkLogEntry ("log-" +:+ pretty k) "update" "geordi" "plasma flow nominal"
             (Z.of_nat k).

Definition task2 : Task :=
  mkTask "task-2" "Purge manifolds" "" "in_progress" (Some "geordi")
         "general" "high" 1000 1000 None (Some [entry 0; entry 1; entry 2]).

Definition doc2 : TasksDoc :=
  mkDoc "1.0" 1000 (columns (getDefaultTasks 0)) [task1; task2] []
        (agents (getDefaultTasks 0)).

Definition world2 (writer : Writer) : World :=
  mkWorld 5000 (fun n => "r" +:+ pretty n) 0 (FileHolds doc2)
          (mkCache None 0) writer [] [].


End TaskLog.

(* ================================================================== *)
(** ** Task store: archiving old completed tasks                        *)
(* ================================================================== *)

Module Archive.
Import Js Tasks.

(** The archive file of the day ([backups/tasks-archive-<date>.json]):
    absent, present but not parseable, or holding tasks. *)
Inductive ArchiveFile :=
| NoArchive
| BadArchive
| Archived (ts : list Task).

(** [canWrite] says whether [writeFileSync] on the archive file goes
    through; [notes] is what [archiveOldTasks] logs. *)
Record Shelf := mkShelf {
  today : ArchiveFile;
  canWrite : bool;
  notes : list (string * string) }.

(** [task.status === 'done' && task.updatedAt] and
    [new Date(task.updatedAt) < cutoffDate]; a task of this model always
    has its [updatedAt]. *)
Definition stale (cutoff : Z) (t : Task) : bool :=
  String.eqb (status t) "done" && (updatedAt t <? cutoff)%Z.

Definition with_tasks (ts : list Task) (d : TasksDoc) : TasksDoc :=
  mkDoc (version d) (lastUpdated d) (columns d) ts (activity d) (agents d).

Definition note (level message : string) (s : Shelf) : Shelf :=
  mkShelf (today s) (canWrite s) (notes s ++ [(level, message)]).

(** [archiveOldTasks(tasksData)].  [cutoff] is [cutoffDate]: the time of
    the call moved back [ARCHIVE_DONE_OLDER_THAN_DAYS] = 7 calendar days
    in local time.  Returns the count, the document as the call leaves
    it, and the shelf. *)
Definition archiveOldTasks (cutoff : Z) (d : TasksDoc) (s : Shelf)
    : nat * TasksDoc * Shelf :=
  let toArchive := List.filter (stale cutoff) (tasks d) in
  let toKeep := List.filter (fun t => negb (stale cutoff t)) (tasks d) in
  if (0 <? length toArchive) then
    match today s with
    | BadArchive => (0, d, note "ERROR" "Archive write failed:" s)
    | NoArchive =>
        if canWrite s
        then (length toArchive, with_tasks toKeep d,
              note "INFO" "Archived old tasks"
                (mkShelf (Archived ([] ++ toArchive)) (canWrite s) (notes s)))
        else (0, d, note "ERROR" "Archive write failed:" s)
    | Archived existing =>
        if canWrite s
        then (length toArchive, with_tasks toKeep d,
              note "INFO" "Archived old tasks"
                (mkShelf (Archived (existing ++ toArchive)) (canWrite s)
                         (notes s)))
        else (0, d, note "ERROR" "Archive write failed:" s)
    end
  else (length toArchive, with_tasks toKeep d, s).

(** The tasks the archive file holds, none when there is no file. *)
Definition shelved (s : Shelf) : list Task :=
  match today s with
  | Archived ts => ts
  | NoArchive | BadArchive => []
  end.

(** [POST /api/tasks/archive], without the byte sizes of its answer:
    archive, prune, save when either did something, then load again (for
    the size after).  Returns [archived] and [pruned]. *)
Definition archiveRoute (cutoff : Z) (w : World) (s : Shelf)
    : (nat * bool) * World * Shelf :=
  let '(d, o, w1) := loadTasks w in
  let '(archived, d1, s1) := archiveOldTasks cutoff d s in
  let '(d2, pruned) := pruneTaskData d1 in
  let w2 := commit o d2 w1 in
  let w3 :=
    if (0 <? archived) || pruned
    then snd (saveTasks d2 o "archive-cleanup" w2)
    else w2 in
  let '(_, _, w4) := loadTasks w3 in
  ((archived, pruned), w4, s1).

Definition old_done : Task :=
  mkTask "task-0" "Repair holodeck" "" "done" (Some "belanna") "general"
         "low" 100 200 (Some []) None.

Definition doc3 : TasksDoc :=
  mkDoc "1.0" 1000 (columns (getDefaultTasks 0)) [old_done; task1] []
        (agents (getDefaultTasks 0)).

Definition shelf0 : Shelf := mkShelf NoArchive true [].

End Archive.

(* ================================================================== *)
(** ** Task store: listing and statistics ([GET /api/tasks], [/stats])  *)
(* ================================================================== *)

Module TaskQuery.
Import Js Tasks.

(** The query string as the route reads it: [limit] and [offset] after
    [parseInt(...) || 0], the filters as given or absent. *)
Record Query := mkQuery {
  limit : Z;
  offset : Z;
  statusFilter : option string;
  assigneeFilter : option string;
  excludeDone : bool }.

Record Pagination := mkPagination {
  total : nat;
  pg_offset : Z;
  pg_limit : Z;
  hasMore : bool }.

(** The three [if (...) tasks = tasks.filter(...)] steps;
    [toLowerCase] is the engine's [String.prototype.toLowerCase]. *)
Definition applyFilters (toLowerCase : string -> string) (q : Query)
    (ts : list Task) : list Task :=
  let ts1 :=
    if truthy_str (statusFilter q)
    then List.filter
           (fun t => String.eqb (status t) (default "" (statusFilter q))) ts
    else ts in
  let ts2 :=
    if truthy_str (assigneeFilter q)
    then List.filter
           (fun t =>
              match assignee t with
              | Some a =>
                  String.eqb a (toLowerCase (default "" (assigneeFilter q)))
              | None => false
              end) ts1
    else ts1 in
  if excludeDone q
  then List.filter (fun t => negb (String.eqb (status t) "done")) ts2
  else ts2.

(** [tasks.slice(offset)] then [tasks.slice(0, limit)], each only when
    the number is positive. *)
Definition paginate (q : Query) (ts : list Task) : list Task :=
  let ts1 := if (0 <? offset q)%Z then drop (Z.to_nat (offset q)) ts else ts in
  if (0 <? limit q)%Z then take (Z.to_nat (limit q)) ts1 else ts1.

(** The task list of the answer and its [pagination] object.  The
    compact form and the lock data are put on each listed task
    afterwards ([tasks.map]) and change neither the list's length nor
    its order. *)
Definition listTasks (toLowerCase : string -> string) (q : Query)
    (d : TasksDoc) : list Task * Pagination :=
  let filtered := applyFilters toLowerCase q (tasks d) in
  let page := paginate q filtered in
  (page,
   mkPagination (length filtered) (offset q)
     (if (limit q =? 0)%Z then Z.of_nat (length filtered) else limit q)
     (offset q + Z.of_nat (length page) <? Z.of_nat (length filtered))%Z).

(** What a task must satisfy to be listed under [q]. *)
Definition matches (toLowerCase : string -> string) (q : Query) (t : Task)
    : Prop :=
  (forall s, statusFilter q = Some s -> s <> "" -> status t = s) /\
  (forall a, assigneeFilter q = Some a -> a <> "" ->
     assignee t = Some (toLowerCase a)) /\
  (excludeDone q = true -> status t <> "done").

(** The same as a test: one conjunct for each filter that is given. *)
Definition passes (toLowerCase : string -> string) (q : Query) (t : Task)
    : bool :=
  match statusFilter q with
  | Some s => String.eqb s "" || String.eqb (status t) s
  | None => true
  end
  && match assigneeFilter q with
     | Some a =>
         String.eqb a ""
         || match assignee t with
            | Some a0 => String.eqb a0 (toLowerCase a)
            | None => false
            end
     | None => true
     end
  && (negb (excludeDone q) || negb (String.eqb (status t) "done")).

(** A value of the [tasksByStatus] object: a count, or the text that
    [+ 1] makes of a value that is not a number. *)
Inductive Tally :=
| Count (n : nat)
| Text (s : string).

(** [tasksByStatus] starts as [{}], so a key it does not own is looked
    up on [Object.prototype]: these keys carry its functions. *)
Definition inheritedFunctions : list string :=
  ["constructor"; "hasOwnProperty"; "isPrototypeOf"; "propertyIsEnumerable";
   "toLocaleString"; "toString"; "valueOf"; "__defineGetter__";
   "__defineSetter__"; "__lookupGetter__"; "__lookupSetter__"].

(** What string concatenation makes of the value inherited under [key]:
    the source text of a built-in function as Node's engine prints it,
    or the text of the prototype object itself for [__proto__]; [None]
    when nothing is inherited. *)
Definition inheritedText (key : string) : option string :=
  if String.eqb key "constructor"
  then Some "function Object() { [native code] }"
  else if existsb (String.eqb key) inheritedFunctions
  then Some ("function " +:+ key +:+ "() { [native code] }")
  else if String.eqb key "__proto__" then Some "[object Object]"
  else None.

(** [(tasksByStatus[key] || 0) + 1] for the value found under [key]. *)
Definition bumped (key : string) (found : option Tally) : Tally :=
  match found with
  | Some (Count n) => Count (S n)
  | Some (Text s) => if truthy (JStr s) then Text (s +:+ "1") else Count 1
  | None =>
      match inheritedText key with
      | Some s => Text (s +:+ "1")
      | None => Count 1
      end
  end.

(** [tasksByStatus[t.status] = (tasksByStatus[t.status] || 0) + 1]; the
    map holds the object's own properties.  An assignment to [__proto__]
    goes to the inherited setter, which ignores a string. *)
Definition countStatus (m : gmap string Tally) (t : Task)
    : gmap string Tally :=
  if String.eqb (status t) "__proto__" then m
  else <[status t := bumped (status t) (m !! status t)]> m.

Definition tasksByStatus (d : TasksDoc) : gmap string Tally :=
  foldl countStatus ∅ (tasks d).

(** The number of tasks with a given status. *)
Definition withStatus (s : string) (d : TasksDoc) : nat :=
  length (List.filter (fun t => String.eqb (status t) s) (tasks d)).

(** [n] times the character 1. *)
Fixpoint ones (n : nat) : string :=
  match n with
  | O => ""
  | S k => ones k +:+ "1"
  end.

(** A document in which two tasks were patched to the status
    "constructor". *)
Definition odd_statuses : TasksDoc :=
  mkDoc "1.0" 1000 (columns (getDefaultTasks 0))
    [ merge task1 (set_status "constructor") 2000; task1;
      merge TaskLog.task2 (set_status "constructor") 3000 ]
    [] (agents (getDefaultTasks 0)).

(** [sum + (t.logs?.length || 0)] *)
Definition totalLogs (d : TasksDoc) : nat :=
  foldl (fun sum t => sum + length (default [] (logs t))) 0 (tasks d).

Definition totalComments (d : TasksDoc) : nat :=
  foldl (fun sum t => sum + length (default [] (comments t))) 0 (tasks d).

End TaskQuery.

(* ================================================================== *)
(** ** Message store: update, delete, reply, counts                     *)
(* ================================================================== *)

Module Mail.
Import Js Messages.

(** The partial object of [updateMessage] (the request body): for each
    key of a message, the key is absent or carries the new value.
    Nothing restricts the keys a caller sends; a key that is no field of
    a message is copied onto the message object as well, where nothing
    of the code embedded here reads it, and the record has no place for
    it. *)
Record MessagePatch := mkPatch {
  p_id : option string;
  p_from : option string;
  p_to : option string;
  p_type : option string;
  p_subject : option string;
  p_content : option string;
  p_timestamp : option Z;
  p_read : option bool;
  p_status : option string;
  p_taskId : option (option string);
  p_replies : option (option (list Reply));
  p_updatedAt : option (option Z) }.

Definition mark_read : MessagePatch :=
  mkPatch None None None None None None None (Some true) None None None None.

(** [{ ...message, ...updates, updatedAt: new Date().toISOString() }]:
    every key of the updates replaces the message's, and [updatedAt],
    set last, replaces whatever the updates carried for it. *)
Definition merge (m : Message) (u : MessagePatch) (now : Z) : Message :=
  mkMessage (default (m_id m) (p_id u))
            (default (m_from m) (p_from u))
            (default (m_to m) (p_to u))
            (default (m_type m) (p_type u))
            (default (m_subject m) (p_subject u))
            (default (m_content m) (p_content u))
            (default (m_timestamp m) (p_timestamp u))
            (default (m_read m) (p_read u))
            (default (m_status m) (p_status u))
            (default (m_taskId m) (p_taskId u))
            (default (m_replies m) (p_replies u))
            (Some now).

Definition findMessage (messageId : string) (d : MessagesDoc)
    : option (nat * Message) :=
  list_find (fun m => m_id m = messageId) (messages d).

Definition with_messages (ms : list Message) (d : MessagesDoc)
    : MessagesDoc :=
  mkDoc (version d) (lastUpdated d) ms.

Definition updateMessage (messageId : string) (updates : MessagePatch)
    (w : World) : option Message * World :=
  let '(d, o, w1) := loadMessages w in
  match findMessage messageId d with
  | None => (None, w1)
  | Some (msgIndex, m) =>
      let m1 := merge m updates (now w1) in
      let d1 := with_messages (<[msgIndex := m1]> (messages d)) d in
      let '(_, w2) := saveMessages d1 o (commit o d1 w1) in
      (Some m1, w2)
  end.

Definition deleteMessage (messageId : string) (w : World)
    : option Message * World :=
  let '(d, o, w1) := loadMessages w in
  match findMessage messageId d with
  | None => (None, w1)
  | Some (msgIndex, deleted) =>
      let d1 := with_messages (delete msgIndex (messages d)) d in
      let '(_, w2) := saveMessages d1 o (commit o d1 w1) in
      (Some deleted, w2)
  end.

(** The message as the reply route leaves it. *)
Definition replied (m : Message) (r : Reply) (complete : bool) (now : Z)
    : Message :=
  mkMessage (m_id m) (m_from m) (m_to m) (m_type m) (m_subject m)
            (m_content m) (m_timestamp m) (m_read m)
            (if complete then "completed" else "acknowledged")
            (m_taskId m)
            (Some (default [] (m_replies m) ++ [r])) (Some now).

(** [POST /api/messages/:id/reply] once the body is parsed and its text
    is known to be there, up to its log line: [from] is
    [body.from || 'system'], [complete] the truthiness of
    [body.complete].  The [broadcastMessages()] the route makes after
    saving only reads the store and queues a frame; it is not part of
    this definition. *)
Definition replyToMessage (messageId from text : string) (complete : bool)
    (w : World) : option Reply * World :=
  let '(d, o, w1) := loadMessages w in
  match findMessage messageId d with
  | None => (None, w1)
  | Some (msgIndex, m) =>
      let reply := mkReply from text (now w1) in
      let d1 := with_messages
                  (<[msgIndex := replied m reply complete (now w1)]>
                     (messages d)) d in
      let '(_, w2) := saveMessages d1 o (commit o d1 w1) in
      (Some reply, log "INFO" "Reply added to message:" w2)
  end.

Record Counts := mkCounts { total : nat; unread : nat; pending : nat }.

Definition countOf (ms : list Message) : Counts :=
  mkCounts (length ms)
           (length (List.filter (fun m => negb (m_read m)) ms))
           (length (List.filter (fun m => String.eqb (m_status m) "pending") ms)).

(** The [agents] array of [getMessageCounts]. *)
Definition agents : list string :=
  ["seven"; "geordi"; "uhura"; "spock"; "quark"; "data"; "belanna";
   "harry"; "icheb"; "tom"; "neelix"; "tuvok"; "doctor"].

Definition sentTo (agent : string) (ms : list Message) : list Message :=
  List.filter (fun m => String.eqb (m_to m) agent) ms.

Record MessageCounts := mkMessageCounts {
  overall : Counts;
  byAgent : list (string * Counts) }.

Definition getMessageCounts (w : World) : MessageCounts * World :=
  let '(d, o, w1) := loadMessages w in
  (mkMessageCounts
     (countOf (messages d))
     (map (fun agent => (agent, countOf (sentTo agent (messages d)))) agents),
   w1).

(** The clock moving on between two operations. *)
Definition at_time (t : Z) (w : World) : World :=
  mkWorld t (entropy w) (drawn w) (messagesFile w) (messagesCache w)
          (writable w) (handed w) (console w).

(** An operation left the message store as it found it. *)
Definition untouched (w w' : World) : Prop :=
  messagesFile w' = messagesFile w /\ handed w' = handed w /\
  view w' = view w.

(** The sum of the per-agent totals. *)
Definition addressed (c : MessageCounts) : nat :=
  foldr (fun entry sum => total (snd entry) + sum) 0 (byAgent c).

End Mail.

(* ================================================================== *)
(** ** Broadcast hub: keepalive ping                                    *)
(* ================================================================== *)

Module Keepalive.

(** A socket of [wss.clients] with its [isAlive] flag. *)
Record Socket := mkSocket { sid : nat; isAlive : bool }.

(** [sockets] is [wss.clients]; [clients] is the server's own set, by
    socket id; [pinged] and [terminated] list the [ws.ping()] and
    [ws.terminate()] calls, oldest first.  A terminated socket is closed
    and with that leaves [wss.clients]. *)
Record State := mkState {
  sockets : list Socket;
  clients : list nat;
  pinged : list nat;
  terminated : list nat }.

(** The end of the connection handler: [clients.add(ws)] and
    [ws.isAlive = true]. *)
Definition connect (s : nat) (st : State) : State :=
  mkState (sockets st ++ [mkSocket s true])
          (if existsb (Nat.eqb s) (clients st) then clients st
           else clients st ++ [s])
          (pinged st) (terminated st).

(** [ws.on('pong', () => { ws.isAlive = true; })] *)
Definition pong (s : nat) (st : State) : State :=
  mkState (map (fun ws => if Nat.eqb (sid ws) s then mkSocket (sid ws) true
                          else ws) (sockets st))
          (clients st) (pinged st) (terminated st).

(** One round of the 30 s interval over [wss.clients]. *)
Definition tick (st : State) : State :=
  let dead := List.filter (fun ws => negb (isAlive ws)) (sockets st) in
  let kept := List.filter isAlive (sockets st) in
  mkState (map (fun ws => mkSocket (sid ws) false) kept)
          (List.filter
             (fun c => negb (existsb (fun ws => Nat.eqb (sid ws) c) dead))
             (clients st))
          (pinged st ++ map sid kept)
          (terminated st ++ map sid dead).

Definition pongs (ids : list nat) (st : State) : State :=
  foldl (fun s i => pong i s) st ids.

Definition connected (s : nat) (st : State) : Prop :=
  In s (map sid (sockets st)).

Definition deck : State := connect 2 (connect 1 (mkState [] [] [] [])).

End Keepalive.

(* ================================================================== *)
(** ** Snapshot aggregator: routing sessions to the crew                *)
(* ================================================================== *)

Module Crew.
Import Js.

(** A session of the OpenClaw API, as far as [analyzeCrewActivity]
    reads it; [label] may be missing. *)
Record Session := mkSession {
  label : option string;
  s_status : string;
  startedAt : option Z;
  channel : option string }.

Record TaskInfo := mkInfo {
  i_label : option string;
  i_status : string;
  i_startedAt : option Z;
  i_channel : option string }.

(** What [getSessions] resolved to: [Array.isArray(sessions)] or not. *)
Inductive Payload :=
| NotAnArray
| Sessions (l : list Session).

(** [label.includes(word)] *)
Definition includes (label word : string) : bool :=
  match String.index 0 word label with
  | Some _ => true
  | None => false
  end.

(** The chain of [if / else if] over the lowercased label. *)
Definition owner (l : string) : string :=
  if includes l "spock" || includes l "research" then "spock"
  else if includes l "geordi" || includes l "engineer"
          || includes l "dashboard" || includes l "build" then "geordi"
  else if includes l "uhura" || includes l "email"
          || includes l "comms" || includes l "triage" then "uhura"
  else if includes l "quark" || includes l "trad"
          || includes l "crypto" || includes l "polymarket" then "quark"
  else if includes l "data" || includes l "qc" || includes l "review"
       then "data"
  else if includes l "belanna" || includes l "torres" then "belanna"
  else if includes l "harry" || includes l "kim" || includes l "ops"
       then "harry"
  else if includes l "icheb" || includes l "borg" then "icheb"
  else if includes l "tom" || includes l "paris" || includes l "risk"
       then "tom"
  else if includes l "neelix" || includes l "resource" then "neelix"
  else if includes l "tuvok" || includes l "security" then "tuvok"
  else if includes l "doctor" || includes l "emh" then "doctor"
  else "seven".

(** [(session.label || '').toLowerCase()] routed; [toLowerCase] is the
    engine's [String.prototype.toLowerCase]. *)
Definition ownerOf (toLowerCase : string -> string) (s : Session) : string :=
  owner (toLowerCase
           (match label s with
            | Some l => if String.eqb l "" then "" else l
            | None => ""
            end)).

Definition infoOf (s : Session) : TaskInfo :=
  mkInfo (label s) (s_status s) (startedAt s) (channel s).

(** The keys of the [crew] literal, in its order. *)
Definition names : list string :=
  ["seven"; "spock"; "geordi"; "uhura"; "quark"; "data"; "belanna";
   "harry"; "icheb"; "tom"; "neelix"; "tuvok"; "doctor"].

Record Member := mkMember { active : nat; tasks : list TaskInfo }.

Record Analysis := mkAnalysis {
  crew : list (string * Member);
  totalRunning : nat;
  totalSessions : nat }.

Definition empty : Analysis :=
  mkAnalysis (map (fun n => (n, mkMember 0 [])) names) 0 0.

(** [crew.<owner>.active++; crew.<owner>.tasks.push(taskInfo)] *)
Definition assign (who : string) (info : TaskInfo)
    (c : list (string * Member)) : list (string * Member) :=
  map (fun entry =>
         if String.eqb (fst entry) who
         then (fst entry,
               mkMember (S (active (snd entry))) (tasks (snd entry) ++ [info]))
         else entry) c.

Definition visit (toLowerCase : string -> string) (a : Analysis)
    (s : Session) : Analysis :=
  mkAnalysis (assign (ownerOf toLowerCase s) (infoOf s) (crew a))
             (if String.eqb (s_status s) "running"
              then S (totalRunning a) else totalRunning a)
             (S (totalSessions a)).

Definition analyzeCrewActivity (toLowerCase : string -> string)
    (sessions : Payload) : Analysis :=
  match sessions with
  | NotAnArray => empty
  | Sessions l => foldl (visit toLowerCase) empty l
  end.

(** The sessions routed to one crew member, in order. *)
Definition routedTo (toLowerCase : string -> string) (who : string)
    (l : list Session) : list Session :=
  List.filter (fun s => String.eqb (ownerOf toLowerCase s) who) l.

Definition headcount (a : Analysis) : nat :=
  foldr (fun entry sum => active (snd entry) + sum) 0 (crew a).

End Crew.

(* ================================================================== *)
(** * Theorems                                                          *)
(* ================================================================== *)

Section CacheTheorems.
Import Js Cache.
Context {W : Type}.
Implicit Types (st : state W) (fetch : fetchFn W).

Lemma getCached_hit key fetch now st e :
  cache st !! key = Some e ->
  live now e = true ->
  getCached key fetch now st = (Return (data e), st).
Proof.
  intros Hk Hl. unfold getCached. rewrite Hk. simpl. rewrite Hl.
  destruct st; reflexivity.
Qed.

Lemma getCached_entry key fetch now st v st1 :
  getCached key fetch now st = (Return v, st1) ->
  exists e, cache st1 !! key = Some e /\ data e = v /\
    (fetches st1 = fetches st \/
     (fetches st1 = S (fetches st) /\ lastUpdate e = now)).
Proof.
  unfold getCached.
  destruct (cache st !! key) as [e|] eqn:Hk; simpl.
  - destruct (live now e) eqn:Hl.
    + intros [= <- <-]. simpl. eauto.
    + destruct (fetch (world st)) as [[d|msg] w']; intros [= <- <-]; simpl.
      rewrite lookup_insert_eq. eexists; split; [reflexivity|]. simpl. auto.
  -       destruct (fetch (world st)) as [[d|msg] w']; intros [= <- <-]; simpl.
    rewrite lookup_insert_eq. eexists; split; [reflexivity|]. simpl. auto.
Qed.

End CacheTheorems.

(** C2, as worded, fails on the code.  The weather lookup returns [null]
    when the service is down; [getCached] stores it, but [entry.data &&]
    never regards a falsy value as cached, so a second call one
    millisecond later runs the lookup again: two invocations. *)
Lemma getCached_null_recomputed :
  ~ Cache.ttl_contract "weather" Cache.weather_down Cache.boot 1000 1001.
Proof.
  unfold Cache.ttl_contract. intros H.
  destruct H as [_ H]; [vm_compute; split; congruence|].
  vm_compute in H. lia.
Qed.

Section CacheAmended.
Import Js Cache.
Context {W : Type}.
Implicit Types (st : state W) (fetch : fetchFn W).

(** C2 (amended): if a [getCached] call returns a truthy value [v], a
    second call for the same key made less than the entry's TTL after the
    entry was last fetched, with nothing invalidating the key in between,
    returns the same [v] and leaves the state alone, so the compute
    function ran at most once over the two calls; and when the first call
    did compute, the entry's fetch time is the time of that call.  If
    the call returns a falsy value ([null], [undefined], [false], 0, the
    empty string), that value was computed by this call, and a second
    call computes again whatever its time: the falsy value is never
    served from the cache, and the compute function runs twice over the
    two calls. *)
Theorem getCached_ttl_truthy key fetch1 fetch2 t1 t2 st v st1 :
  getCached key fetch1 t1 st = (Return v, st1) ->
  (truthy v = true ->
   forall e,
     cache st1 !! key = Some e ->
     (t2 - lastUpdate e < ttl e)%Z ->
     getCached key fetch2 t2 st1 = (Return v, st1) /\
     fetches (snd (getCached key fetch2 t2 st1)) <= S (fetches st) /\
     (fetches st1 = S (fetches st) -> lastUpdate e = t1)) /\
  (truthy v = false ->
   fetches st1 = S (fetches st) /\
   fst (getCached key fetch2 t2 st1) = fst (fetch2 (world st1)) /\
   fetches (snd (getCached key fetch2 t2 st1)) = S (S (fetches st))).
Proof.
  intros H1. split.
  - intros Hv e He Ht.
    destruct (getCached_entry _ _ _ _ _ _ H1) as (e' & He' & Hd & Hf).
    rewrite He in He'. injection He' as <-. subst v.
    assert (Hl : live t2 e = true).
    { unfold live. rewrite Hv. simpl. apply Z.ltb_lt. exact Ht. }
    rewrite (getCached_hit key fetch2 t2 st1 e He Hl). simpl.
    split; [reflexivity|]. split.
    + destruct Hf as [->|[-> _]]; lia.
    + intros Hs. destruct Hf as [Hf|[_ Hf]]; [lia|exact Hf].
  - intros Hv.
    destruct (getCached_entry _ _ _ _ _ _ H1) as (e' & He' & Hd & _).
    assert (Hfirst : fetches st1 = S (fetches st)).
    { revert H1. unfold getCached.
      destruct (live t1 (default fresh_entry (cache st !! key))) eqn:Hl.
      - intros [= <- <-]. unfold live in Hl. rewrite Hv in Hl. discriminate Hl.
      - destruct (fetch1 (world st)) as [[d|msg] w']; intros [= <- <-];
          reflexivity. }
    assert (Hl2 : live t2 e' = false) by (unfold live; rewrite Hd, Hv; reflexivity).
    unfold getCached. rewrite He'. simpl default. rewrite Hl2.
    destruct (fetch2 (world st1)) as [[d|msg] w']; cbn [fst snd fetches];
      rewrite Hfirst; auto.
Qed.

(** C3 (amended): when the entry is not live and the compute function
    throws, [getCached] propagates that exception to its caller; the
    entry of the key keeps its previous value and fetch time, and the
    other keys are untouched. *)
Theorem getCached_throw_propagates key fetch now st msg w' :
  live now (default fresh_entry (cache st !! key)) = false ->
  fetch (world st) = (Throw msg, w') ->
  fst (getCached key fetch now st) = Throw msg /\
  (forall e, cache st !! key = Some e ->
     cache (snd (getCached key fetch now st)) !! key = Some e) /\
  (forall k, k <> key ->
     cache (snd (getCached key fetch now st)) !! k = cache st !! k).
Proof.
  intros Hl Hf. unfold getCached. rewrite Hl, Hf. simpl.
  split; [reflexivity|]. split.
  - intros e He. rewrite He. exact He.
  - intros k Hk. destruct (cache st !! key); [reflexivity|].
    apply lookup_insert_ne. congruence.
Qed.

End CacheAmended.

Lemma getCached_ttl_truthy_witness :
  let st1 := snd (Cache.getCached "systemStats" Cache.stats_ok 1000 Cache.boot) in
  let st2 := snd (Cache.getCached "weather" Cache.weather_down 1000 Cache.boot) in
  Cache.getCached "systemStats" Cache.stats_ok 15999 st1
    = (Js.Return Cache.stats_value, st1) /\
  Cache.fetches (snd (Cache.getCached "weather" Cache.weather_down 1001 st2))
    = 2.
Proof.
  split.
  - refine (proj1 (proj1 (getCached_ttl_truthy "systemStats" Cache.stats_ok
                     Cache.stats_ok 1000 15999 Cache.boot Cache.stats_value
                     _ _) _ (Cache.Entry Cache.stats_value 1000 15000) _ _));
      vm_compute; reflexivity.
  - refine (proj2 (proj2 (proj2 (getCached_ttl_truthy "weather"
                     Cache.weather_down Cache.weather_down 1000 1001
                     Cache.boot Js.JNull _ _) _)));
      vm_compute; reflexivity.
Defined.

(** C3, as worded, fails on the code: [getCached] has no handler around
    the compute call, so with the 15 s [systemStats] entry expired and
    the probe throwing, the caller gets the exception, not a value. *)
Lemma getCached_throw_not_absorbed :
  ~ Cache.no_throw_contract "systemStats" Cache.stats_broken 20000
      (snd (Cache.getCached "systemStats" Cache.stats_ok 1000 Cache.boot)).
Proof.
  intros H.
  destruct (H (Cache.Entry Cache.stats_value 1000 15000)
              "spawnSync ETIMEDOUT" 2) as [[v Hv] _];
    try (vm_compute; reflexivity).
  vm_compute in Hv. discriminate Hv.
Qed.

Lemma getCached_throw_propagates_witness :
  let st := snd (Cache.getCached "systemStats" Cache.stats_ok 1000 Cache.boot) in
  fst (Cache.getCached "systemStats" Cache.stats_broken 20000 st)
    = Js.Throw "spawnSync ETIMEDOUT" /\
  (forall e, Cache.cache st !! "systemStats" = Some e ->
     Cache.cache (snd (Cache.getCached "systemStats" Cache.stats_broken 20000 st))
       !! "systemStats" = Some e) /\
  (forall k, k <> "systemStats" ->
     Cache.cache (snd (Cache.getCached "systemStats" Cache.stats_broken 20000 st))
       !! k = Cache.cache st !! k).
Proof.
  refine (getCached_throw_propagates "systemStats" Cache.stats_broken 20000
            _ "spawnSync ETIMEDOUT" 2 _ _); vm_compute; reflexivity.
Defined.

Section StreakTheorems.
Import Quark.

Lemma same_result_spec r ty : same_result r ty = true <-> r = Some ty.
Proof.
  unfold same_result. destruct r as [s|].
  - rewrite String.eqb_eq. split; congruence.
  - split; discriminate.
Qed.

Lemma streak_loop_run history n r cur run :
  history = take n history ++ run ->
  run <> [] -> length run = cur ->
  Forall (fun t => result t = Some r) run ->
  trailing_run history (streak_loop history n (Some r) cur).
Proof.
  assert (Hshape : forall s : streak,
            (exists older run',
               history = older ++ run' /\ run' <> [] /\
               length run' = count s /\
               Forall (fun t => result t = type s) run' /\
               (forall older' t, older = older' ++ [t] ->
                  result t <> type s)) ->
            trailing_run history s).
  { intros s (older & run' & Hh & Hne & Hrest). unfold trailing_run.
    destruct history as [|x h].
    - destruct older; destruct run'; try discriminate Hh. contradiction.
    - exists older, run'. auto. }
  revert cur run. induction n as [|i IH]; intros cur run Hh Hne Hlen Hall.
  - apply Hshape. simpl. exists [], run.
    rewrite take_0 in Hh. repeat split; auto.
    intros older' t Ht. destruct older'; discriminate Ht.
  - simpl. destruct (history !! i) as [t|] eqn:Hi.
    + destruct (same_result (result t) r) eqn:Heq.
      * apply same_result_spec in Heq.
        apply (IH (S cur) (t :: run)).
        -- rewrite (take_S_r _ _ _ Hi) in Hh. rewrite <- app_assoc in Hh.
           exact Hh.
        -- discriminate.
        -- simpl. congruence.
        -- constructor; assumption.
      * apply Hshape. simpl. exists (take (S i) history), run.
        repeat split; auto.
        intros older' x Hx. rewrite (take_S_r _ _ _ Hi) in Hx.
        apply app_inj_tail in Hx. destruct Hx as [_ <-].
        intros Hr. apply same_result_spec in Hr. congruence.
    + apply Hshape. simpl. exists (take (S i) history), run.
      repeat split; auto.
      intros older' x Hx. apply lookup_ge_None in Hi.
      rewrite take_ge in Hx by lia.
      assert (Hl : length history = length (older' ++ [x])) by congruence.
      rewrite length_app in Hl. simpl in Hl.
      rewrite Hh in Hl at 1. rewrite length_app in Hl.
      rewrite take_ge in Hl by lia. rewrite Hx in Hl.
      rewrite length_app in Hl. simpl in Hl.
      destruct run; [congruence|simpl in Hl; lia].
Qed.

(** The loop only reads the trades below its index. *)
Lemma streak_loop_prefix history extra n : forall streakType cur,
  n <= length history ->
  streak_loop (history ++ extra) n streakType cur
    = streak_loop history n streakType cur.
Proof.
  induction n as [|i IH]; intros streakType cur Hn; [reflexivity|].
  simpl. rewrite lookup_app_l by lia.
  destruct (history !! i) as [t|]; [|reflexivity].
  destruct streakType as [ty|]; [|apply IH; lia].
  destruct (same_result (result t) ty); [apply IH; lia|reflexivity].
Qed.

(** With the marker still [null], the count so far is forgotten at the
    next trade. *)
Lemma streak_loop_restart history n cur cur' :
  0 < n <= length history ->
  streak_loop history n None cur = streak_loop history n None cur'.
Proof.
  intros [Hpos Hle]. destruct n as [|i]; [lia|]. simpl.
  destruct (history !! i) as [t|] eqn:Hi; [reflexivity|].
  apply lookup_ge_None in Hi. lia.
Qed.

Lemma streak_loop_unsettled history nulls k : forall cur,
  history <> [] ->
  Forall unsettled nulls ->
  k <= length nulls ->
  streak_loop (history ++ nulls) (length history + k) None cur
    = streak_loop (history ++ nulls) (length history) None 0.
Proof.
  induction k as [|k IH]; intros cur Hne Hall Hk.
  - rewrite Nat.add_0_r. apply streak_loop_restart.
    rewrite length_app. destruct history; [contradiction|simpl; lia].
  - replace (length history + S k) with (S (length history + k)) by lia.
    simpl. rewrite lookup_app_r by lia.
    replace (length history + k - length history) with k by lia.
    destruct (nulls !! k) as [t|] eqn:Ht.
    + assert (Hnull : result t = None).
      { rewrite Forall_forall in Hall. apply Hall.
        eapply list_elem_of_lookup_2. exact Ht. }
      rewrite Hnull. apply IH; auto. lia.
    + apply lookup_ge_None in Ht. lia.
Qed.

(** C7 (amended): for every trade history whose most recent trade has a
    result, the computed streak is the maximal run of equal results at
    the end of the history, with its length and its result; the three
    histories of the specification give count 1 of "loss", count 2 of
    "win", and count 0 of [null].  Trades without a result ([null]) at
    the end of a history are passed over: the streak is that of the
    history before them, and count 1 of [null] when nothing comes before
    them. *)
Theorem computeStreak_trailing_run :
  (forall history t,
     result t <> None ->
     trailing_run (history ++ [t]) (computeStreak (history ++ [t]))) /\
  computeStreak [win; win; loss] = Streak 1 (Some "loss") /\
  computeStreak [win; win] = Streak 2 (Some "win") /\
  computeStreak [] = Streak 0 None /\
  (forall history nulls,
     history <> [] -> Forall unsettled nulls ->
     computeStreak (history ++ nulls) = computeStreak history) /\
  (forall nulls,
     nulls <> [] -> Forall unsettled nulls ->
     computeStreak nulls = Streak 1 None).
Proof.
  assert (Hskip : forall history nulls,
            history <> [] -> Forall unsettled nulls ->
            computeStreak (history ++ nulls) = computeStreak history).
  { intros history nulls Hne Hall. unfold computeStreak.
    rewrite length_app.
    rewrite (streak_loop_unsettled history nulls (length nulls) 0 Hne Hall)
      by lia.
    apply streak_loop_prefix. lia. }
  split; [|split; [reflexivity|split; [reflexivity|split; [reflexivity|]]]].
  - intros history t Ht. unfold computeStreak.
    rewrite length_app. cbn [length].
    replace (length history + 1) with (S (length history)) by lia.
    simpl. rewrite lookup_app_r by lia. rewrite Nat.sub_diag.
    change ([t] !! 0) with (Some t). cbv beta iota.
    destruct (result t) as [r|] eqn:Hr; [|contradiction].
    apply (streak_loop_run (history ++ [t]) (length history) r 1 [t]).
    + rewrite take_app_length. reflexivity.
    + discriminate.
    + reflexivity.
    + constructor; [exact Hr|constructor].
  - split; [exact Hskip|].
    intros nulls Hne Hall. destruct nulls as [|x rest]; [contradiction|].
    apply Forall_cons in Hall. destruct Hall as [Hx Hrest].
    change (x :: rest) with ([x] ++ rest).
    rewrite Hskip by (auto; discriminate).
    unfold computeStreak. simpl. rewrite Hx. reflexivity.
Qed.

End StreakTheorems.

(** C7, as worded, fails on the code: the loop takes [null] for "not
    started", so a most recent trade whose result is [null] is passed
    over and the two wins before it are reported as the streak, although
    the run at the end of that history is the one trade without a
    result. *)
Lemma null_result_restarts_streak :
  Quark.computeStreak [Quark.win; Quark.win; Quark.open_trade]
    = Quark.Streak 2 (Some "win") /\
  ~ Quark.trailing_run [Quark.win; Quark.win; Quark.open_trade]
      (Quark.computeStreak [Quark.win; Quark.win; Quark.open_trade]).
Proof.
  split; [reflexivity|].
  intros (older & run & Hh & Hne & _ & Hall & _).
  destruct (exists_last Hne) as (front & x & ->).
  rewrite app_assoc in Hh.
  change [Quark.win; Quark.win; Quark.open_trade]
    with ([Quark.win; Quark.win] ++ [Quark.open_trade]) in Hh.
  apply app_inj_tail in Hh. destruct Hh as [_ <-].
  apply Forall_app in Hall. destruct Hall as [_ Hx].
  apply Forall_cons in Hx. destruct Hx as [Hx _]. discriminate Hx.
Qed.

Lemma computeStreak_trailing_run_witness :
  Quark.trailing_run [Quark.loss; Quark.win; Quark.win]
    (Quark.computeStreak [Quark.loss; Quark.win; Quark.win]).
Proof.
  apply (proj1 computeStreak_trailing_run [Quark.loss; Quark.win] Quark.win).
  discriminate.
Defined.

Section TaskStoreLemmas.
Import Js Tasks.

Lemma slice_last_length {A} (n : nat) (l : list A) :
  n <= length l -> length (slice_last n l) = n.
Proof. intros H. unfold slice_last. rewrite length_drop. lia. Qed.

Lemma slice_last_short {A} (n : nat) (l : list A) :
  length l <= n -> slice_last n l = l.
Proof.
  intros H. unfold slice_last. replace (length l - n) with 0 by lia.
  reflexivity.
Qed.

Lemma slice_last_suffix {A} (n : nat) (l : list A) :
  take (length l - n) l ++ slice_last n l = l.
Proof. unfold slice_last. apply take_drop. Qed.

Lemma slice_last_app {A} (n : nat) (l extra : list A) :
  slice_last n (slice_last n l ++ extra) = slice_last n (l ++ extra).
Proof.
  unfold slice_last. rewrite !length_app, length_drop.
  destruct (Nat.le_gt_cases (length l) n) as [Hle|Hgt].
  - replace (length l - n) with 0 by lia. simpl.
    replace (length l - 0) with (length l) by lia. reflexivity.
  - replace (length l - (length l - n)) with n by lia.
    rewrite !drop_app.
    rewrite length_drop.
    replace (length l - (length l - n)) with n by lia.
    rewrite drop_drop.
    replace (length l - n + (n + length extra - n))
      with (length l + length extra - n) by lia.
    replace (n + length extra - n - n)
      with (length l + length extra - n - length l) by lia.
    reflexivity.
Qed.

Lemma prune_activity d :
  activity (fst (pruneTaskData d))
    = slice_last MAX_ACTIVITY_ENTRIES (activity d).
Proof.
  unfold pruneTaskData. cbn [fst activity].
  destruct (MAX_ACTIVITY_ENTRIES <? length (activity d)) eqn:H; cbn [fst].
  - reflexivity.
  - apply Nat.ltb_ge in H. symmetry. apply slice_last_short. exact H.
Qed.

Lemma prune_tasks d :
  tasks (fst (pruneTaskData d)) = map (fun t => fst (pruneLogs t)) (tasks d).
Proof. unfold pruneTaskData. cbn [fst tasks]. apply map_map. Qed.

Lemma pruneLogs_logs t :
  logs (fst (pruneLogs t)) = slice_last MAX_LOGS_PER_TASK <$> logs t.
Proof.
  unfold pruneLogs. destruct (logs t) as [ls|] eqn:Hl; [|simpl; auto].
  destruct (MAX_LOGS_PER_TASK <? length ls) eqn:H; simpl.
  - reflexivity.
  - rewrite Hl. simpl. apply Nat.ltb_ge in H.
    rewrite slice_last_short by exact H. reflexivity.
Qed.

Lemma pruneLogs_fields t :
  let t' := fst (pruneLogs t) in
  id t' = id t /\ title t' = title t /\ status t' = status t /\
  assignee t' = assignee t /\ comments t' = comments t.
Proof.
  unfold pruneLogs. destruct (logs t) as [ls|]; [|simpl; auto 6].
  destruct (MAX_LOGS_PER_TASK <? length ls); simpl; auto 6.
Qed.

Lemma saveTasks_handed d o reason w :
  handed (snd (saveTasks d o reason w))
    = handed w ++ [(fst (pruneTaskData d), reason)].
Proof.
  unfold saveTasks.
  destruct (safeWriter w _ _); destruct o; reflexivity.
Qed.

End TaskStoreLemmas.

Section PruneTheorems.
Import Tasks.

(** C8: when the activity feed is longer than 500 entries,
    [pruneTaskData] leaves exactly its 500 newest entries, in their
    order (the feed is the dropped older entries followed by the kept
    ones); every task's log list is cut to its 50 newest entries in the
    same way; and this pruned document is the one [saveTasks] hands to
    the safe writer. *)
Theorem pruneTaskData_keeps_newest d :
  MAX_ACTIVITY_ENTRIES < length (activity d) ->
  let d' := fst (pruneTaskData d) in
  length (activity d') = 500 /\
  activity d = take (length (activity d) - 500) (activity d) ++ activity d' /\
  snd (pruneTaskData d) = true /\
  length (tasks d') = length (tasks d) /\
  (forall k t ls,
     tasks d !! k = Some t -> logs t = Some ls ->
     exists t', tasks d' !! k = Some t' /\
       logs t' = Some (drop (length ls - 50) ls) /\
       length (drop (length ls - 50) ls) = Nat.min 50 (length ls)) /\
  (forall o reason w,
     handed (snd (saveTasks d o reason w)) = handed w ++ [(d', reason)]).
Proof.
  intros Hlen d'. subst d'. rewrite prune_activity.
  split; [apply slice_last_length; unfold MAX_ACTIVITY_ENTRIES in *; lia|].
  split; [symmetry; apply (slice_last_suffix MAX_ACTIVITY_ENTRIES)|].
  split.
  { unfold pruneTaskData. cbn [snd fst].
    apply Nat.ltb_lt in Hlen. rewrite Hlen. reflexivity. }
  split; [rewrite prune_tasks; apply length_map|].
  split.
  - intros k t ls Hk Hl. exists (fst (pruneLogs t)). split.
    + rewrite prune_tasks, list_lookup_fmap, Hk. reflexivity.
    + rewrite pruneLogs_logs, Hl. split; [reflexivity|].
      rewrite length_drop. lia.
  - intros o reason w. apply saveTasks_handed.
Qed.

End PruneTheorems.

Lemma pruneTaskData_keeps_newest_witness :
  let d := Tasks.with_tasks_activity [Tasks.task1] (Tasks.feed 600) Tasks.doc1 in
  length (Tasks.activity (fst (Tasks.pruneTaskData d))) = 500 /\
  Tasks.activity (fst (Tasks.pruneTaskData d)) = drop 100 (Tasks.feed 600).
Proof.
  pose proof (pruneTaskData_keeps_newest
    (Tasks.with_tasks_activity [Tasks.task1] (Tasks.feed 600) Tasks.doc1)) as H.
  simpl. split.
  - apply H. vm_compute. lia.
  - vm_compute. reflexivity.
Defined.

Section TaskStoreTheorems.
Import Js Tasks.

Lemma view_log lvl msg w : view (log lvl msg w) = view w.
Proof.
  unfold view, loadTasks, readTasksFile.
  destruct w as [t e n f [[c|] l] sw h co]; cbn;
    [destruct (t - l <? TASKS_CACHE_TTL)%Z|]; destruct f; reflexivity.
Qed.


Lemma view_uncached w t :
  data (tasksCache w) = None ->
  view (at_time t w) = disk_view t (tasksFile w).
Proof.
  intros H. unfold view, loadTasks, readTasksFile.
  destruct w as [t0 e n f [c l] sw h co]; cbn in *. subst c.
  destruct f; reflexivity.
Qed.


Lemma saveTasks_accepted d o reason w :
  safeWriter w (fst (pruneTaskData d)) (tasksFile w) = Written ->
  fst (saveTasks d o reason w) = true /\
  tasksFile (snd (saveTasks d o reason w)) = FileHolds (fst (pruneTaskData d)) /\
  data (tasksCache (snd (saveTasks d o reason w))) = None /\
  safeWriter (snd (saveTasks d o reason w)) = safeWriter w.
Proof.
  intros H. unfold saveTasks. rewrite H. destruct o; cbn; auto.
Qed.


(** What [loadTasks] returns and what it leaves behind. *)
Lemma loadTasks_spec w :
  exists o w1,
    loadTasks w = (view w, o, w1) /\
    now w1 = now w /\ entropy w1 = entropy w /\ drawn w1 = drawn w /\
    tasksFile w1 = tasksFile w /\ safeWriter w1 = safeWriter w /\
    handed w1 = handed w /\
    (forall lvl msg, view (log lvl msg w1) = view w) /\
    (o = FreshObject -> tasks (view w) = []).
Proof.
  unfold view, loadTasks.
  destruct w as [t e n f [[c|] l] sw h co]; cbn [data tasksCache lastLoad now].
  1: destruct (t - l <? TASKS_CACHE_TTL)%Z eqn:Hl.
  1: { eexists _, _. split; [reflexivity|]. cbn.
       rewrite Hl. repeat split; auto. discriminate. }
  all: unfold readTasksFile; cbn [tasksFile]; destruct f as [| |d];
    eexists _, _; (split; [reflexivity|]); cbn;
    rewrite ?Hl, ?Z.sub_diag; cbn; repeat split; auto; discriminate.
Qed.


(** The default document has no task: a task that is found lives in the
    object the read cache holds. *)
Lemma found_in_cached_object taskId (d : TasksDoc) (o : Origin) taskIndex t :
  findTask taskId d = Some (taskIndex, t) ->
  (o = FreshObject -> tasks d = []) ->
  o = CachedObject.
Proof.
  intros Hfind Hfresh. destruct o; [reflexivity|].
  unfold findTask in Hfind. rewrite (Hfresh eq_refl) in Hfind.
  discriminate Hfind.
Qed.

(** [updateTask] on a task that is found: what it returns, and the call
    of [saveTasks] it ends with. *)
Lemma updateTask_found taskId updates w taskIndex oldTask :
  findTask taskId (view w) = Some (taskIndex, oldTask) ->
  exists o w2,
    updateTask taskId updates w
      = (Some (fst (pruneLogs (merge oldTask updates (now w)))),
         snd (saveTasks (updated_doc taskId updates w taskIndex oldTask) o
                        "dashboard-update" w2)) /\
    tasksFile w2 = tasksFile w /\ safeWriter w2 = safeWriter w /\
    handed w2 = handed w /\ o = CachedObject.
Proof.
  intros Hfind.
  destruct (loadTasks_spec w)
    as (o & w1 & Hload & Hnow & Hent & Hdrawn & Hfile & Hsw & Hhanded & _
        & Hfresh).
  assert (Ho : o = CachedObject) by (apply (found_in_cached_object _ _ _ _ _ Hfind Hfresh)).
  unfold updateTask, updated_doc, recorded_move, drawnId.
  rewrite Hload, Hfind, Hnow.
  destruct (statusChange updates oldTask) as [to|]; cbn [generateId].
  - rewrite Hnow, Hent, Hdrawn.
    match goal with |- context [saveTasks ?d ?o ?r ?w'] =>
      destruct (saveTasks d o r w') as [ok w3] eqn:Hsave;
      exists o, w'; rewrite Hsave end.
    rewrite app_nil_r || idtac.
    split; [reflexivity|]. destruct o; cbn; auto.
  - rewrite app_nil_r.
    match goal with |- context [saveTasks ?d ?o ?r ?w'] =>
      destruct (saveTasks d o r w') as [ok w3] eqn:Hsave;
      exists o, w'; rewrite Hsave end.
    split; [reflexivity|]. destruct o; cbn; auto.
Qed.

Lemma findTask_absent taskId d :
  (forall t, In t (tasks d) -> id t <> taskId) -> findTask taskId d = None.
Proof.
  intros H. unfold findTask. apply list_find_None.
  apply Forall_forall. intros t Ht. apply H. apply list_elem_of_In. exact Ht.
Qed.

(** C4: for a task id that no task of the document carries,
    [updateTask], [deleteTask] and [addTaskComment] each return [null],
    and each leaves the store as it was: the file is the same, nothing
    is handed to the safe writer, and [loadTasks] returns the same
    document (same tasks, activity and timestamps). *)
Theorem missing_task_untouched taskId updates author text w :
  (forall t, In t (tasks (view w)) -> id t <> taskId) ->
  (fst (updateTask taskId updates w) = None /\
   untouched w (snd (updateTask taskId updates w))) /\
  (fst (deleteTask taskId w) = None /\
   untouched w (snd (deleteTask taskId w))) /\
  (fst (addTaskComment taskId author text w) = None /\
   untouched w (snd (addTaskComment taskId author text w))).
Proof.
  intros Habs. apply findTask_absent in Habs.
  destruct (loadTasks_spec w)
    as (o & w1 & Hload & _ & _ & _ & Hfile & _ & Hhanded & Hview & _).
  unfold updateTask, deleteTask, addTaskComment, untouched.
  rewrite Hload, Habs. cbn [fst snd].
  pose proof (Hview "WARN" "x") as Hv1. rewrite view_log in Hv1.
  repeat split; auto; rewrite ?view_log; auto.
Qed.

Lemma statusChange_nonEmpty updates oldTask :
  statusChange updates oldTask = nonEmptyStatusDiffers updates oldTask.
Proof.
  unfold statusChange, nonEmptyStatusDiffers.
  destruct (p_status updates) as [s|]; [|reflexivity]. cbn [truthy].
  destruct (String.eqb s ""); destruct (String.eqb s (status oldTask));
    reflexivity.
Qed.

Lemma findTask_after_update taskId d taskIndex oldTask newTask :
  findTask taskId d = Some (taskIndex, oldTask) ->
  id newTask = taskId ->
  list_find (fun t => id t = taskId)
    (map (fun t => fst (pruneLogs t)) (<[taskIndex := newTask]> (tasks d)))
  = Some (taskIndex, fst (pruneLogs newTask)).
Proof.
  unfold findTask. intros Hfind Hid.
  apply list_find_Some in Hfind. destruct Hfind as (Hk & _ & Hfirst).
  apply list_find_Some. split; [|split].
  - change (map ?f ?l) with (f <$> l). rewrite list_lookup_fmap.
    rewrite list_lookup_insert_eq; [reflexivity|].
    eapply lookup_lt_Some; eauto.
  - destruct (pruneLogs_fields newTask) as [-> _]. exact Hid.
  - intros j y Hj Hlt.
    change (map ?f ?l) with (f <$> l) in Hj. rewrite list_lookup_fmap in Hj.
    rewrite list_lookup_insert_ne in Hj by lia.
    destruct (tasks d !! j) as [y0|] eqn:Hy0; [|discriminate].
    injection Hj as <-. destruct (pruneLogs_fields y0) as [-> _].
    eapply Hfirst; eauto.
Qed.






Lemma accepted_save d o reason w2 w :
  tasksFile w2 = tasksFile w -> safeWriter w2 = safeWriter w ->
  handed w2 = handed w ->
  accepted w (snd (saveTasks d o reason w2)) ->
  safeWriter w2 (fst (pruneTaskData d)) (tasksFile w2) = Written.
Proof.
  intros Hfile Hsw Hh (d0 & r0 & Hd0 & Hyes).
  rewrite saveTasks_handed, Hh in Hd0.
  apply app_inv_head in Hd0. injection Hd0 as <- <-.
  rewrite Hsw, Hfile. exact Hyes.
Qed.




(** C5 (amended): for an existing task, [updateTask] appends exactly one
    "moved" record, from the prior status to the new one, when the
    updates carry a non-empty status that differs from the prior one,
    and appends nothing otherwise (an empty status is merged into the
    task without a record).  Consequently, for a task that is not
    "done" already and a first write that the safe writer lets through,
    patching the task to "done" and then to "inbox" leaves the feed with
    exactly two new records behind the earlier ones: from the prior
    status to "done", then from "done" to "inbox". *)
Theorem updateTask_records_moves taskId w :
  (forall updates, records_move_when nonEmptyStatusDiffers taskId updates w) /\
  (forall t2 taskIndex oldTask,
     findTask taskId (view w) = Some (taskIndex, oldTask) ->
     status oldTask <> "done" ->
     accepted w (snd (updateTask taskId (set_status "done") w)) ->
     let w1 := at_time t2 (snd (updateTask taskId (set_status "done") w)) in
     let w2 := snd (updateTask taskId (set_status "inbox") w1) in
     exists d2 m1 m2,
       last (handed w2) = Some (d2, "dashboard-update") /\
       activity d2 =
         slice_last MAX_ACTIVITY_ENTRIES (activity (view w) ++ [m1; m2]) /\
       is_moved taskId (status oldTask) "done" m1 /\
       is_moved taskId "done" "inbox" m2).
Proof.
  split.
  - intros updates taskIndex oldTask Hfind.
    destruct (updateTask_found taskId updates w taskIndex oldTask Hfind)
      as (o & w2 & Hupd & _ & _ & Hhanded & _).
    rewrite Hupd. cbn [snd]. rewrite saveTasks_handed, Hhanded.
    eexists. split; [reflexivity|].
    rewrite prune_activity. unfold updated_doc, recorded_move.
    cbn [activity with_tasks_activity].
    rewrite statusChange_nonEmpty.
    destruct (nonEmptyStatusDiffers updates oldTask).
    + eexists. reflexivity.
    + rewrite app_nil_r. reflexivity.
  - intros t2 taskIndex oldTask Hfind Hst Hacc w1 w2.
    destruct (updateTask_found taskId (set_status "done") w taskIndex oldTask
                Hfind) as (o & wa & Hupd & Hfile & Hsw & Hh & _).
    set (da := updated_doc taskId (set_status "done") w taskIndex oldTask)
      in *.
    assert (Hok : safeWriter wa (fst (pruneTaskData da)) (tasksFile wa)
                  = Written).
    { apply (accepted_save da o "dashboard-update" wa w Hfile Hsw Hh).
      rewrite Hupd in Hacc. exact Hacc. }
    destruct (saveTasks_accepted da o "dashboard-update" wa Hok)
      as (_ & Hf1 & Hc1 & Hsw1).
    assert (Hview1 : view w1 = fst (pruneTaskData da)).
    { subst w1. rewrite Hupd. cbn [snd].
      rewrite view_uncached by exact Hc1. rewrite Hf1. reflexivity. }
    set (old2 := fst (pruneLogs (merge oldTask (set_status "done") (now w)))).
    assert (Hfind1 : findTask taskId (view w1) = Some (taskIndex, old2)).
    { rewrite Hview1. unfold findTask. rewrite prune_tasks.
      subst da. unfold updated_doc. cbn [tasks with_tasks_activity].
      apply (findTask_after_update taskId (view w) taskIndex oldTask);
        [exact Hfind|].
      unfold merge, set_status. cbn.
      apply list_find_Some in Hfind. tauto. }
    destruct (updateTask_found taskId (set_status "inbox") w1 taskIndex old2
                Hfind1) as (o2 & wb & Hupd2 & _).
    subst w2. rewrite Hupd2. cbn [snd]. rewrite saveTasks_handed, last_snoc.
    assert (Hst2 : status old2 = "done").
    { subst old2. destruct (pruneLogs_fields
        (merge oldTask (set_status "done") (now w))) as (_ & _ & -> & _).
      reflexivity. }
    assert (Hne : String.eqb "done" (status oldTask) = false).
    { apply String.eqb_neq. congruence. }
    eexists _, _, _. split; [reflexivity|].
    rewrite prune_activity. unfold updated_doc at 1.
    cbn [activity with_tasks_activity].
    rewrite Hview1, prune_activity. subst da. unfold updated_doc.
    cbn [activity with_tasks_activity].
    unfold recorded_move, statusChange, set_status. cbn [p_status truthy].
    rewrite Hst2, Hne. cbn.
    rewrite slice_last_app, <- app_assoc. cbn.
    split; [reflexivity|]. unfold is_moved, movedActivity. cbn.
    rewrite Hst2. repeat split; reflexivity.
Qed.

Lemma handed_commit o d w : handed (commit o d w) = handed w.
Proof. destruct o; reflexivity. Qed.

Lemma truthy_str_given o : truthy_str o = true <-> given o.
Proof.
  unfold truthy_str, given. destruct o as [a|].
  - destruct (String.eqb_spec a ""); cbn; split.
    + discriminate.
    + intros (a' & [= <-] & Hne). contradiction.
    + eauto.
    + reflexivity.
  - split; [discriminate|]. intros (a & Ha & _). discriminate.
Qed.

(** C6: [createTask] appends the new task to the task list and hands the
    document to the safe writer with exactly one "created" record
    appended to the feed; when an assignee is given the task's status is
    "assigned" and exactly one "assigned" record naming the assignee
    follows the "created" one; when no assignee is given ([null], absent
    or empty) the status is "inbox" and the "created" record is the only
    one appended. *)
Theorem createTask_status_and_records title description assignee category
    priority w :
  let task := fst (createTask title description assignee category priority w) in
  let w' := snd (createTask title description assignee category priority w) in
  exists d' created,
    handed w' = handed w ++ [(d', "dashboard-update")] /\
    tasks d' = map (fun t => fst (pruneLogs t)) (tasks (view w)) ++ [task] /\
    Tasks.assignee task = assignee /\
    a_type created = "task" /\ a_action created = "created" /\
    a_taskId created = id task /\
    (given assignee ->
       status task = "assigned" /\
       exists assigned,
         a_type assigned = "status" /\ a_action assigned = "assigned" /\
         a_taskId assigned = id task /\ a_target assigned = assignee /\
         activity d' =
           slice_last MAX_ACTIVITY_ENTRIES
             (activity (view w) ++ [created; assigned])) /\
    (~ given assignee ->
       status task = "inbox" /\
       activity d' =
         slice_last MAX_ACTIVITY_ENTRIES (activity (view w) ++ [created])).
Proof.
  destruct (loadTasks_spec w)
    as (o & w1 & Hload & Hnow & Hent & Hdrawn & Hfile & Hsw & Hhanded & _).
  unfold createTask. rewrite Hload. cbn [generateId].
  pose proof (truthy_str_given assignee) as Hgiven.
  destruct (truthy_str assignee) eqn:Htr; cbn [generateId];
    match goal with |- context [saveTasks ?d ?o ?r ?w'] =>
      pose proof (saveTasks_handed d o r w') as Hh;
      destruct (saveTasks d o r w') as [ok w5] end;
    cbn [fst snd] in *; rewrite Hh; clear Hh;
    match goal with |- context [createdActivity ?a ?t ?n] =>
      eexists _, (createdActivity a t n) end;
    (split; [rewrite handed_commit; cbn [handed]; rewrite Hhanded;
             reflexivity|]);
    rewrite prune_tasks, prune_activity; cbn [tasks activity with_tasks_activity];
    (split; [rewrite map_app; reflexivity|]);
    (split; [reflexivity|]); (split; [reflexivity|]);
    (split; [reflexivity|]); (split; [reflexivity|]).
  - split.
    + intros _. split; [reflexivity|].
      match goal with |- context [assignedActivity ?a ?t ?x ?n] =>
        exists (assignedActivity a t x n) end.
      repeat (split; [reflexivity|]). rewrite <- app_assoc. reflexivity.
    + intros Hn. exfalso. apply Hn, Hgiven. reflexivity.
  - split.
    + intros Hg. apply Hgiven in Hg. discriminate.
    + intros _. split; reflexivity.
Qed.

End TaskStoreTheorems.

Lemma missing_task_untouched_witness :
  (fst (Tasks.updateTask "task-404" (Tasks.set_status "done")
          (Tasks.world1 Tasks.accepting)) = None /\
   Tasks.untouched (Tasks.world1 Tasks.accepting)
     (snd (Tasks.updateTask "task-404" (Tasks.set_status "done")
             (Tasks.world1 Tasks.accepting)))) /\
  (fst (Tasks.deleteTask "task-404" (Tasks.world1 Tasks.accepting)) = None /\
   Tasks.untouched (Tasks.world1 Tasks.accepting)
     (snd (Tasks.deleteTask "task-404" (Tasks.world1 Tasks.accepting)))) /\
  (fst (Tasks.addTaskComment "task-404" "data" "Intriguing."
          (Tasks.world1 Tasks.accepting)) = None /\
   Tasks.untouched (Tasks.world1 Tasks.accepting)
     (snd (Tasks.addTaskComment "task-404" "data" "Intriguing."
             (Tasks.world1 Tasks.accepting)))).
Proof.
  apply (missing_task_untouched "task-404" (Tasks.set_status "done")
           "data" "Intriguing." (Tasks.world1 Tasks.accepting)).
  intros t Ht. vm_compute in Ht. destruct Ht as [<-|[]].
  vm_compute. discriminate.
Defined.


(** After that refused write the read cache still holds the mutated
    object: a [loadTasks] within the cache's 2 s shows task-1 as done,
    while the file still has it in the inbox. *)
Example refused_update_visible_in_cache :
  let w' := snd (Tasks.updateTask "task-1" (Tasks.set_status "done")
                   (Tasks.world1 Tasks.blocking)) in
  map Tasks.status (Tasks.tasks (Tasks.view w')) = ["done"] /\
  map Tasks.status (Tasks.tasks (Tasks.disk_view 0%Z (Tasks.tasksFile w')))
    = ["inbox"].
Proof. vm_compute. split; reflexivity. Qed.

(** The same with a safe writer that only guards against data loss: the
    delete of task-1 is blocked and the file keeps both tasks, but a
    task created one second later starts from the cached document, which
    has lost task-1; that write is let through, and with it the refused
    delete is on disk. *)
Example refused_delete_reaches_disk :
  let w1 := snd (Tasks.deleteTask "task-1" (TaskLog.world2 Tasks.guarding)) in
  let w2 := snd (Tasks.createTask "Realign deflector" "" None "general"
                   "medium" (Tasks.at_time 6000%Z w1)) in
  map Tasks.title (Tasks.tasks (Tasks.disk_view 0%Z (Tasks.tasksFile w1)))
    = ["Calibrate sensors"; "Purge manifolds"] /\
  map Tasks.title (Tasks.tasks (Tasks.disk_view 0%Z (Tasks.tasksFile w2)))
    = ["Purge manifolds"; "Realign deflector"].
Proof. vm_compute. split; reflexivity. Qed.


(** C5, as worded, fails on the code in three ways.  An update carrying
    the status "" differs from the prior "inbox" and is merged into
    task-1, yet the guard [updates.status && ...] records no move.  When
    the safe writer blocks the first write and the second patch comes
    after the read cache has expired, the task is read from the file
    again, still in the inbox, and the round trip leaves no record at
    all.  And for a task that is "done" already the first patch changes
    nothing, so the round trip leaves one record. *)
Lemma status_moves_not_as_worded :
  ~ Tasks.records_move_when Tasks.statusDiffers "task-1" (Tasks.set_status "")
      (Tasks.world1 Tasks.accepting) /\
  ~ Tasks.round_trip_contract "task-1" 9000 (Tasks.world1 Tasks.blocking) /\
  ~ Tasks.round_trip_contract "task-0" 9000 (Tasks.world0 Tasks.accepting).
Proof.
  split; [|split].
  - intros H. destruct (H 0 Tasks.task1) as (d' & Hh & Hact).
    + vm_compute. reflexivity.
    + vm_compute in Hh. injection Hh as <-.
      destruct Hact as [aid Hact]. vm_compute in Hact. discriminate Hact.
  - intros (d2 & m1 & m2 & prior & Hlast & Hact & _).
    vm_compute in Hlast. injection Hlast as <-.
    vm_compute in Hact. discriminate Hact.
  - intros (d2 & m1 & m2 & prior & Hlast & Hact & _).
    vm_compute in Hlast. injection Hlast as <-.
    vm_compute in Hact. discriminate Hact.
Qed.

Lemma updateTask_records_moves_witness :
  exists d2 m1 m2,
    last (Tasks.handed
            (snd (Tasks.updateTask "task-1" (Tasks.set_status "inbox")
               (Tasks.at_time 9000%Z
                  (snd (Tasks.updateTask "task-1" (Tasks.set_status "done")
                          (Tasks.world1 Tasks.guarding)))))))
      = Some (d2, "dashboard-update") /\
    Tasks.activity d2 = Tasks.slice_last Tasks.MAX_ACTIVITY_ENTRIES [m1; m2] /\
    Tasks.is_moved "task-1" "inbox" "done" m1 /\
    Tasks.is_moved "task-1" "done" "inbox" m2.
Proof.
  apply (proj2 (updateTask_records_moves "task-1"
                  (Tasks.world1 Tasks.guarding)) 9000%Z 0 Tasks.task1).
  - vm_compute. reflexivity.
  - discriminate.
  - eexists _, _. split; reflexivity.
Defined.

Lemma createTask_status_and_records_witness :
  Tasks.status
    (fst (Tasks.createTask "Realign deflector" "" (Some "geordi") "general"
            "medium" (Tasks.world1 Tasks.accepting))) = "assigned" /\
  Tasks.status
    (fst (Tasks.createTask "Realign deflector" "" None "general"
            "medium" (Tasks.world1 Tasks.accepting))) = "inbox".
Proof.
  split.
  - destruct (createTask_status_and_records "Realign deflector" ""
                (Some "geordi") "general" "medium"
                (Tasks.world1 Tasks.accepting))
      as (d' & created & _ & _ & _ & _ & _ & _ & Hgiven & _).
    apply Hgiven. exists "geordi". split; [reflexivity|discriminate].
  - destruct (createTask_status_and_records "Realign deflector" ""
                None "general" "medium" (Tasks.world1 Tasks.accepting))
      as (d' & created & _ & _ & _ & _ & _ & _ & _ & Habsent).
    apply Habsent. intros (a & Ha & _). discriminate Ha.
Defined.

Section MessageTheorems.
Import Messages.

Lemma loadMessages_spec w :
  exists o w1,
    loadMessages w = (view w, o, w1) /\
    now w1 = now w /\ writable w1 = writable w /\ handed w1 = handed w.
Proof.
  unfold view, loadMessages, readMessagesFile.
  destruct w as [t e n f [[c|] l] wr h co]; cbn;
    [destruct (t - l <? MESSAGES_CACHE_TTL)%Z|]; try destruct f;
    eexists _, _; (split; [reflexivity|]); cbn; auto.
Qed.

Lemma saveMessages_spec d o w :
  handed (snd (saveMessages d o w))
    = handed w ++ [mkDoc (version d) (now w) (messages d)] /\
  (writable w = true ->
   messagesFile (snd (saveMessages d o w))
     = FileHolds (mkDoc (version d) (now w) (messages d))).
Proof.
  unfold saveMessages. destruct (writable w); destruct o; cbn; split; auto;
    discriminate.
Qed.

(** C10: the message [createMessage] returns is unread, pending, and
    carries the sender and the recipient as the engine's [toLowerCase]
    gives them, whatever that function does to the characters of the
    ids; the document given to the file write is the loaded one with
    that message appended at the end of its list, the earlier messages
    unchanged, and that is the document in the file when the write goes
    through. *)
Theorem createMessage_appends_pending (toLowerCase : string -> string)
    from to subject content type taskId w :
  let m := fst (createMessage toLowerCase from to subject content type
                              taskId w) in
  let w' := snd (createMessage toLowerCase from to subject content type
                               taskId w) in
  m_read m = false /\ m_status m = "pending" /\
  m_from m = toLowerCase from /\ m_to m = toLowerCase to /\
  exists d',
    handed w' = handed w ++ [d'] /\
    messages d' = messages (view w) ++ [m] /\
    (writable w = true -> messagesFile w' = FileHolds d').
Proof.
  destruct (loadMessages_spec w) as (o & w1 & Hload & Hnow & Hwr & Hh).
  unfold createMessage. rewrite Hload. cbn [generateId].
  match goal with |- context [saveMessages ?d ?o ?w'] =>
    destruct (saveMessages_spec d o w') as [Hs Hf];
    destruct (saveMessages d o w') as [ok w3] end.
  cbn [fst snd] in *. repeat (split; [reflexivity|]).
  unfold log at 1 2. cbn [handed messagesFile].
  eexists. split; [|split].
  - rewrite Hs. f_equal. destruct o; cbn; exact Hh.
  - reflexivity.
  - intros Hw. apply Hf. destruct o; cbn; congruence.
Qed.

End MessageTheorems.

Section HubTheorems.
Import Hub.

Lemma last_cons_default {A} (l : list A) x d d' :
  List.last (x :: l) d = List.last (x :: l) d'.
Proof.
  revert x. induction l as [|y l IH]; intros x; [reflexivity|].
  change (List.last (y :: l) d = List.last (y :: l) d'). apply IH.
Qed.

Lemma run_cons c rest st :
  run (c :: rest) st
    = run rest (broadcast (snd c) (fst c) (advance (fst c) st)).
Proof. reflexivity. Qed.

(** While a timer is pending and every call comes before it is due, the
    calls only replace the queued frame. *)
Lemma run_pending calls : forall st due,
  broadcastTimeout st = Some due ->
  Forall (fun call => (fst call < due)%Z) calls ->
  run calls st
    = mkState (match calls with
               | [] => broadcastQueue st
               | c :: _ => Some (snd (List.last calls c))
               end)
              (Some due) (clients st) (outbox st).
Proof.
  induction calls as [|c rest IH]; intros st due Hdue Hall.
  - destruct st; cbn in *. subst. reflexivity.
  - apply Forall_cons in Hall. destruct Hall as [Hc Hrest].
    rewrite run_cons.
    assert (Hadv : advance (fst c) st = st).
    { unfold advance. rewrite Hdue.
      destruct (due <=? fst c)%Z eqn:Hle; [apply Z.leb_le in Hle; lia|].
      reflexivity. }
    rewrite Hadv.
    rewrite (IH _ due); [|unfold broadcast; rewrite Hdue; reflexivity|exact Hrest].
    cbn [broadcast broadcastQueue clients outbox].
    destruct rest as [|c' rest']; [reflexivity|].
    change (List.last (c :: c' :: rest') c) with (List.last (c' :: rest') c).
    rewrite (last_cons_default rest' c' c c'). reflexivity.
Qed.

Lemma sends_to_fanout (frame : Frame) (cs : list Client) c :
  NoDup (map cid cs) -> In c cs ->
  sends_to (cid c) (map (fun c' => (cid c', frame)) (List.filter is_open cs))
    = if is_open c then [frame] else [].
Proof.
  assert (Hnone : forall l : list Client, ~ In (cid c) (map cid l) ->
            sends_to (cid c)
              (map (fun c' => (cid c', frame)) (List.filter is_open l)) = []).
  { induction l as [|x l IHl]; intros Hn; [reflexivity|].
    cbn in Hn. cbn [List.filter].
    destruct (is_open x); cbn [map]; unfold sends_to in *; cbn [List.filter fst].
    - destruct (Nat.eqb_spec (cid x) (cid c)); [exfalso; auto|].
      apply IHl. auto.
    - apply IHl. auto. }
  induction cs as [|x cs IH]; intros Hnd Hin; [destruct Hin|].
  cbn in Hnd. apply NoDup_cons in Hnd. destruct Hnd as [Hx Hnd].
  destruct Hin as [->|Hin].
  - cbn [List.filter]. destruct (is_open c) eqn:Ho.
    + cbn [map]. unfold sends_to. cbn [List.filter fst].
      rewrite Nat.eqb_refl. cbn [map snd]. f_equal.
      apply Hnone. rewrite <- list_elem_of_In. exact Hx.
    + apply Hnone. rewrite <- list_elem_of_In. exact Hx.
  - assert (Hne : cid x <> cid c).
    { intros Heq. apply Hx. rewrite Heq. apply list_elem_of_In.
      apply in_map. exact Hin. }
    cbn [List.filter]. destruct (is_open x).
    + cbn [map]. unfold sends_to. cbn [List.filter fst].
      destruct (Nat.eqb_spec (cid x) (cid c)); [contradiction|].
      apply (IH Hnd Hin).
    + apply (IH Hnd Hin).
Qed.

(** C9 (amended): a burst of [broadcast] calls that all come before the
    timer in force is due (the timer already pending when the burst
    starts, or else the one its first call sets for 100 ms later) sends
    nothing by itself, and when that timer runs each open client of the
    connection set gets exactly one send, carrying the frame of the last
    call; clients that are not open get none. *)
Theorem burst_collapses_to_last st t0 f0 rest tEnd :
  Forall (fun call => (fst call < deadline st t0)%Z) ((t0, f0) :: rest) ->
  (deadline st t0 <= tEnd)%Z ->
  NoDup (map cid (clients st)) ->
  let calls := (t0, f0) :: rest in
  let lastFrame := snd (List.last calls (t0, f0)) in
  let final := advance tEnd (run calls st) in
  outbox (run calls st) = outbox st /\
  outbox final =
    outbox st ++
      map (fun c => (cid c, lastFrame)) (List.filter is_open (clients st)) /\
  (forall c, In c (clients st) ->
     sends_to (cid c) (drop (length (outbox st)) (outbox final))
       = if is_open c then [lastFrame] else []) /\
  broadcastTimeout final = None.
Proof.
  intros Hall Hend Hnd calls lastFrame final.
  assert (Hrun : run calls st
            = mkState (Some lastFrame) (Some (deadline st t0))
                      (clients st) (outbox st)).
  { subst calls lastFrame. unfold deadline in *.
    destruct (broadcastTimeout st) as [due|] eqn:Htimer.
    - rewrite (run_pending _ st due Htimer Hall). reflexivity.
    - rewrite run_cons.
      assert (Hadv : advance t0 st = st)
        by (unfold advance; rewrite Htimer; reflexivity).
      cbn [fst snd]. rewrite Hadv.
      apply Forall_cons in Hall. destruct Hall as [_ Hrest].
      rewrite (run_pending rest _ (t0 + DEBOUNCE)%Z).
      + cbn [broadcast broadcastQueue clients outbox].
        destruct rest as [|c r]; [reflexivity|].
        change (List.last ((t0, f0) :: c :: r) (t0, f0))
          with (List.last (c :: r) (t0, f0)).
        rewrite (last_cons_default r c (t0, f0) c). reflexivity.
      + unfold broadcast. rewrite Htimer. reflexivity.
      + exact Hrest. }
  assert (Hfinal : final
            = mkState None None (clients st)
                (outbox st ++
                   map (fun c => (cid c, lastFrame))
                       (List.filter is_open (clients st)))).
  { subst final. rewrite Hrun. unfold advance. cbn [broadcastTimeout].
    destruct (deadline st t0 <=? tEnd)%Z eqn:Hle;
      [reflexivity|apply Z.leb_gt in Hle; lia]. }
  rewrite Hfinal, Hrun. cbn [outbox broadcastTimeout].
  repeat split; auto.
  intros c Hc. rewrite drop_app_length. apply sends_to_fanout; assumption.
Qed.

End HubTheorems.

Lemma createMessage_appends_pending_witness :
  let r := Messages.createMessage Js.asciiLowerCase "Seven" "GEORDI"
             "Shields" "" "request" None Messages.world1 in
  (Messages.m_from (fst r), Messages.m_to (fst r)) = ("seven", "geordi") /\
  exists d',
    Messages.messagesFile (snd r) = Messages.FileHolds d' /\
    Messages.messages d' = [Messages.hail; fst r].
Proof.
  destruct (createMessage_appends_pending Js.asciiLowerCase "Seven" "GEORDI"
              "Shields" "" "request" None Messages.world1)
    as (_ & _ & Hfrom & Hto & d' & _ & Hmsgs & Hfile).
  split.
  - rewrite Hfrom, Hto. reflexivity.
  - exists d'. split; [apply Hfile; reflexivity|exact Hmsgs].
Defined.

(** C9, as worded, fails on the code: the timer is set once and never
    set again, so when a burst of ten calls within 50 ms starts while a
    timer from an earlier call is pending and due at 40 ms, that timer
    runs in the middle of the burst: each open client gets the frame of
    the eighth call from it, and the frame of the tenth from the timer
    that the ninth call sets. *)
Lemma pending_timer_splits_burst :
  Hub.sends_to 1
    (drop (length (Hub.outbox Hub.busy))
       (Hub.outbox (Hub.advance 300 (Hub.run Hub.burst Hub.busy))))
    = [Hub.mkFrame "tasks_update" "7"; Hub.mkFrame "tasks_update" "9"] /\
  ~ Hub.collapse_contract Hub.busy Hub.burst 300.
Proof.
  split; [vm_compute; reflexivity|].
  intros H. hnf in H.
  assert (Hin : In (Hub.mkClient 1 Hub.OPEN) (Hub.clients Hub.busy))
    by (left; reflexivity).
  specialize (fun Hw He => H Hw He _ Hin).
  assert (Hsends : Hub.sends_to 1
            (drop (length (Hub.outbox Hub.busy))
               (Hub.outbox (Hub.advance 300 (Hub.run Hub.burst Hub.busy))))
            = [Hub.mkFrame "tasks_update" "9"]).
  { apply H.
    - vm_compute. repeat constructor; discriminate.
    - vm_compute. discriminate. }
  vm_compute in Hsends. discriminate Hsends.
Qed.

Lemma burst_collapses_to_last_witness :
  let final := Hub.advance 120 (Hub.run Hub.burst Hub.bridge) in
  Hub.outbox final
    = [(1, Hub.mkFrame "tasks_update" "9"); (3, Hub.mkFrame "tasks_update" "9")].
Proof.
  apply (burst_collapses_to_last Hub.bridge 0
           (Hub.mkFrame "tasks_update" "0") (tl Hub.burst) 120).
  - vm_compute. repeat constructor; reflexivity.
  - vm_compute. discriminate.
  - vm_compute. repeat constructor; cbn; intros H;
      repeat (apply elem_of_cons in H; destruct H as [H|H]; [discriminate H|]);
      inversion H.
Defined.

(* ================================================================== *)
(** * Further properties: cache layer and gateway status                *)
(* ================================================================== *)

Section CacheFurther.
Import Js Cache CacheAux.
Context {W : Type}.
Implicit Types (st : state W) (fetch : fetchFn W).

Lemma invalidate1_lookup (c : gmap string entry) key k :
  invalidate1 c key !! k
    = if decide (k = key) then blank <$> c !! k else c !! k.
Proof.
  unfold invalidate1. destruct (decide (k = key)) as [->|Hne].
  - destruct (c !! key) as [e|] eqn:He.
    + rewrite lookup_insert_eq. reflexivity.
    + rewrite He. reflexivity.
  - destruct (c !! key); [|reflexivity].
    apply lookup_insert_ne. congruence.
Qed.

Lemma invalidate_fold_lookup keys : forall (c : gmap string entry) k,
  foldl invalidate1 c keys !! k
    = if decide (k ∈ keys) then blank <$> c !! k else c !! k.
Proof.
  induction keys as [|key rest IH]; intros c k; cbn [foldl].
  - destruct (decide (k ∈ [])) as [Hin|_]; [inversion Hin|reflexivity].
  - rewrite IH, invalidate1_lookup.
    destruct (decide (k ∈ rest)) as [Hr|Hr];
      destruct (decide (k = key)) as [->|Hne];
      destruct (decide (_ ∈ key :: rest)) as [Hin|Hin];
      try reflexivity.
    + destruct (c !! key); reflexivity.
    + exfalso. apply Hin. apply elem_of_cons. auto.
    + exfalso. apply Hin. apply elem_of_cons. auto.
    + exfalso. apply Hin. apply elem_of_cons. auto.
    + apply elem_of_cons in Hin. destruct Hin; contradiction.
Qed.

(** X1: [invalidateCache] blanks the value of every listed key that has
    an entry, keeping its fetch time and TTL; it creates no entry for a
    key that has none, leaves the keys that are not listed alone, and
    neither calls a compute function nor touches the outside world. *)
Theorem invalidateCache_lookup keys st k :
  cache (invalidateCache keys st) !! k
    = (if decide (k ∈ keys) then blank <$> cache st !! k
       else cache st !! k) /\
  world (invalidateCache keys st) = world st /\
  fetches (invalidateCache keys st) = fetches st.
Proof.
  unfold invalidateCache. cbn [cache world fetches].
  split; [apply invalidate_fold_lookup|split; reflexivity].
Qed.

(** X2: after [invalidateCache] of a list that has the key, the next
    [getCached] for that key calls the compute function whatever the
    time of the call, also right after a fetch; when the function
    returns a value, that value is returned and stored with the time of
    the call. *)
Theorem invalidate_forces_recompute keys key fetch now st :
  key ∈ keys ->
  let r := getCached key fetch now (invalidateCache keys st) in
  fetches (snd r) = S (fetches st) /\
  (forall d w', fetch (world st) = (Return d, w') ->
     fst r = Return d /\
     exists e, cache (snd r) !! key = Some e /\
               data e = d /\ lastUpdate e = now).
Proof.
  intros Hin r. subst r.
  pose proof (invalidate_fold_lookup keys (cache st) key) as Hk.
  destruct (decide (key ∈ keys)) as [_|Hn]; [|contradiction].
  unfold getCached, invalidateCache. cbn [cache world fetches]. rewrite Hk.
  assert (Hl : live now (default fresh_entry (blank <$> cache st !! key))
               = false) by (destruct (cache st !! key); reflexivity).
  rewrite Hl.
  destruct (fetch (world st)) as [[d|msg] w'] eqn:Hfetch; cbn [fst snd fetches].
  - split; [reflexivity|]. intros d0 w0 [= <- <-]. split; [reflexivity|].
    cbn [cache]. rewrite lookup_insert_eq. eexists. split; [reflexivity|].
    split; reflexivity.
  - split; [reflexivity|]. intros d0 w0 Hd. discriminate Hd.
Qed.

(** X3: neither [getCached] nor [invalidateCache] ever changes the TTL
    of a key: a key seen for the first time gets 30 s and keeps it, a key
    of the table keeps its own. *)
Theorem ttl_never_changes key fetch now keys st k :
  ttl_of k (snd (getCached key fetch now st)) = ttl_of k st /\
  ttl_of k (invalidateCache keys st) = ttl_of k st.
Proof.
  split.
  - unfold ttl_of, getCached.
    destruct (cache st !! key) as [e|] eqn:He; simpl.
    + destruct (live now e); simpl; [reflexivity|].
      destruct (fetch (world st)) as [[d|msg] w']; simpl; [|reflexivity].
      destruct (decide (k = key)) as [->|Hne].
      * rewrite lookup_insert_eq, He. reflexivity.
      * rewrite lookup_insert_ne by congruence. reflexivity.
    + destruct (fetch (world st)) as [[d|msg] w']; simpl;
        destruct (decide (k = key)) as [->|Hne];
        rewrite ?lookup_insert_eq, ?He;
        rewrite ?lookup_insert_ne by congruence; reflexivity.
  - unfold ttl_of, invalidateCache. cbn [cache].
    rewrite (invalidate_fold_lookup keys (cache st) k).
    destruct (decide (k ∈ keys)); [|reflexivity].
    destruct (cache st !! k); reflexivity.
Qed.

End CacheFurther.

Lemma invalidate_forces_recompute_witness :
  let warm := snd (Cache.getCached "systemStats" Cache.stats_ok 1000 Cache.boot) in
  Cache.fetches
    (snd (Cache.getCached "systemStats" Cache.stats_ok 1001
            (Cache.invalidateCache ["quarkData"; "systemStats"] warm)))
  = 2.
Proof.
  apply (invalidate_forces_recompute ["quarkData"; "systemStats"]
           "systemStats" Cache.stats_ok 1001
           (snd (Cache.getCached "systemStats" Cache.stats_ok 1000 Cache.boot))).
  apply elem_of_cons. right. apply elem_of_cons. left. reflexivity.
Defined.

Section GatewayTheorems.
Import Js Cache Gateway.

(** X4: as long as no status has come back, every [getGatewayUptime]
    returns [null] at once, and however many calls are made only one
    [exec] is started: the first call starts it unless one is already
    running. *)
Theorem gateway_single_flight times st :
  data (status st) = JNull ->
  times <> [] ->
  Forall (fun v => v = JNull) (fst (poll times st)) /\
  length (fst (poll times st)) = length times /\
  launched (snd (poll times st))
    = (if inFlight st then launched st else S (launched st)) /\
  inFlight (snd (poll times st)) = true /\
  status (snd (poll times st)) = status st.
Proof.
  intros Hnull Hne.
  assert (Hstep : forall t s, data (status s) = JNull ->
            getGatewayUptime t s = (JNull, updateGatewayStatusAsync s)).
  { intros t s Hs. unfold getGatewayUptime. rewrite Hs. reflexivity. }
  assert (Hrun : forall ts s, data (status s) = JNull -> inFlight s = true ->
            Forall (fun v => v = JNull) (fst (poll ts s)) /\
            length (fst (poll ts s)) = length ts /\ snd (poll ts s) = s).
  { induction ts as [|t ts IH]; intros s Hs Hfl; [cbn; auto|].
    cbn [poll]. rewrite (Hstep t s Hs).
    assert (Hsame : updateGatewayStatusAsync s = s)
      by (unfold updateGatewayStatusAsync; rewrite Hfl; reflexivity).
    rewrite Hsame. destruct (IH s Hs Hfl) as (Hall & Hlen & Hst).
    destruct (poll ts s) as [vs s2]. cbn [fst snd] in *.
    split; [constructor; auto|]. split; [simpl; congruence|exact Hst]. }
  destruct times as [|t ts]; [congruence|].
  cbn [poll]. rewrite (Hstep t st Hnull).
  set (s1 := updateGatewayStatusAsync st).
  assert (Hs1 : data (status s1) = JNull /\ inFlight s1 = true /\
                status s1 = status st /\
                launched s1
                  = (if inFlight st then launched st else S (launched st))).
  { subst s1. unfold updateGatewayStatusAsync.
    destruct (inFlight st) eqn:Hfl; cbn; auto. }
  destruct Hs1 as (Hd1 & Hf1 & Hst1 & Hl1).
  destruct (Hrun ts s1 Hd1 Hf1) as (Hall & Hlen & Hsame).
  destruct (poll ts s1) as [vs s2]. cbn [fst snd] in *. subst s2.
  split; [constructor; auto|]. split; [simpl; congruence|]. auto.
Qed.

(** X5: once a status with an uptime has come back, that uptime (also an
    uptime of 0 seconds) is what [getGatewayUptime] returns for the next
    60 s, without starting another [exec]; a failed or unparseable
    status leaves the cached value as it was and frees the slot, so the
    next call with nothing current starts a new [exec]. *)
Theorem gateway_refresh_served st gw t t' :
  uptimeOf gw t <> JNull ->
  (t' - t < ttl (status st))%Z ->
  getGatewayUptime t' (completed (ExecParsed gw) t st)
    = (uptimeOf gw t, completed (ExecParsed gw) t st) /\
  (forall r, r = ExecError \/ r = ExecGarbage ->
     status (completed r t st) = status st /\
     (data (status st) = JNull ->
      launched (snd (getGatewayUptime t' (completed r t st)))
        = S (launched st))).
Proof.
  intros Hu Ht. split.
  - unfold getGatewayUptime, completed. cbn [status data lastUpdate ttl].
    destruct (uptimeOf gw t) eqn:Hv; try contradiction; cbn [not_null andb];
      (destruct (t' - t <? ttl (status st))%Z eqn:Hlt;
       [reflexivity|apply Z.ltb_ge in Hlt; lia]).
  - intros r [->| ->]; cbn [completed status]; (split; [reflexivity|]);
      intros Hn; unfold getGatewayUptime; cbn [status]; rewrite Hn;
      reflexivity.
Qed.

End GatewayTheorems.

Lemma gateway_single_flight_witness :
  Gateway.launched (snd (Gateway.poll [1000; 1200; 1900]%Z Gateway.boot)) = 1.
Proof.
  apply (gateway_single_flight [1000; 1200; 1900]%Z Gateway.boot).
  - reflexivity.
  - discriminate.
Defined.

Lemma gateway_refresh_served_witness :
  Gateway.getGatewayUptime 61999%Z
    (Gateway.completed (Gateway.ExecParsed (Gateway.mkGw (Some 0%Z) (Some 2000%Z)))
       2000%Z Gateway.boot)
  = (Js.JNum 0,
     Gateway.completed (Gateway.ExecParsed (Gateway.mkGw (Some 0%Z) (Some 2000%Z)))
       2000%Z Gateway.boot).
Proof.
  apply (gateway_refresh_served Gateway.boot
           (Gateway.mkGw (Some 0%Z) (Some 2000%Z)) 2000%Z 61999%Z).
  - discriminate.
  - reflexivity.
Defined.

(* ================================================================== *)
(** * Further properties: task store                                    *)
(* ================================================================== *)

Section TaskStoreFurther.
Import Js Tasks TaskLog.

(** What the read-only half of an operation leaves behind. *)
Lemma loadTasks_untouched w :
  exists o w1,
    loadTasks w = (view w, o, w1) /\ untouched w w1 /\
    now w1 = now w /\ entropy w1 = entropy w /\ drawn w1 = drawn w /\
    safeWriter w1 = safeWriter w.
Proof.
  destruct (loadTasks_spec w)
    as (o & w1 & Hload & Hnow & Hent & Hdrawn & Hfile & Hsw & Hh & Hv & _).
  exists o, w1. split; [exact Hload|]. split; [|auto].
  unfold untouched. split; [exact Hfile|]. split; [exact Hh|].
  rewrite <- (view_log "INFO" "" w1). apply Hv.
Qed.

Lemma pruneLogs_bounded t ls :
  logs (fst (pruneLogs t)) = Some ls -> length ls <= MAX_LOGS_PER_TASK.
Proof.
  rewrite pruneLogs_logs. destruct (logs t) as [l0|]; [|discriminate].
  cbn. intros [= <-]. unfold slice_last. rewrite length_drop. lia.
Qed.

Lemma pruneLogs_idem t : fst (pruneLogs (fst (pruneLogs t))) = fst (pruneLogs t).
Proof.
  unfold pruneLogs at 1.
  destruct (logs (fst (pruneLogs t))) as [ls|] eqn:Hl; [|reflexivity].
  apply pruneLogs_bounded in Hl. apply Nat.ltb_ge in Hl. rewrite Hl.
  reflexivity.
Qed.

Lemma pruneLogs_flag t : snd (pruneLogs t) = false -> fst (pruneLogs t) = t.
Proof.
  unfold pruneLogs. destruct (logs t) as [ls|]; [|reflexivity].
  destruct (MAX_LOGS_PER_TASK <? length ls); [discriminate|reflexivity].
Qed.

Lemma pruned_is_bounded d : bounded (fst (pruneTaskData d)).
Proof.
  unfold bounded. rewrite prune_activity, prune_tasks. split.
  - unfold slice_last. rewrite length_drop. lia.
  - apply Forall_forall. intros t Ht ls Hls.
    apply list_elem_of_In, in_map_iff in Ht. destruct Ht as (t0 & <- & _).
    eapply pruneLogs_bounded; eauto.
Qed.

Lemma unflagged_prune_is_identity d :
  snd (pruneTaskData d) = false -> fst (pruneTaskData d) = d.
Proof.
  unfold pruneTaskData. cbn [fst snd]. intros Hflag.
  apply orb_false_iff in Hflag. destruct Hflag as [Ha Hl].
  destruct (MAX_ACTIVITY_ENTRIES <? length (activity d)); [discriminate|].
  cbn [fst]. rewrite map_map.
  assert (Hid : map (fun t => fst (pruneLogs t)) (tasks d) = tasks d).
  { clear Ha. induction (tasks d) as [|t ts IH]; [reflexivity|].
    cbn in Hl. apply orb_false_iff in Hl. destruct Hl as [Ht Hts].
    cbn. rewrite (pruneLogs_flag t Ht), (IH Hts). reflexivity. }
  rewrite Hid. destruct d; reflexivity.
Qed.

(** X6: pruning is idempotent and its flag is honest: the pruned
    document is within the bounds (at most 500 feed entries, at most 50
    logs per task), pruning it again changes nothing and reports
    [false], and whenever [pruneTaskData] reports [false] the document
    is returned as it was. *)
Theorem pruneTaskData_idempotent d :
  bounded (fst (pruneTaskData d)) /\
  pruneTaskData (fst (pruneTaskData d)) = (fst (pruneTaskData d), false) /\
  (snd (pruneTaskData d) = false -> fst (pruneTaskData d) = d).
Proof.
  split; [apply pruned_is_bounded|]. split; [|apply unflagged_prune_is_identity].
  set (d1 := fst (pruneTaskData d)).
  assert (Hact : length (activity d1) <= MAX_ACTIVITY_ENTRIES)
    by apply (pruned_is_bounded d).
  assert (Hts : map pruneLogs (tasks d1)
                = map (fun t => (t, false)) (tasks d1)).
  { subst d1. rewrite prune_tasks. rewrite !map_map.
    apply map_ext. intros t. unfold pruneLogs at 1.
    destruct (logs (fst (pruneLogs t))) as [ls|] eqn:Hl; [|reflexivity].
    apply pruneLogs_bounded in Hl. apply Nat.ltb_ge in Hl. rewrite Hl.
    reflexivity. }
  clearbody d1. unfold pruneTaskData at 1. rewrite Hts.
  apply Nat.ltb_ge in Hact. rewrite Hact. cbn [fst snd].
  rewrite !map_map. cbn [fst snd]. rewrite map_id.
  f_equal; [destruct d1; reflexivity|]. cbn [orb]. clear Hts.
  induction (tasks d1) as [|x l IHl]; [reflexivity|exact IHl].
Qed.

(** X7: a write that the safe writer lets through can be read back:
    whatever the time of the next [loadTasks], it returns the document
    that was saved, pruned, and that document is within the bounds. *)
Theorem saved_document_is_read_back d o reason w t :
  safeWriter w (fst (pruneTaskData d)) (tasksFile w) = Written ->
  fst (saveTasks d o reason w) = true /\
  view (at_time t (snd (saveTasks d o reason w))) = fst (pruneTaskData d) /\
  bounded (view (at_time t (snd (saveTasks d o reason w)))).
Proof.
  intros Hok.
  destruct (saveTasks_accepted d o reason w Hok) as (Htrue & Hfile & Hc & _).
  split; [exact Htrue|].
  assert (Hv : view (at_time t (snd (saveTasks d o reason w)))
               = fst (pruneTaskData d)).
  { rewrite view_uncached by exact Hc. rewrite Hfile. reflexivity. }
  split; [exact Hv|]. rewrite Hv. apply pruned_is_bounded.
Qed.

(** X8: the read cache hides the disk for two seconds: after a
    [loadTasks] that read the file at time [now w], a change made to the
    file by someone else is not seen by a [loadTasks] less than 2000 ms
    later, which still returns the document read before, and is seen by
    one made 2000 ms later or more. *)
Theorem loadTasks_staleness w d other t :
  tasksFile w = FileHolds d ->
  data (tasksCache w) = None ->
  let w1 := snd (loadTasks w) in
  view w = d /\
  ((t - now w < TASKS_CACHE_TTL)%Z ->
   view (at_time t (with_file (FileHolds other) w1)) = d) /\
  ((TASKS_CACHE_TTL <= t - now w)%Z ->
   view (at_time t (with_file (FileHolds other) w1)) = other).
Proof.
  intros Hf Hc w1. subst w1. unfold view, loadTasks, readTasksFile.
  destruct w as [t0 e n f [c l] sw h co]. cbn in *. subst f c. cbn.
  split; [reflexivity|]. split; intros Ht.
  - apply Z.ltb_lt in Ht. rewrite Ht. reflexivity.
  - destruct (t - t0 <? TASKS_CACHE_TTL)%Z eqn:Hlt;
      [apply Z.ltb_lt in Hlt; lia|reflexivity].
Qed.

End TaskStoreFurther.

Lemma saved_document_is_read_back_witness :
  let d := Tasks.with_tasks_activity [Tasks.task1] (Tasks.feed 600) Tasks.doc1 in
  length (Tasks.activity
            (Tasks.view
               (Tasks.at_time 7100%Z
                  (snd (Tasks.saveTasks d Tasks.FreshObject "archive-cleanup"
                          (Tasks.world1 Tasks.accepting)))))) = 500.
Proof.
  destruct (saved_document_is_read_back
              (Tasks.with_tasks_activity [Tasks.task1] (Tasks.feed 600) Tasks.doc1)
              Tasks.FreshObject "archive-cleanup"
              (Tasks.world1 Tasks.accepting) 7100%Z eq_refl) as (_ & Hv & _).
  cbn zeta. rewrite Hv. vm_compute. reflexivity.
Defined.

Lemma loadTasks_staleness_witness :
  Tasks.view
    (Tasks.at_time 6999%Z
       (Tasks.with_file (Tasks.FileHolds TaskLog.doc2)
          (snd (Tasks.loadTasks (Tasks.world1 Tasks.accepting)))))
  = Tasks.doc1.
Proof.
  apply (loadTasks_staleness (Tasks.world1 Tasks.accepting) Tasks.doc1
           TaskLog.doc2 6999%Z eq_refl eq_refl).
  reflexivity.
Defined.

Section TaskOperationsFurther.
Import Js Tasks TaskLog.

(** Bring the final [saveTasks] of an operation to the front: its
    result is named, and what it handed over is rewritten. *)
Ltac expose_save :=
  match goal with
  | |- context [saveTasks ?d ?o ?r ?w'] =>
      let Hh := fresh "Hh" in
      pose proof (saveTasks_handed d o r w') as Hh;
      destruct (saveTasks d o r w') as [? ?];
      cbn [fst snd] in *; rewrite ?Hh, ?handed_commit; cbn [handed]
  end.

Lemma lookup_pruned (ts : list Task) k :
  map (fun t => fst (pruneLogs t)) ts !! k
    = (fun t => fst (pruneLogs t)) <$> ts !! k.
Proof. change (map ?f ?l) with (f <$> l). apply list_lookup_fmap. Qed.

Lemma findTask_lookup taskId d taskIndex t :
  findTask taskId d = Some (taskIndex, t) ->
  tasks d !! taskIndex = Some t /\ id t = taskId /\
  taskIndex < length (tasks d).
Proof.
  unfold findTask. intros H. apply list_find_Some in H.
  destruct H as (Hk & Hid & _). split; [exact Hk|]. split; [exact Hid|].
  eapply lookup_lt_Some; eauto.
Qed.

(** X9: [deleteTask] on a task that is found returns it and hands over a
    document with exactly that entry cut out of the task list, the other
    tasks in their order, and one "deleted" record behind the feed; when
    no two tasks share an id, the id is not found in that document any
    more. *)
Theorem deleteTask_removes_one taskId w taskIndex t :
  findTask taskId (view w) = Some (taskIndex, t) ->
  fst (deleteTask taskId w) = Some t /\
  exists d',
    handed (snd (deleteTask taskId w))
      = handed w ++ [(d', "dashboard-update")] /\
    tasks d'
      = map (fun x => fst (pruneLogs x)) (delete taskIndex (tasks (view w))) /\
    S (length (tasks d')) = length (tasks (view w)) /\
    activity d'
      = slice_last MAX_ACTIVITY_ENTRIES
          (activity (view w) ++ [deletedActivity taskId t w]) /\
    (NoDup (map id (tasks (view w))) -> findTask taskId d' = None).
Proof.
  intros Hfind.
  destruct (findTask_lookup _ _ _ _ Hfind) as (Hk & Hid & Hlt).
  destruct (loadTasks_spec w)
    as (o & w1 & Hload & Hnow & Hent & Hdrawn & Hfile & Hsw & Hhanded & _).
  unfold deleteTask, deletedActivity, drawnId.
  rewrite Hload, Hfind. cbn [generateId]. expose_save.
  rewrite Hnow, Hent, Hdrawn, Hhanded.
  split; [reflexivity|]. eexists. split; [reflexivity|].
  rewrite prune_tasks, prune_activity. cbn [tasks activity with_tasks_activity].
  split; [reflexivity|]. split.
  { rewrite length_map, length_delete by (rewrite Hk; eauto). lia. }
  split; [reflexivity|].
  intros Hnd. unfold findTask. rewrite prune_tasks.
  cbn [tasks with_tasks_activity]. apply list_find_None.
  apply Forall_forall. intros x Hx Hidx.
  apply list_elem_of_lookup in Hx. destruct Hx as [j Hj].
  rewrite lookup_pruned in Hj.
  destruct (delete taskIndex (tasks (view w)) !! j) as [x0|] eqn:Hx0;
    [|discriminate]. injection Hj as <-.
  destruct (pruneLogs_fields x0) as [Hidp _]. rewrite Hidp in Hidx.
  assert (Hsrc : exists j', j' <> taskIndex /\ tasks (view w) !! j' = Some x0).
  { destruct (Nat.lt_ge_cases j taskIndex) as [Hl|Hg].
    - rewrite list_lookup_delete_lt in Hx0 by exact Hl. exists j. split; [lia|auto].
    - rewrite list_lookup_delete_ge in Hx0 by exact Hg. exists (S j).
      split; [lia|auto]. }
  destruct Hsrc as (j' & Hne & Hj').
  apply Hne.
  eapply (NoDup_lookup (map id (tasks (view w))) j' taskIndex (id x0));
    [exact Hnd| |].
  - change (map ?f ?l) with (f <$> l). rewrite list_lookup_fmap, Hj'.
    reflexivity.
  - change (map ?f ?l) with (f <$> l). rewrite list_lookup_fmap, Hk.
    cbn. congruence.
Qed.

(** X10: [addTaskComment] on a task that is found returns the new
    comment (the given author and text, stamped with the time of the
    call) and hands over a document in which only that task changed: the
    comment is the last of its comments, a list started when the task
    had none, and one "added" record by the author is behind the feed. *)
Theorem addTaskComment_appends taskId author text w taskIndex t :
  findTask taskId (view w) = Some (taskIndex, t) ->
  exists c d' a,
    fst (addTaskComment taskId author text w) = Some c /\
    c_author c = author /\ c_text c = text /\ c_timestamp c = now w /\
    handed (snd (addTaskComment taskId author text w))
      = handed w ++ [(d', "dashboard-update")] /\
    tasks d'
      = map (fun x => fst (pruneLogs x))
            (<[taskIndex := commented t c (now w)]> (tasks (view w))) /\
    comments (commented t c (now w))
      = Some (default [] (comments t) ++ [c]) /\
    activity d' = slice_last MAX_ACTIVITY_ENTRIES (activity (view w) ++ [a]) /\
    a_type a = "comment" /\ a_action a = "added" /\ a_agent a = author /\
    a_taskId a = taskId.
Proof.
  intros Hfind.
  destruct (loadTasks_spec w)
    as (o & w1 & Hload & Hnow & Hent & Hdrawn & Hfile & Hsw & Hhanded & _).
  unfold addTaskComment, commented.
  rewrite Hload, Hfind. cbn [generateId]. expose_save.
  rewrite Hnow, Hhanded.
  eexists _, _,
    (mkActivity _ "comment" "added" author taskId _ None None None _).
  split; [reflexivity|]. repeat (split; [reflexivity|]).
  rewrite prune_tasks, prune_activity. cbn [tasks activity with_tasks_activity].
  repeat (split; [reflexivity|]). reflexivity.
Qed.



(** X13: a [deleteTaskLog] that finds the entry returns it and hands
    over a document in which the task's log list is the old one with
    exactly that entry cut out (then cut to the newest 50), the task is
    stamped with the time of the call, and the activity feed gets no
    record of the deletion. *)
Theorem deleteTaskLog_cuts_one taskId logId w taskIndex t ls logIndex l :
  findTask taskId (view w) = Some (taskIndex, t) ->
  logs t = Some ls ->
  list_find (fun x => l_id x = logId) ls = Some (logIndex, l) ->
  fst (deleteTaskLog taskId logId w) = Some l /\
  exists d' t',
    handed (snd (deleteTaskLog taskId logId w))
      = handed w ++ [(d', "dashboard-update")] /\
    tasks d' !! taskIndex = Some t' /\
    logs t' = Some (slice_last MAX_LOGS_PER_TASK (delete logIndex ls)) /\
    S (length (delete logIndex ls)) = length ls /\
    updatedAt t' = now w /\
    activity d' = slice_last MAX_ACTIVITY_ENTRIES (activity (view w)).
Proof.
  intros Hfind Hlogs Hlog.
  destruct (findTask_lookup _ _ _ _ Hfind) as (Hk & Hid & Hlt).
  destruct (loadTasks_spec w)
    as (o & w1 & Hload & Hnow & Hent & Hdrawn & Hfile & Hsw & Hhanded & _).
  unfold deleteTaskLog. rewrite Hload, Hfind, Hlogs, Hlog. expose_save.
  rewrite Hnow, Hhanded.
  split; [reflexivity|]. eexists _, _. split; [reflexivity|].
  rewrite prune_tasks, prune_activity. cbn [tasks activity with_tasks_activity].
  split.
  { rewrite lookup_pruned, list_lookup_insert_eq by exact Hlt. reflexivity. }
  split; [rewrite pruneLogs_logs; reflexivity|].
  split.
  { apply list_find_Some in Hlog. destruct Hlog as (Hj & _).
    rewrite length_delete by (rewrite Hj; eauto).
    apply lookup_lt_Some in Hj. lia. }
  split; [|reflexivity].
  unfold pruneLogs, with_logs. cbn [logs].
  destruct (MAX_LOGS_PER_TASK <? length (delete logIndex ls)); reflexivity.
Qed.

End TaskOperationsFurther.

Lemma deleteTask_removes_one_witness :
  let r := Tasks.deleteTask "task-1" (TaskLog.world2 Tasks.accepting) in
  fst r = Some Tasks.task1 /\
  map Tasks.id (Tasks.tasks (Tasks.view (snd r))) = ["task-2"].
Proof.
  destruct (deleteTask_removes_one "task-1" (TaskLog.world2 Tasks.accepting)
              0 Tasks.task1 eq_refl) as (Hres & _).
  split; [exact Hres|]. vm_compute. reflexivity.
Defined.

Lemma addTaskComment_appends_witness :
  exists c,
    fst (Tasks.addTaskComment "task-2" "data" "Intriguing."
           (TaskLog.world2 Tasks.accepting)) = Some c /\
    Tasks.c_text c = "Intriguing.".
Proof.
  destruct (addTaskComment_appends "task-2" "data" "Intriguing."
              (TaskLog.world2 Tasks.accepting) 1 TaskLog.task2 eq_refl)
    as (c & d' & a & Hres & _ & Htext & _).
  exists c. split; assumption.
Defined.



Lemma deleteTaskLog_cuts_one_witness :
  fst (TaskLog.deleteTaskLog "task-2" "log-1" (TaskLog.world2 Tasks.accepting))
  = Some (TaskLog.entry 1).
Proof.
  apply (deleteTaskLog_cuts_one "task-2" "log-1"
           (TaskLog.world2 Tasks.accepting) 1 TaskLog.task2
           [TaskLog.entry 0; TaskLog.entry 1; TaskLog.entry 2] 1
           (TaskLog.entry 1)); vm_compute; reflexivity.
Defined.

Section CreateThenFind.
Import Js Tasks TaskLog.

(** X14: a created task can be found again: when the safe writer lets
    the write of this call through and no task of the document already
    carries the generated id, any later [loadTasks] (whatever its time)
    returns a document in which the id is found, at the end of the task
    list, as the very task [createTask] returned. *)
Theorem created_task_is_found title description assignee category priority
    w t :
  accepted w
    (snd (createTask title description assignee category priority w)) ->
  (forall x, In x (tasks (view w)) -> id x <> drawnId "task" w) ->
  let r := createTask title description assignee category priority w in
  id (fst r) = drawnId "task" w /\
  findTask (id (fst r)) (view (at_time t (snd r)))
    = Some (length (tasks (view w)), fst r).
Proof.
  intros Hacc Hfresh r. subst r. revert Hacc.
  destruct (loadTasks_spec w)
    as (o & w1 & Hload & Hnow & Hent & Hdrawn & Hfile & Hsw & Hhanded & _).
  unfold createTask. rewrite Hload. cbn [generateId].
  set (task := mkTask _ title description _ assignee category priority
                      _ _ (Some []) None).
  assert (Hid : id task = drawnId "task" w).
  { subst task. unfold drawnId. cbn [id]. rewrite Hnow, Hent, Hdrawn.
    reflexivity. }
  assert (Hprune : fst (pruneLogs task) = task) by reflexivity.
  assert (Hgoal : forall d1 w4,
            tasksFile w4 = tasksFile w ->
            safeWriter w4 = safeWriter w ->
            handed w4 = handed w ->
            tasks d1 = tasks (view w) ++ [task] ->
            accepted w
              (snd (saveTasks d1 o "dashboard-update" (commit o d1 w4))) ->
            findTask (id task)
              (view (at_time t
                 (snd (saveTasks d1 o "dashboard-update" (commit o d1 w4)))))
            = Some (length (tasks (view w)), task)).
  { intros d1 w4 Hf4 Hw4 Hh4 Hd1 Hacc.
    assert (Hok : safeWriter (commit o d1 w4) (fst (pruneTaskData d1))
                    (tasksFile (commit o d1 w4)) = Written).
    { apply (accepted_save d1 o "dashboard-update" (commit o d1 w4) w);
        [destruct o; cbn; congruence ..|exact Hacc]. }
    destruct (saveTasks_accepted d1 o "dashboard-update" _ Hok)
      as (_ & Hf & Hc & _).
    rewrite view_uncached by exact Hc. rewrite Hf. cbn [disk_view].
    unfold findTask. rewrite prune_tasks, Hd1. apply list_find_Some.
    split; [|split].
    - rewrite lookup_pruned, lookup_app_r by lia.
      rewrite Nat.sub_diag. reflexivity.
    - reflexivity.
    - intros j y Hj Hlt. rewrite lookup_pruned in Hj.
      rewrite lookup_app_l in Hj by exact Hlt.
      destruct (tasks (view w) !! j) as [y0|] eqn:Hy0; [|discriminate].
      injection Hj as <-. destruct (pruneLogs_fields y0) as [-> _].
      rewrite Hid. apply Hfresh. apply list_elem_of_In.
      eapply list_elem_of_lookup_2; eauto. }
  destruct (truthy_str assignee); cbn [generateId];
    match goal with |- context [saveTasks ?d ?o ?r (commit ?o ?d ?w4)] =>
      pose proof (Hgoal d w4 Hfile Hsw Hhanded eq_refl) as Hg;
      destruct (saveTasks d o r (commit o d w4)) as [ok w5]
    end;
    cbn [fst snd] in *; intros Hacc; rewrite Hprune; split; auto.
Qed.

End CreateThenFind.

Lemma created_task_is_found_witness :
  let r := Tasks.createTask "Realign deflector" "" (Some "geordi") "general"
             "medium" (TaskLog.world2 Tasks.guarding) in
  Tasks.findTask "task-5000-r0" (Tasks.view (Tasks.at_time 9000%Z (snd r)))
    = Some (2, fst r).
Proof.
  apply (created_task_is_found "Realign deflector" "" (Some "geordi")
           "general" "medium" (TaskLog.world2 Tasks.guarding) 9000%Z).
  - eexists _, _. split; reflexivity.
  - intros x Hx. vm_compute in Hx.
    destruct Hx as [<-|[<-|[]]]; vm_compute; discriminate.
Defined.

(* ================================================================== *)
(** * Further properties: archive, listing, statistics                  *)
(* ================================================================== *)

Section ArchiveTheorems.
Import Js Tasks Archive.

Lemma filter_split_perm {A} (f : A -> bool) (l : list A) :
  Permutation l (List.filter f l ++ List.filter (fun x => negb (f x)) l).
Proof.
  induction l as [|x l IH]; [constructor|]. cbn [List.filter].
  destruct (f x); cbn [negb app].
  - constructor. exact IH.
  - eapply Permutation_trans; [|apply Permutation_middle].
    constructor. exact IH.
Qed.

Lemma filter_none {A} (f : A -> bool) (l : list A) :
  length (List.filter f l) = 0 ->
  List.filter (fun x => negb (f x)) l = l.
Proof.
  induction l as [|x l IH]; [reflexivity|]. cbn [List.filter].
  destruct (f x); cbn [negb length]; [discriminate|].
  intros H. rewrite (IH H). reflexivity.
Qed.

Lemma filter_kept_has_none {A} (f : A -> bool) (l : list A) :
  List.filter f (List.filter (fun x => negb (f x)) l) = [].
Proof.
  induction l as [|x l IH]; [reflexivity|]. cbn [List.filter].
  destruct (f x) eqn:Hf; cbn [negb]; [exact IH|].
  cbn [List.filter]. rewrite Hf. exact IH.
Qed.

(** X15: [archiveOldTasks] never loses a task and never loses an
    archived one: whatever the state of the archive file, every task of
    the document is afterwards in the document or in the archive file,
    and the tasks the file held before are still its first entries. *)
Theorem archive_loses_nothing cutoff d s :
  let r := archiveOldTasks cutoff d s in
  (forall t, In t (tasks d) ->
     In t (tasks (snd (fst r))) \/ In t (shelved (snd r))) /\
  (exists added, shelved (snd r) = shelved s ++ added).
Proof.
  unfold archiveOldTasks.
  set (toArchive := List.filter (stale cutoff) (tasks d)).
  set (toKeep := List.filter (fun t => negb (stale cutoff t)) (tasks d)).
  assert (Hsplit : forall t, In t (tasks d) -> In t toKeep \/ In t toArchive).
  { intros t Ht. subst toKeep toArchive.
    rewrite !filter_In. destruct (stale cutoff t); cbn; auto. }
  destruct (0 <? length toArchive) eqn:Hany.
  - destruct s as [[| |existing] [|] ns]; cbn [today canWrite fst snd shelved note];
      (split; [|first [exists toArchive; reflexivity | exists []; rewrite ?app_nil_r; reflexivity]]);
      intros t Ht; auto;
      destruct (Hsplit t Ht) as [Hk|Ha]; auto;
      right; rewrite ?in_app_iff; auto.
  - cbn [fst snd]. split; [|exists []; rewrite app_nil_r; reflexivity].
    intros t Ht. left. cbn [tasks with_tasks].
    apply Nat.ltb_ge in Hany.
    assert (Hlen : length toArchive = 0) by lia.
    subst toKeep. rewrite (filter_none _ _ Hlen). exact Ht.
Qed.

(** X16: when the archive file is absent or readable and can be written,
    [archiveOldTasks] splits the task list in two without reordering
    either part: the tasks that are done and were last updated before
    the cutoff go behind what the archive file held, the others stay in
    the document; together they are the old list up to order, and the
    count returned is the number archived. *)
Theorem archive_splits_by_age cutoff d s :
  today s <> BadArchive ->
  canWrite s = true ->
  let r := archiveOldTasks cutoff d s in
  let moved := List.filter (stale cutoff) (tasks d) in
  fst (fst r) = length moved /\
  tasks (snd (fst r)) = List.filter (fun t => negb (stale cutoff t)) (tasks d) /\
  shelved (snd r) = shelved s ++ moved /\
  Permutation (tasks d) (moved ++ tasks (snd (fst r))) /\
  (forall t, In t moved -> status t = "done" /\ (updatedAt t < cutoff)%Z) /\
  activity (snd (fst r)) = activity d.
Proof.
  intros Hbad Hw r moved. subst r moved. unfold archiveOldTasks.
  set (toArchive := List.filter (stale cutoff) (tasks d)).
  set (toKeep := List.filter (fun t => negb (stale cutoff t)) (tasks d)).
  assert (Hperm : Permutation (tasks d) (toArchive ++ toKeep))
    by apply filter_split_perm.
  assert (Hold : forall t, In t toArchive ->
            status t = "done" /\ (updatedAt t < cutoff)%Z).
  { intros t Ht. subst toArchive. apply filter_In in Ht.
    destruct Ht as [_ Hs]. unfold stale in Hs.
    apply andb_true_iff in Hs. destruct Hs as [H1 H2].
    apply String.eqb_eq in H1. apply Z.ltb_lt in H2. auto. }
  destruct (0 <? length toArchive) eqn:Hany.
  - destruct s as [[| |existing] cw ns]; cbn in Hw, Hbad; subst;
      try congruence; cbn [today canWrite fst snd shelved note tasks
                           with_tasks activity]; auto 8.
  - apply Nat.ltb_ge in Hany.
    assert (Hnil : toArchive = []) by (destruct toArchive; [auto|cbn in Hany; lia]).
    cbn [fst snd tasks with_tasks activity]. rewrite Hnil in *.
    rewrite app_nil_r. auto 8.
Qed.

(** X17: archiving is idempotent: after a run that archived everything
    it found (the count returned is the number of old completed tasks),
    a second run with the same cutoff finds nothing, returns 0, and
    leaves the document and the archive file as the first run left
    them. *)
Theorem archive_twice_is_once cutoff d s :
  let r := archiveOldTasks cutoff d s in
  fst (fst r) = length (List.filter (stale cutoff) (tasks d)) ->
  archiveOldTasks cutoff (snd (fst r)) (snd r) = (0, snd (fst r), snd r).
Proof.
  intros r. subst r.
  set (toArchive := List.filter (stale cutoff) (tasks d)).
  set (toKeep := List.filter (fun t => negb (stale cutoff t)) (tasks d)).
  assert (Hagain : forall s',
            archiveOldTasks cutoff (with_tasks toKeep d) s'
            = (0, with_tasks toKeep d, s')).
  { intros s'. unfold archiveOldTasks. cbn [tasks with_tasks].
    subst toKeep. rewrite filter_kept_has_none. cbn [length].
    replace (0 <? 0) with false by reflexivity.
    rewrite filter_none by (rewrite filter_kept_has_none; reflexivity).
    reflexivity. }
  assert (Hcases :
            (exists s', archiveOldTasks cutoff d s
                        = (length toArchive, with_tasks toKeep d, s')) \/
            (0 < length toArchive /\
             exists s', archiveOldTasks cutoff d s = (0, d, s'))).
  { unfold archiveOldTasks. fold toArchive toKeep.
    destruct (0 <? length toArchive) eqn:Hany; [|eauto].
    apply Nat.ltb_lt in Hany.
    destruct (today s); destruct (canWrite s); eauto. }
  destruct Hcases as [[s' ->]|[Hany [s' ->]]]; cbn [fst snd].
  - intros _. apply Hagain.
  - intros Hcount. lia.
Qed.

(** X18: the archive route writes only when there is something to
    write: when nothing is old enough to archive and nothing needs
    pruning, [POST /api/tasks/archive] answers [archived: 0, pruned:
    false], hands nothing to the safe writer and leaves the tasks file,
    the archive file and what [loadTasks] returns as they were. *)
Theorem archive_route_idle cutoff w s :
  List.filter (stale cutoff) (tasks (view w)) = [] ->
  snd (pruneTaskData (view w)) = false ->
  let r := archiveRoute cutoff w s in
  fst (fst r) = (0, false) /\ snd r = s /\ untouched w (snd (fst r)).
Proof.
  intros Hnone Hflag r. subst r.
  destruct (loadTasks_untouched w) as (o & w1 & Hload & Hun & _).
  unfold archiveRoute. rewrite Hload.
  assert (Harch : archiveOldTasks cutoff (view w) s = (0, view w, s)).
  { unfold archiveOldTasks. rewrite Hnone. cbn [length].
    replace (0 <? 0) with false by reflexivity.
    rewrite filter_none by (rewrite Hnone; reflexivity).
    destruct (view w); reflexivity. }
  rewrite Harch.
  pose proof (unflagged_prune_is_identity (view w) Hflag) as Hsame.
  destruct (pruneTaskData (view w)) as [d2 pruned] eqn:Hp.
  cbn [fst snd] in *. subst pruned d2. cbn [orb Nat.ltb Nat.leb].
  replace (0 <? 0) with false by reflexivity. cbn [orb].
  destruct Hun as (Hfile & Hh & Hv).
  assert (Hc : untouched w (commit o (view w) w1)).
  { unfold untouched. destruct o; cbn [commit]; [|auto].
    split; [exact Hfile|]. split; [exact Hh|].
    revert Hload Hv. unfold view, loadTasks, readTasksFile.
    destruct w as [t e n f [[c|] l] sw h co];
      destruct w1 as [t1 e1 n1 f1 [c1 l1] sw1 h1 co1]; cbn;
      [destruct (t - l <? TASKS_CACHE_TTL)%Z eqn:Hl|];
      try (destruct f; cbn; intros [= ? ? ? ? ? ? ? ? ?]; subst; cbn;
           rewrite ?Hl, ?Z.sub_diag; cbn; reflexivity);
      intros [= ? ? ? ? ? ? ? ? ?]; subst; cbn; rewrite ?Hl; reflexivity. }
  destruct (loadTasks_untouched (commit o (view w) w1))
    as (o' & w4 & Hload' & Hun' & _).
  rewrite Hload'. cbn [fst snd]. split; [reflexivity|]. split; [reflexivity|].
  destruct Hun' as (Hf' & Hh' & Hv'). destruct Hc as (Hf & Hh1 & Hv1).
  unfold untouched. repeat split; congruence.
Qed.

End ArchiveTheorems.

Lemma archive_splits_by_age_witness :
  let r := Archive.archiveOldTasks 5000%Z Archive.doc3 Archive.shelf0 in
  fst (fst r) = 1 /\
  Tasks.tasks (snd (fst r)) = [Tasks.task1] /\
  Archive.shelved (snd r) = [Archive.old_done].
Proof.
  destruct (archive_splits_by_age 5000%Z Archive.doc3 Archive.shelf0
              ltac:(discriminate) eq_refl) as (Hn & Hk & Hs & _).
  split; [exact Hn|]. split; [exact Hk|exact Hs].
Defined.

Lemma archive_twice_is_once_witness :
  let r := Archive.archiveOldTasks 5000%Z Archive.doc3 Archive.shelf0 in
  Archive.archiveOldTasks 5000%Z (snd (fst r)) (snd r)
    = (0, snd (fst r), snd r).
Proof.
  apply (archive_twice_is_once 5000%Z Archive.doc3 Archive.shelf0).
  reflexivity.
Defined.

Lemma archive_route_idle_witness :
  fst (fst (Archive.archiveRoute 500%Z (Tasks.world1 Tasks.blocking)
              Archive.shelf0)) = (0, false).
Proof.
  apply (archive_route_idle 500%Z (Tasks.world1 Tasks.blocking) Archive.shelf0);
    reflexivity.
Defined.

Section QueryTheorems.
Import Js Tasks TaskQuery.
Variable toLowerCase : string -> string.

Lemma filter_filter {A} (f g : A -> bool) (l : list A) :
  List.filter g (List.filter f l) = List.filter (fun x => f x && g x) l.
Proof.
  induction l as [|x l IH]; [reflexivity|]. cbn [List.filter].
  destruct (f x); cbn [List.filter andb]; [|exact IH].
  destruct (g x); rewrite IH; reflexivity.
Qed.

Lemma applyFilters_passes q ts :
  applyFilters toLowerCase q ts = List.filter (passes toLowerCase q) ts.
Proof.
  unfold applyFilters.
  set (p1 := fun t : Task =>
               match statusFilter q with
               | Some s => String.eqb s "" || String.eqb (status t) s
               | None => true
               end).
  set (p2 := fun t : Task =>
               match assigneeFilter q with
               | Some a =>
                   String.eqb a ""
                   || match assignee t with
                      | Some a0 => String.eqb a0 (toLowerCase a)
                      | None => false
                      end
               | None => true
               end).
  set (p3 := fun t : Task =>
               negb (excludeDone q) || negb (String.eqb (status t) "done")).
  assert (H1 : (if truthy_str (statusFilter q)
                then List.filter
                       (fun t => String.eqb (status t)
                                   (default "" (statusFilter q))) ts
                else ts) = List.filter p1 ts).
  { subst p1. unfold truthy_str. destruct (statusFilter q) as [s|];
      [|symmetry; apply filter_true].
    destruct (String.eqb s ""); cbn [negb orb default];
      [symmetry; apply filter_true|reflexivity]. }
  rewrite H1.
  assert (H2 : forall l,
            (if truthy_str (assigneeFilter q)
             then List.filter
                    (fun t =>
                       match assignee t with
                       | Some a =>
                           String.eqb a
                             (toLowerCase (default "" (assigneeFilter q)))
                       | None => false
                       end) l
             else l) = List.filter p2 l).
  { intros l. subst p2. unfold truthy_str.
    destruct (assigneeFilter q) as [a|]; [|symmetry; apply filter_true].
    destruct (String.eqb a ""); cbn [negb orb default];
      [symmetry; apply filter_true|reflexivity]. }
  rewrite H2.
  assert (H3 : forall l,
            (if excludeDone q
             then List.filter
                    (fun t => negb (String.eqb (status t) "done")) l
             else l) = List.filter p3 l).
  { intros l. subst p3. destruct (excludeDone q); cbn [negb orb];
      [reflexivity|symmetry; apply filter_true]. }
  rewrite H3, !filter_filter. apply filter_ext. intros t.
  unfold passes. subst p1 p2 p3. cbv beta.
  destruct (statusFilter q), (assigneeFilter q), (excludeDone q);
    rewrite ?andb_assoc; reflexivity.
Qed.

Lemma passes_matches q t :
  passes toLowerCase q t = true <-> matches toLowerCase q t.
Proof.
  unfold passes, matches. rewrite !andb_true_iff, !orb_true_iff.
  assert (H1 : match statusFilter q with
               | Some s => String.eqb s "" || String.eqb (status t) s
               | None => true
               end = true
               <-> (forall s, statusFilter q = Some s -> s <> "" ->
                      status t = s)).
  { destruct (statusFilter q) as [s|]; [|split; [discriminate|reflexivity]].
    rewrite orb_true_iff, !String.eqb_eq. split.
    - intros [He|He] s0 [= <-] Hne; [contradiction|exact He].
    - intros H. destruct (String.eqb_spec s ""); [auto|].
      right. apply H; auto. }
  assert (H2 : match assigneeFilter q with
               | Some a =>
                   String.eqb a ""
                   || match assignee t with
                      | Some a0 => String.eqb a0 (toLowerCase a)
                      | None => false
                      end
               | None => true
               end = true
               <-> (forall a, assigneeFilter q = Some a -> a <> "" ->
                      assignee t = Some (toLowerCase a))).
  { destruct (assigneeFilter q) as [a|]; [|split; [discriminate|reflexivity]].
    rewrite orb_true_iff, String.eqb_eq.
    assert (Ha : match assignee t with
                 | Some a0 => String.eqb a0 (toLowerCase a)
                 | None => false
                 end = true <-> assignee t = Some (toLowerCase a)).
    { destruct (assignee t) as [a0|]; [|split; discriminate].
      rewrite String.eqb_eq. split; congruence. }
    rewrite Ha. split.
    - intros [He|He] a0 [= <-] Hne; [contradiction|exact He].
    - intros H. destruct (String.eqb_spec a ""); [auto|].
      right. apply H; auto. }
  rewrite H1, H2, !negb_true_iff, String.eqb_neq.
  destruct (excludeDone q); split.
  - intros ((Ha & Hb) & [Hc|Hc]); [discriminate|]. auto.
  - intros (Ha & Hb & Hc). auto.
  - intros ((Ha & Hb) & _). repeat split; auto.
  - intros (Ha & Hb & _). auto.
Qed.

(** X19: [GET /api/tasks] lists the tasks of the document that pass
    every filter given (status, assignee equal to the parameter as the
    engine lowercases it, not done) and no others, each as often as the
    document has it and in the document's order, then cut to the page by
    offset and limit; with neither a positive offset nor a positive
    limit the answer is that whole list; [pagination.total] is its
    length before paging. *)
Theorem listTasks_filters q d :
  (forall t, passes toLowerCase q t = true <-> matches toLowerCase q t) /\
  fst (listTasks toLowerCase q d)
    = paginate q (List.filter (passes toLowerCase q) (tasks d)) /\
  ((limit q <= 0)%Z -> (offset q <= 0)%Z ->
   fst (listTasks toLowerCase q d)
     = List.filter (passes toLowerCase q) (tasks d)) /\
  total (snd (listTasks toLowerCase q d))
    = length (List.filter (passes toLowerCase q) (tasks d)).
Proof.
  split; [intros t; apply passes_matches|].
  unfold listTasks. cbn [fst snd total]. rewrite applyFilters_passes.
  split; [reflexivity|]. split; [|reflexivity].
  intros Hl Ho. unfold paginate.
  destruct (0 <? offset q)%Z eqn:Hoff; [apply Z.ltb_lt in Hoff; lia|].
  destruct (0 <? limit q)%Z eqn:Hlim; [apply Z.ltb_lt in Hlim; lia|].
  reflexivity.
Qed.

(** X20: paging covers the filtered list without gaps or overlaps: for
    an offset of 0 or more and a positive limit, the page is the [limit]
    tasks that follow the first [offset] filtered ones (fewer at the
    end), the page followed by what lies beyond it is what lies beyond
    the offset, and [hasMore] is true exactly when something lies beyond
    the page. *)
Theorem listTasks_pages q d :
  (0 <= offset q)%Z ->
  (0 < limit q)%Z ->
  let filtered := applyFilters toLowerCase q (tasks d) in
  let o := Z.to_nat (offset q) in
  let n := Z.to_nat (limit q) in
  fst (listTasks toLowerCase q d) = take n (drop o filtered) /\
  length (fst (listTasks toLowerCase q d)) <= n /\
  fst (listTasks toLowerCase q d) ++ drop (o + n) filtered = drop o filtered /\
  (hasMore (snd (listTasks toLowerCase q d)) = true
   <-> drop (o + n) filtered <> []) /\
  pg_limit (snd (listTasks toLowerCase q d)) = limit q.
Proof.
  intros Hoff Hlim filtered o n.
  assert (Hpage : fst (listTasks toLowerCase q d) = take n (drop o filtered)).
  { unfold listTasks, paginate. cbn [fst]. fold filtered.
    apply Z.ltb_lt in Hlim. rewrite Hlim. fold n.
    destruct (0 <? offset q)%Z eqn:Ho; [reflexivity|].
    apply Z.ltb_ge in Ho. subst o.
    replace (offset q) with 0%Z by lia. reflexivity. }
  split; [exact Hpage|]. rewrite Hpage.
  split; [rewrite length_take; lia|].
  split.
  { rewrite <- (take_drop n (drop o filtered)) at 2.
    rewrite drop_drop. reflexivity. }
  split.
  - unfold listTasks. cbn [snd hasMore]. fold filtered.
    change (paginate q filtered) with (fst (listTasks toLowerCase q d)).
    rewrite Hpage.
    rewrite length_take, length_drop. rewrite Z.ltb_lt.
    assert (Hnil : drop (o + n) filtered <> [] <-> o + n < length filtered).
    { split.
      - intros Hne. destruct (Nat.lt_ge_cases (o + n) (length filtered));
          [assumption|]. exfalso. apply Hne. apply drop_ge. lia.
      - intros Hlt Hd. apply (f_equal length) in Hd.
        rewrite length_drop in Hd. cbn in Hd. lia. }
    rewrite Hnil. subst o n. lia.
  - unfold listTasks. cbn [snd pg_limit].
    destruct (limit q =? 0)%Z eqn:Hz; [apply Z.eqb_eq in Hz; lia|reflexivity].
Qed.

Lemma string_app_assoc (a b c : string) : (a +:+ b) +:+ c = a +:+ (b +:+ c).
Proof.
  induction a as [|x a IH]; [reflexivity|].
  change (String x ((a +:+ b) +:+ c) = String x (a +:+ (b +:+ c))).
  rewrite IH. reflexivity.
Qed.

Lemma string_snoc_nonempty (a : string) : String.eqb (a +:+ "1") "" = false.
Proof. destruct a; reflexivity. Qed.

Lemma ones_nonempty (text : string) k :
  String.eqb (text +:+ ones (S k)) "" = false.
Proof.
  change (ones (S k)) with (ones k +:+ "1").
  rewrite <- string_app_assoc. apply string_snoc_nonempty.
Qed.

(** What the loop has put under a key after [n] tasks with that status,
    for a key that is not [__proto__]. *)
Lemma countStatus_fold s ts :
  s <> "__proto__" ->
  foldl countStatus ∅ ts !! s
    = let n := length (List.filter (fun t => String.eqb (status t) s) ts) in
      if n =? 0 then None
      else match inheritedText s with
           | None => Some (Count n)
           | Some text => Some (Text (text +:+ ones n))
           end.
Proof.
  intros Hs. induction ts as [|t ts IH] using rev_ind; [reflexivity|].
  rewrite foldl_app. cbn [foldl]. rewrite List.filter_app, length_app.
  cbn [List.filter]. unfold countStatus at 1.
  destruct (String.eqb_spec (status t) s) as [->|Hne].
  - destruct (String.eqb_spec s "__proto__") as [|_]; [contradiction|].
    rewrite lookup_insert_eq, IH. cbn [length]. cbn zeta.
    set (n := length (List.filter _ ts)).
    replace (n + 1) with (S n) by lia. cbn [Nat.eqb].
    destruct n as [|k]; cbn [Nat.eqb bumped].
    + destruct (inheritedText s); reflexivity.
    + destruct (inheritedText s) as [text|]; [|reflexivity].
      unfold bumped. cbn [truthy].
      rewrite (ones_nonempty text k). cbn [negb].
      change (ones (S (S k))) with (ones (S k) +:+ "1").
      rewrite <- string_app_assoc. reflexivity.
  - cbn [length]. rewrite Nat.add_0_r.
    destruct (String.eqb (status t) "__proto__"); [exact IH|].
    rewrite lookup_insert_ne by exact Hne. exact IH.
Qed.

Lemma countStatus_proto ts : foldl countStatus ∅ ts !! "__proto__" = None.
Proof.
  induction ts as [|t ts IH] using rev_ind; [reflexivity|].
  rewrite foldl_app. cbn [foldl]. unfold countStatus at 1.
  destruct (String.eqb_spec (status t) "__proto__") as [|Hne]; [exact IH|].
  rewrite lookup_insert_ne by exact Hne. exact IH.
Qed.

(** X21: [tasksByStatus] of [GET /api/tasks/stats] has no key for a
    status that no task carries, and for a status that some task carries
    the number of tasks carrying it, unless the status is the name of a
    property that the object inherits: under the name of an inherited
    function ("constructor", "toString", ...) it has a text, the
    function's source followed by one "1" for each such task, and it
    never has the key [__proto__]. *)
Theorem tasksByStatus_counts d s :
  let n := withStatus s d in
  (n = 0 -> tasksByStatus d !! s = None) /\
  (0 < n -> inheritedText s = None ->
   tasksByStatus d !! s = Some (Count n)) /\
  (forall text,
     0 < n -> s <> "__proto__" -> inheritedText s = Some text ->
     tasksByStatus d !! s = Some (Text (text +:+ ones n))) /\
  tasksByStatus d !! "__proto__" = None.
Proof.
  cbn zeta. unfold tasksByStatus, withStatus.
  split; [|split; [|split]].
  - intros Hn. destruct (String.eqb_spec s "__proto__") as [->|Hs];
      [apply countStatus_proto|].
    rewrite (countStatus_fold s _ Hs). cbn zeta. rewrite Hn. reflexivity.
  - intros Hn Hi.
    assert (Hs : s <> "__proto__") by (intros ->; discriminate Hi).
    rewrite (countStatus_fold s _ Hs). cbn zeta. rewrite Hi.
    destruct (length _); [lia|reflexivity].
  - intros text Hn Hs Hi.
    rewrite (countStatus_fold s _ Hs). cbn zeta. rewrite Hi.
    destruct (length _); [lia|reflexivity].
  - apply countStatus_proto.
Qed.

Lemma sum_fold_bound {A} (f : A -> nat) (b : nat) (l : list A) :
  Forall (fun x => f x <= b) l ->
  forall acc, foldl (fun sum x => sum + f x) acc l <= acc + b * length l.
Proof.
  induction 1 as [|x l Hx Hl IH]; intros acc; cbn [foldl length]; [lia|].
  specialize (IH (acc + f x)). lia.
Qed.

(** X22: the statistics of a document that went through [saveTasks] are
    bounded by the number of its tasks: at most 500 activity entries and
    at most 50 logs per task in total. *)
Theorem stats_of_saved_document d :
  let saved := fst (pruneTaskData d) in
  length (activity saved) <= 500 /\
  length (tasks saved) = length (tasks d) /\
  totalLogs saved <= 50 * length (tasks d).
Proof.
  cbn zeta. rewrite prune_activity, prune_tasks.
  split; [unfold slice_last; rewrite length_drop;
          unfold MAX_ACTIVITY_ENTRIES; lia|].
  split; [apply length_map|].
  unfold totalLogs. rewrite prune_tasks.
  rewrite <- (length_map (fun t => fst (pruneLogs t)) (tasks d)).
  apply (sum_fold_bound (fun t => length (default [] (logs t))) 50
           (map (fun t => fst (pruneLogs t)) (tasks d))).
  apply Forall_forall. intros t Ht.
  apply list_elem_of_In, in_map_iff in Ht. destruct Ht as (t0 & <- & _).
  rewrite pruneLogs_logs. destruct (logs t0) as [ls|]; cbn; [|lia].
  unfold slice_last. rewrite length_drop. unfold MAX_LOGS_PER_TASK. lia.
Qed.

End QueryTheorems.

Lemma listTasks_pages_witness :
  fst (TaskQuery.listTasks Js.asciiLowerCase
         (TaskQuery.mkQuery 1 1 None None false) TaskLog.doc2)
  = [TaskLog.task2].
Proof.
  apply (listTasks_pages Js.asciiLowerCase
           (TaskQuery.mkQuery 1 1 None None false) TaskLog.doc2);
    cbn; lia.
Defined.

Lemma tasksByStatus_counts_witness :
  TaskQuery.tasksByStatus TaskQuery.odd_statuses !! "constructor"
    = Some (TaskQuery.Text "function Object() { [native code] }11") /\
  TaskQuery.tasksByStatus TaskQuery.odd_statuses !! "inbox"
    = Some (TaskQuery.Count 1).
Proof.
  split.
  - apply (proj1 (proj2 (proj2
             (tasksByStatus_counts TaskQuery.odd_statuses "constructor")))
             "function Object() { [native code] }");
      [vm_compute; lia|discriminate|reflexivity].
  - apply (proj1 (proj2
             (tasksByStatus_counts TaskQuery.odd_statuses "inbox")));
      [vm_compute; lia|reflexivity].
Defined.

(* ================================================================== *)
(** * Further properties: message store                                 *)
(* ================================================================== *)

Section MailTheorems.
Import Js Messages Mail.
Variable toLowerCase : string -> string.

Lemma loadMessages_untouched w :
  exists o w1,
    loadMessages w = (view w, o, w1) /\ untouched w w1 /\
    now w1 = now w /\ entropy w1 = entropy w /\ drawn w1 = drawn w /\
    writable w1 = writable w.
Proof.
  unfold untouched, view, loadMessages, readMessagesFile.
  destruct w as [t e n f [[c|] l] wr h co]; cbn;
    [destruct (t - l <? MESSAGES_CACHE_TTL)%Z eqn:Hl|]; try destruct f;
    eexists _, _; (split; [reflexivity|]); cbn;
    rewrite ?Hl, ?Z.sub_diag; cbn; auto 10.
Qed.

Lemma view_at_log t lvl msg w :
  view (at_time t (log lvl msg w)) = view (at_time t w).
Proof.
  unfold view, loadMessages, readMessagesFile.
  destruct w as [t0 e n f [[c|] l] wr h co]; cbn;
    [destruct (t - l <? MESSAGES_CACHE_TTL)%Z|]; destruct f; reflexivity.
Qed.

Lemma saved_messages_read_back d o w t :
  writable w = true ->
  view (at_time t (snd (saveMessages d o w)))
    = mkDoc (version d) (now w) (messages d).
Proof.
  intros Hw. unfold saveMessages. rewrite Hw.
  destruct o; reflexivity.
Qed.

(** X23: for a message id that no message carries, [updateMessage],
    [deleteMessage] and the reply route each give [null] (answered as
    404) and leave the store as it was: nothing is written and
    [loadMessages] returns the same document. *)
Theorem missing_message_untouched messageId updates from text complete w :
  (forall m, In m (messages (view w)) -> m_id m <> messageId) ->
  (fst (updateMessage messageId updates w) = None /\
   untouched w (snd (updateMessage messageId updates w))) /\
  (fst (deleteMessage messageId w) = None /\
   untouched w (snd (deleteMessage messageId w))) /\
  (fst (replyToMessage messageId from text complete w) = None /\
   untouched w (snd (replyToMessage messageId from text complete w))).
Proof.
  intros Habs.
  assert (Hnone : findMessage messageId (view w) = None).
  { unfold findMessage. apply list_find_None. apply Forall_forall.
    intros m Hm. apply Habs. apply list_elem_of_In. exact Hm. }
  destruct (loadMessages_untouched w) as (o & w1 & Hload & Hun & _).
  unfold updateMessage, deleteMessage, replyToMessage.
  rewrite Hload, Hnone. cbn [fst snd]. auto 10.
Qed.

Lemma filter_length_le {A} (f : A -> bool) (l : list A) :
  length (List.filter f l) <= length l.
Proof.
  induction l as [|x l IH]; [reflexivity|]. cbn [List.filter].
  destruct (f x); cbn [length]; lia.
Qed.

Lemma addressed_sum (names : list string) (ms : list Message) :
  NoDup names ->
  foldr (fun entry sum => total (snd entry) + sum) 0
        (map (fun agent => (agent, countOf (sentTo agent ms))) names)
  = length (List.filter
              (fun m => existsb (String.eqb (m_to m)) names) ms).
Proof.
  induction names as [|a names IH]; intros Hnd.
  - cbn. induction ms as [|m ms IHm]; [reflexivity|exact IHm].
  - apply NoDup_cons in Hnd. destruct Hnd as [Ha Hnd].
    cbn [map foldr snd countOf total]. rewrite (IH Hnd). clear IH.
    unfold sentTo. cbn [existsb].
    induction ms as [|m ms IHm]; [reflexivity|].
    cbn [List.filter].
    destruct (String.eqb_spec (m_to m) a) as [Heq|Hne]; cbn [orb length].
    + assert (Hrest : existsb (String.eqb (m_to m)) names = false).
      { apply not_true_is_false. intros Hex. apply existsb_exists in Hex.
        destruct Hex as (x & Hx & Hxe). apply String.eqb_eq in Hxe.
        apply Ha. apply list_elem_of_In. congruence. }
      rewrite Hrest. lia.
    + destruct (existsb (String.eqb (m_to m)) names); cbn [length]; lia.
Qed.

(** X24: the counts of [getMessageCounts] are consistent: unread and
    pending never exceed the total, there is one entry for each of the
    thirteen listed agents, holding the counts of the messages sent to
    that agent, and the per-agent totals add up to the number of
    messages addressed to a listed agent, so to no more than the overall
    total; reading the counts writes nothing. *)
Theorem message_counts_consistent w :
  let c := fst (getMessageCounts w) in
  unread (overall c) <= total (overall c) /\
  pending (overall c) <= total (overall c) /\
  total (overall c) = length (messages (view w)) /\
  map fst (byAgent c) = agents /\
  (forall agent n, In (agent, n) (byAgent c) ->
     n = countOf (sentTo agent (messages (view w)))) /\
  addressed c
    = length (List.filter (fun m => existsb (String.eqb (m_to m)) agents)
                (messages (view w))) /\
  addressed c <= total (overall c) /\
  untouched w (snd (getMessageCounts w)).
Proof.
  destruct (loadMessages_untouched w) as (o & w1 & Hload & Hun & _).
  unfold getMessageCounts. rewrite Hload. cbn [fst snd overall byAgent].
  unfold countOf at 1 2 3 4 5 6. cbn [total unread pending].
  split; [apply filter_length_le|]. split; [apply filter_length_le|].
  split; [reflexivity|].
  split; [rewrite map_map; cbn [fst]; apply map_id|].
  split.
  { intros agent n Hin. apply in_map_iff in Hin.
    destruct Hin as (a & [= <- <-] & _). reflexivity. }
  assert (Hsum : addressed
            (mkMessageCounts (countOf (messages (view w)))
               (map (fun agent =>
                       (agent, countOf (sentTo agent (messages (view w)))))
                    agents))
          = length (List.filter
                      (fun m => existsb (String.eqb (m_to m)) agents)
                      (messages (view w)))).
  { unfold addressed. cbn [byAgent]. apply addressed_sum.
    unfold agents. repeat (apply NoDup_cons; split;
      [intros H; repeat (apply elem_of_cons in H; destruct H as [H|H];
                         [discriminate H|]); inversion H|]).
    apply NoDup_nil. trivial. }
  split; [exact Hsum|]. split; [|exact Hun].
  rewrite Hsum. apply filter_length_le.
Qed.

(** X25: sending a message shows in the counts: when the file write goes
    through, the counts read at any later time have one more message in
    total, one more unread and one more pending than before. *)
Theorem createMessage_bumps_counts from to subject content type taskId w t :
  writable w = true ->
  let before := overall (fst (getMessageCounts w)) in
  let after :=
    overall (fst (getMessageCounts
                    (at_time t
                       (snd (createMessage toLowerCase from to subject content type
                                           taskId w))))) in
  total after = S (total before) /\
  unread after = S (unread before) /\
  pending after = S (pending before).
Proof.
  intros Hw before after. subst before after.
  destruct (loadMessages_untouched w)
    as (o & w1 & Hload & Hun & Hnow & _ & _ & Hw1).
  assert (Hview : forall w0, fst (getMessageCounts w0)
                    = mkMessageCounts (countOf (messages (view w0)))
                        (map (fun agent =>
                                (agent, countOf (sentTo agent (messages (view w0)))))
                             agents)).
  { intros w0. destruct (loadMessages_untouched w0) as (o0 & w2 & Hl0 & _).
    unfold getMessageCounts. rewrite Hl0. reflexivity. }
  rewrite !Hview. cbn [overall].
  assert (Hafter : exists m,
            m_read m = false /\ m_status m = "pending" /\
            messages (view (at_time t
                        (snd (createMessage toLowerCase from to subject content type
                                            taskId w))))
            = messages (view w) ++ [m]).
  { unfold createMessage. rewrite Hload. cbn [generateId].
    match goal with |- context [saveMessages ?d ?o ?w'] =>
      pose proof (saved_messages_read_back d o w' t) as Hrb;
      destruct (saveMessages d o w') as [ok w3] end.
    cbn [fst snd] in *.
    eexists. split; [|split]; [| |
      rewrite view_at_log;
      rewrite Hrb by (destruct o; cbn; congruence); reflexivity];
    reflexivity. }
  destruct Hafter as (m & Hr & Hs & ->).
  unfold countOf. cbn [total unread pending].
  rewrite !List.filter_app, !length_app. cbn [List.filter].
  rewrite Hr, Hs. cbn. lia.
Qed.

(** X26: a reply to a message that is found is returned to the caller
    and stored last among the message's replies (a list started when the
    message had none); the message becomes "completed" when the reply is
    marked complete and "acknowledged" otherwise, and every other
    message is written back unchanged. *)
Theorem reply_settles_message messageId from text complete w msgIndex m :
  findMessage messageId (view w) = Some (msgIndex, m) ->
  exists r d' m',
    fst (replyToMessage messageId from text complete w) = Some r /\
    r_from r = from /\ r_text r = text /\ r_timestamp r = now w /\
    handed (snd (replyToMessage messageId from text complete w))
      = handed w ++ [d'] /\
    messages d' = <[msgIndex := m']> (messages (view w)) /\
    m_replies m' = Some (default [] (m_replies m) ++ [r]) /\
    m_status m' = (if complete then "completed" else "acknowledged") /\
    m_id m' = m_id m /\ m_read m' = m_read m.
Proof.
  intros Hfind.
  destruct (loadMessages_untouched w)
    as (o & w1 & Hload & (_ & Hh & _) & Hnow & _).
  unfold replyToMessage. rewrite Hload, Hfind.
  match goal with |- context [saveMessages ?d ?o ?w'] =>
    destruct (saveMessages_spec d o w') as [Hs _];
    destruct (saveMessages d o w') as [ok w3] end.
  cbn [fst snd] in *.
  eexists _, _, _. split; [reflexivity|].
  split; [reflexivity|]. split; [reflexivity|]. split; [exact Hnow|].
  split.
  { unfold log. cbn [handed]. rewrite Hs. f_equal.
    destruct o; cbn; exact Hh. }
  cbn [messages with_messages]. split; [reflexivity|].
  repeat (split; [reflexivity|]). reflexivity.
Qed.

(** X27: sending then deleting: when the file writes go through and no
    message of the document already carries the generated id, deleting
    the message that [createMessage] returned gives that message back
    and leaves the message list as it was before the two calls. *)
Theorem create_then_delete_message from to subject content type taskId w t t' :
  writable w = true ->
  (forall m, In m (messages (view w)) ->
     m_id m <> m_id (fst (createMessage toLowerCase from to subject content type taskId w))) ->
  let sent := createMessage toLowerCase from to subject content type taskId w in
  let gone := deleteMessage (m_id (fst sent)) (at_time t (snd sent)) in
  fst gone = Some (fst sent) /\
  messages (view (at_time t' (snd gone))) = messages (view w).
Proof.
  intros Hw Hfresh sent gone. subst gone sent.
  destruct (loadMessages_untouched w)
    as (o & w1 & Hload & Hun & Hnow & _ & _ & Hw1).
  revert Hfresh. unfold createMessage. rewrite Hload. cbn [generateId].
  match goal with |- context [saveMessages ?d ?o ?w'] =>
    pose proof (saved_messages_read_back d o w' t) as Hrb;
    assert (Hwr : writable (snd (saveMessages d o w')) = true)
      by (unfold saveMessages;
          replace (writable w') with true by (destruct o; cbn; congruence);
          destruct o; cbn; congruence);
    destruct (saveMessages d o w') as [ok w3] end.
  cbn [fst snd] in *. intros Hfresh.
  set (m := mkMessage _ _ _ type subject content _ false "pending" taskId
                      None None) in *.
  specialize (Hrb ltac:(destruct o; cbn; congruence)).
  cbn [version messages] in Hrb.
  set (w4 := at_time t (log "INFO" "Message created:" w3)).
  assert (Hv4 : view w4 = mkDoc (version (view w)) (now w1)
                            (messages (view w) ++ [m])).
  { subst w4. rewrite view_at_log, Hrb. destruct o; reflexivity. }
  assert (Hfind : findMessage (m_id m) (view w4)
                  = Some (length (messages (view w)), m)).
  { rewrite Hv4. unfold findMessage. cbn [messages]. apply list_find_Some.
    split; [|split].
    - rewrite lookup_app_r by lia. rewrite Nat.sub_diag. reflexivity.
    - reflexivity.
    - intros j y Hj Hlt. rewrite lookup_app_l in Hj by exact Hlt.
      apply Hfresh. apply list_elem_of_In.
      eapply list_elem_of_lookup_2; eauto. }
  destruct (loadMessages_untouched w4)
    as (o4 & w5 & Hload4 & _ & _ & _ & _ & Hw5).
  unfold deleteMessage. rewrite Hload4, Hfind.
  match goal with |- context [saveMessages ?d ?o ?w'] =>
    pose proof (saved_messages_read_back d o w' t') as Hrb2;
    destruct (saveMessages d o w') as [ok2 w6] end.
  cbn [fst snd] in *. split; [reflexivity|].
  rewrite Hrb2.
  - cbn [messages with_messages]. rewrite Hv4. cbn [messages].
    rewrite (delete_middle (messages (view w)) [] m). apply app_nil_r.
  - destruct o4; cbn; rewrite Hw5; subst w4; cbn; exact Hwr.
Qed.

End MailTheorems.

Lemma missing_message_untouched_witness :
  fst (Mail.deleteMessage "msg-404" Messages.world1) = None.
Proof.
  apply (missing_message_untouched "msg-404" Mail.mark_read "data" "Aye."
           false Messages.world1).
  intros m Hm. vm_compute in Hm. destruct Hm as [<-|[]].
  vm_compute. discriminate.
Defined.

Lemma createMessage_bumps_counts_witness :
  Mail.total
    (Mail.overall
       (fst (Mail.getMessageCounts
               (Mail.at_time 9000%Z
                  (snd (Messages.createMessage Js.asciiLowerCase "Seven" "GEORDI" "Shields" ""
                          "request" None Messages.world1))))))
  = 2.
Proof.
  apply (createMessage_bumps_counts Js.asciiLowerCase "Seven" "GEORDI" "Shields" "" "request"
           None Messages.world1 9000%Z eq_refl).
Defined.

Lemma reply_settles_message_witness :
  exists r,
    fst (Mail.replyToMessage "msg-1000-r0" "geordi" "On it." true
           Messages.world1) = Some r /\
    Messages.r_text r = "On it.".
Proof.
  destruct (reply_settles_message "msg-1000-r0" "geordi" "On it." true
              Messages.world1 0 Messages.hail eq_refl)
    as (r & d' & m' & Hres & _ & Htext & _).
  exists r. split; assumption.
Defined.

Lemma create_then_delete_message_witness :
  let sent := Messages.createMessage Js.asciiLowerCase "Seven" "GEORDI" "Shields" "" "request"
                None Messages.world1 in
  Messages.messages
    (Messages.view
       (Mail.at_time 9500%Z
          (snd (Mail.deleteMessage (Messages.m_id (fst sent))
                  (Mail.at_time 9000%Z (snd sent))))))
  = [Messages.hail].
Proof.
  apply (create_then_delete_message Js.asciiLowerCase "Seven" "GEORDI" "Shields" "" "request"
           None Messages.world1 9000%Z 9500%Z eq_refl).
  intros m Hm. vm_compute in Hm. destruct Hm as [<-|[]].
  vm_compute. discriminate.
Defined.

(* ================================================================== *)
(** * Further properties: broadcast hub, keepalive, crew routing        *)
(* ================================================================== *)

Section HubFurther.
Import Hub.

Lemma advance_clients t st : clients (advance t st) = clients st.
Proof.
  unfold advance, flush. destruct (broadcastTimeout st) as [due|]; [|reflexivity].
  destruct (due <=? t)%Z; [|reflexivity].
  destruct (broadcastQueue st); reflexivity.
Qed.

Lemma advance_pending t st due :
  broadcastTimeout (advance t st) = Some due ->
  broadcastTimeout st = Some due.
Proof.
  unfold advance, flush.
  destruct (broadcastTimeout st) as [d0|] eqn:Hd;
    [|intros H; rewrite Hd in H; exact H].
  destruct (d0 <=? t)%Z; [|intros H; rewrite Hd in H; exact H].
  destruct (broadcastQueue st); cbn; intros H; discriminate H.
Qed.

Lemma run_leaves_last_queued calls : forall st bound,
  (forall due, broadcastTimeout st = Some due -> (due <= bound)%Z) ->
  Forall (fun call => (fst call + DEBOUNCE <= bound)%Z) calls ->
  forall c, 
  let s := run (c :: calls) st in
  (fst c + DEBOUNCE <= bound)%Z ->
  broadcastQueue s = Some (snd (List.last calls c)) /\
  (exists due, broadcastTimeout s = Some due /\ (due <= bound)%Z) /\
  clients s = clients st.
Proof.
  induction calls as [|c' rest IH]; intros st bound Hst Hall c s Hc; subst s.
  - rewrite run_cons. cbn [run foldl List.last].
    unfold broadcast. cbn [broadcastQueue broadcastTimeout clients].
    split; [reflexivity|]. split; [|apply advance_clients].
    destruct (broadcastTimeout (advance (fst c) st)) as [due|] eqn:Hd.
    + exists due. split; [reflexivity|]. apply Hst.
      eapply advance_pending; eauto.
    + eexists. split; [reflexivity|]. exact Hc.
  - rewrite run_cons. apply Forall_cons in Hall. destruct Hall as [Hc' Hrest].
    set (s1 := broadcast (snd c) (fst c) (advance (fst c) st)).
    assert (Hs1 : forall due, broadcastTimeout s1 = Some due -> (due <= bound)%Z).
    { subst s1. unfold broadcast. cbn [broadcastTimeout].
      destruct (broadcastTimeout (advance (fst c) st)) as [d0|] eqn:Hd;
        intros due [= <-]; [|exact Hc].
      apply Hst. eapply advance_pending; eauto. }
    destruct (IH s1 bound Hs1 Hrest c' Hc') as (Hq & Hdue & Hcl).
    assert (Hlast : List.last (c' :: rest) c = List.last rest c').
    { destruct rest as [|y r]; [reflexivity|].
      change (List.last (c' :: y :: r) c) with (List.last (y :: r) c).
      apply last_cons_default. }
    rewrite Hlast.
    split; [exact Hq|]. split; [exact Hdue|].
    rewrite Hcl. subst s1. unfold broadcast. cbn [clients].
    apply advance_clients.
Qed.

(** X28: the latest broadcast always gets through: whatever was queued
    or pending before, once 100 ms have passed after the last of a
    series of [broadcast] calls, the timer has run and the last thing
    sent to every open client is the frame of the last call; the queue
    and the timer are then clear. *)
Theorem last_broadcast_delivered st c calls tl tEnd :
  (forall due, broadcastTimeout st = Some due -> (due <= tl + DEBOUNCE)%Z) ->
  Forall (fun call => (fst call <= tl)%Z) (c :: calls) ->
  (tl + DEBOUNCE <= tEnd)%Z ->
  let lastFrame := snd (List.last calls c) in
  let final := advance tEnd (run (c :: calls) st) in
  outbox final
    = outbox (run (c :: calls) st) ++
      map (fun cl => (cid cl, lastFrame)) (List.filter is_open (clients st)) /\
  broadcastQueue final = None /\ broadcastTimeout final = None.
Proof.
  intros Hst Hall Hend lastFrame final.
  apply Forall_cons in Hall. destruct Hall as [Hc Hrest].
  destruct (run_leaves_last_queued calls st (tl + DEBOUNCE)%Z Hst
              ltac:(eapply Forall_impl; [exact Hrest|cbn; intros; lia])
              c ltac:(lia)) as (Hq & (due & Hdue & Hle) & Hcl).
  subst final. unfold advance. rewrite Hdue.
  destruct (due <=? tEnd)%Z eqn:Hfire; [|apply Z.leb_gt in Hfire; lia].
  unfold flush. rewrite Hq, Hcl. cbn [outbox broadcastQueue broadcastTimeout].
  auto.
Qed.

End HubFurther.

Lemma last_broadcast_delivered_witness :
  Hub.broadcastQueue (Hub.advance 300 (Hub.run Hub.burst Hub.bridge)) = None.
Proof.
  apply (last_broadcast_delivered Hub.bridge (0%Z, Hub.mkFrame "tasks_update" "0")
           (tl Hub.burst) 45 300).
  - intros due H. discriminate H.
  - vm_compute. repeat constructor; discriminate.
  - vm_compute. discriminate.
Defined.

Section KeepaliveTheorems.
Import Keepalive.

Lemma pong_other s i st :
  i <> s ->
  forall ws, sid ws = s -> In ws (sockets (pong i st)) <-> In ws (sockets st).
Proof.
  intros Hne ws Hs. unfold pong. cbn [sockets]. rewrite in_map_iff. split.
  - intros (x & Hx & Hin). destruct (Nat.eqb_spec (sid x) i) as [He|_].
    + subst ws. cbn in Hs. congruence.
    + subst x. exact Hin.
  - intros Hin. exists ws. split; [|exact Hin].
    destruct (Nat.eqb_spec (sid ws) i); [congruence|reflexivity].
Qed.

Lemma pongs_other s ids : forall st,
  ~ In s ids ->
  forall ws, sid ws = s -> In ws (sockets (pongs ids st)) <-> In ws (sockets st).
Proof.
  induction ids as [|i ids IH]; intros st Hn ws Hs; [reflexivity|].
  assert (Hn' : ~ In s ids) by (cbn in Hn; tauto).
  assert (Hi : i <> s) by (cbn in Hn; intros ->; apply Hn; auto).
  change (pongs (i :: ids) st) with (pongs ids (pong i st)).
  rewrite (IH (pong i st) Hn' ws Hs). apply (pong_other s i st Hi ws Hs).
Qed.

Lemma pongs_log ids : forall st,
  pinged (pongs ids st) = pinged st /\
  terminated (pongs ids st) = terminated st /\
  clients (pongs ids st) = clients st /\
  map sid (sockets (pongs ids st)) = map sid (sockets st).
Proof.
  induction ids as [|i ids IH]; intros st; [auto|].
  change (pongs (i :: ids) st) with (pongs ids (pong i st)).
  destruct (IH (pong i st)) as (-> & -> & -> & ->).
  unfold pong. cbn [pinged terminated clients sockets].
  repeat split. rewrite map_map. apply map_ext.
  intros ws. destruct (Nat.eqb (sid ws) i); reflexivity.
Qed.

(** X29: a connection that stops answering is dropped at the second
    ping round: a socket that is alive at one round is pinged there, and
    if no pong of its own arrives before the next round (whatever the
    other sockets answer) that round terminates it and takes it out of
    both the socket set and the server's client set; while a socket
    whose pong arrives between the rounds is kept. *)
Theorem silent_socket_dropped st s others :
  In (mkSocket s true) (sockets st) ->
  ~ In s others ->
  let st1 := tick st in
  let st2 := tick (pongs others st1) in
  In s (pinged st1) /\
  In s (terminated st2) /\
  ~ connected s st2 /\ ~ In s (clients st2) /\
  connected s (tick (pongs (s :: others) st1)).
Proof.
  intros Hin Hn st1 st2.
  assert (H1 : In (mkSocket s false) (sockets st1)).
  { subst st1. unfold tick. cbn [sockets]. apply in_map_iff.
    exists (mkSocket s true). split; [reflexivity|].
    apply filter_In. split; [exact Hin|reflexivity]. }
  assert (Huniq : forall ws, In ws (sockets st1) -> sid ws = s ->
                    ws = mkSocket s false).
  { subst st1. unfold tick. cbn [sockets]. intros ws Hws Hs.
    apply in_map_iff in Hws. destruct Hws as (x & <- & Hx).
    cbn in Hs. rewrite Hs. reflexivity. }
  assert (H2 : In (mkSocket s false) (sockets (pongs others st1))).
  { apply (pongs_other s others st1 Hn); [reflexivity|exact H1]. }
  assert (Hall : forall ws, In ws (sockets (pongs others st1)) ->
                   sid ws = s -> isAlive ws = false).
  { intros ws Hws Hs. apply (pongs_other s others st1 Hn) in Hws; [|exact Hs].
    rewrite (Huniq ws Hws Hs). reflexivity. }
  split.
  { subst st1. unfold tick. cbn [pinged]. apply in_or_app. right.
    apply in_map_iff. exists (mkSocket s true). split; [reflexivity|].
    apply filter_In. split; [exact Hin|reflexivity]. }
  split.
  { subst st2. unfold tick. cbn [terminated]. apply in_or_app. right.
    apply in_map_iff. exists (mkSocket s false). split; [reflexivity|].
    apply filter_In. split; [exact H2|reflexivity]. }
  split.
  { subst st2. unfold connected, tick. cbn [sockets]. rewrite map_map.
    cbn [sid]. intros Hc. apply in_map_iff in Hc.
    destruct Hc as (ws & Hs & Hws). apply filter_In in Hws.
    destruct Hws as [Hws Hal]. rewrite (Hall ws Hws Hs) in Hal.
    discriminate. }
  split.
  { subst st2. unfold tick. cbn [clients]. intros Hc.
    apply filter_In in Hc. destruct Hc as [_ Hc].
    apply negb_true_iff in Hc.
    assert (Hex : existsb (fun ws => Nat.eqb (sid ws) s)
                    (List.filter (fun ws => negb (isAlive ws))
                       (sockets (pongs others st1))) = true).
    { apply existsb_exists. exists (mkSocket s false). split.
      - apply filter_In. split; [exact H2|reflexivity].
      - apply Nat.eqb_refl. }
    congruence. }
  unfold connected, tick. cbn [sockets]. rewrite map_map. cbn [sid].
  apply in_map_iff. exists (mkSocket s true). split; [reflexivity|].
  apply filter_In. split; [|reflexivity].
  change (pongs (s :: others) st1) with (pongs others (pong s st1)).
  apply (pongs_other s others (pong s st1) Hn); [reflexivity|].
  unfold pong. cbn [sockets]. apply in_map_iff.
  exists (mkSocket s false). split; [|exact H1].
  cbn [sid]. rewrite Nat.eqb_refl. reflexivity.
Qed.

End KeepaliveTheorems.

Lemma silent_socket_dropped_witness :
  In 1 (Keepalive.terminated
          (Keepalive.tick (Keepalive.pongs [2] (Keepalive.tick Keepalive.deck)))).
Proof.
  apply (silent_socket_dropped Keepalive.deck 1 [2]).
  - vm_compute. auto.
  - cbn. intros [H|[]]. discriminate H.
Defined.

Section CrewTheorems.
Import Crew.
Variable toLowerCase : string -> string.

Lemma owner_listed l : existsb (String.eqb (owner l)) names = true.
Proof.
  unfold owner.
  repeat match goal with
  | |- context [if ?b then _ else _] => destruct b
  end; reflexivity.
Qed.

Lemma visit_fold l : forall a0,
  foldl (visit toLowerCase) a0 l
  = mkAnalysis
      (map (fun e =>
              (fst e,
               mkMember (active (snd e) + length (routedTo toLowerCase (fst e) l))
                        (tasks (snd e) ++ map infoOf (routedTo toLowerCase (fst e) l))))
           (crew a0))
      (totalRunning a0
       + length (List.filter (fun s => String.eqb (s_status s) "running") l))
      (totalSessions a0 + length l).
Proof.
  induction l as [|s l IH]; intros a0.
  - cbn [foldl routedTo List.filter length map]. destruct a0 as [c r n].
    cbn [crew totalRunning totalSessions]. rewrite !Nat.add_0_r. f_equal.
    induction c as [|[who [a ts]] c IHc]; [reflexivity|].
    cbn [map fst snd active tasks]. rewrite Nat.add_0_r, app_nil_r, <- IHc.
    reflexivity.
  - cbn [foldl]. rewrite IH. unfold visit at 1 2 3.
    cbn [crew totalRunning totalSessions List.filter length].
    f_equal.
    + unfold assign. rewrite map_map. apply map_ext. intros [who [a ts]].
      cbn [fst snd]. unfold routedTo. cbn [List.filter].
      rewrite (String.eqb_sym (ownerOf toLowerCase s) who).
      destruct (String.eqb who (ownerOf toLowerCase s)); cbn [fst snd active tasks length map].
      * f_equal. f_equal; [lia|]. rewrite <- app_assoc. reflexivity.
      * reflexivity.
    + destruct (String.eqb (s_status s) "running"); cbn [length]; lia.
    + lia.
Qed.

Lemma routed_sum (who : list string) (l : list Session) :
  NoDup who ->
  foldr (fun entry sum => active (snd entry) + sum) 0
        (map (fun w =>
                (w, mkMember (length (routedTo toLowerCase w l))
                             (map infoOf (routedTo toLowerCase w l)))) who)
  = length (List.filter (fun s => existsb (String.eqb (ownerOf toLowerCase s)) who) l).
Proof.
  induction who as [|a who IH]; intros Hnd.
  - cbn. induction l as [|s l IHl]; [reflexivity|exact IHl].
  - apply NoDup_cons in Hnd. destruct Hnd as [Ha Hnd].
    cbn [map foldr snd active]. rewrite (IH Hnd). clear IH.
    unfold routedTo. cbn [existsb].
    induction l as [|s l IHl]; [reflexivity|]. cbn [List.filter].
    destruct (String.eqb_spec (ownerOf toLowerCase s) a) as [Heq|Hne]; cbn [orb length].
    + assert (Hrest : existsb (String.eqb (ownerOf toLowerCase s)) who = false).
      { apply not_true_is_false. intros Hex. apply existsb_exists in Hex.
        destruct Hex as (x & Hx & Hxe). apply String.eqb_eq in Hxe.
        apply Ha. apply list_elem_of_In. congruence. }
      rewrite Hrest. lia.
    + destruct (existsb (String.eqb (ownerOf toLowerCase s)) who); cbn [length]; lia.
Qed.

(** X30: [analyzeCrewActivity] routes every session to exactly one of
    the thirteen crew members: each member's [tasks] are the sessions
    whose label the chain of rules gives to that member (first matching
    rule, "seven" when none matches), in their order, its [active] is
    their number, and the thirteen counts add up to [totalSessions],
    which is the number of sessions; [totalRunning] counts the running
    ones; a payload that is not an array gives all zeros. *)
Theorem crew_routing_counts l :
  let a := analyzeCrewActivity toLowerCase (Sessions l) in
  crew a
    = map (fun who =>
             (who, mkMember (length (routedTo toLowerCase who l))
                            (map infoOf (routedTo toLowerCase who l)))) names /\
  headcount a = length l /\
  totalSessions a = length l /\
  totalRunning a
    = length (List.filter (fun s => String.eqb (s_status s) "running") l) /\
  totalRunning a <= totalSessions a /\
  headcount (analyzeCrewActivity toLowerCase NotAnArray) = 0.
Proof.
  cbn zeta. unfold analyzeCrewActivity. rewrite visit_fold.
  cbn [crew totalRunning totalSessions empty]. rewrite map_map.
  cbn [fst snd active tasks Nat.add app].
  split; [reflexivity|]. split.
  { unfold headcount. cbn [crew]. rewrite routed_sum.
    - induction l as [|s l IHl]; [reflexivity|]. cbn [List.filter].
      unfold ownerOf at 1. rewrite owner_listed. cbn [length]. rewrite IHl.
      reflexivity.
    - unfold names. repeat (apply NoDup_cons; split;
        [intros H; repeat (apply elem_of_cons in H; destruct H as [H|H];
                           [discriminate H|]); inversion H|]).
      apply NoDup_nil. trivial. }
  split; [reflexivity|]. split; [reflexivity|]. split; [|reflexivity].
  apply filter_length_le.
Qed.

End CrewTheorems.

Lemma pruneTaskData_idempotent_witness :
  fst (Tasks.pruneTaskData Tasks.doc1) = Tasks.doc1.
Proof.
  apply (pruneTaskData_idempotent Tasks.doc1). reflexivity.
Defined.

Lemma archive_loses_nothing_witness :
  let r := Archive.archiveOldTasks 5000%Z Archive.doc3
             (Archive.mkShelf Archive.BadArchive true []) in
  In Archive.old_done (Tasks.tasks (snd (fst r))) \/
  In Archive.old_done (Archive.shelved (snd r)).
Proof.
  apply (archive_loses_nothing 5000%Z Archive.doc3
           (Archive.mkShelf Archive.BadArchive true [])).
  left. reflexivity.
Defined.

Lemma listTasks_filters_witness :
  fst (TaskQuery.listTasks Js.asciiLowerCase
         (TaskQuery.mkQuery 0 0 (Some "in_progress") (Some "Geordi") true)
         TaskLog.doc2)
  = [TaskLog.task2].
Proof.
  destruct (listTasks_filters Js.asciiLowerCase
              (TaskQuery.mkQuery 0 0 (Some "in_progress") (Some "Geordi") true)
              TaskLog.doc2) as (_ & _ & Hall & _).
  rewrite Hall by (cbn; lia). reflexivity.
Defined.
